(** * go-sieve: the interpreter of the Sieve mail-filtering language

  A shallow embedding of the evaluator of package [interp]: the matcher
  engine ([numericValue], [testString], [matchRegex], the safe regex
  wrapper), the tests of the base language, the editheader and vacation
  commands, and the runtime data they act on; further the address, envelope,
  mailbox and date tests with the functions of date.go, the loader of the
  size test, and the parser of envelope addresses.

  Go strings are byte strings and are embedded as [string]; Go's [int] and
  [uint64] are embedded as [Z], with the wrap-around of [uint64] written
  out where the code relies on it.  A Go result pair [(v, err)] is embedded
  as a pair whose second component is an [option Err]. *)

From Stdlib Require Import ZArith Zbitwise Lia Bool List Ascii String.
From Stdlib Require Import Decimal DecimalString.
From stdpp Require Import base option strings gmap.

Import ListNotations.
#[local] Set Warnings "-register-all".
Local Open Scope string_scope.
Local Open Scope Z_scope.

(** ** Errors

  One constructor for every place where the code builds an error value. *)

Inductive Err : Type :=
| ErrStop                                   (* the sentinel of [stop] *)
| ErrVacationNoSender                       (* "vacation: failed to get sender from envelope" *)
| ErrComparatorMatchUnsupported             (* "match-comparator combination not supported" *)
| ErrRegexPatternTooLong (n limit : Z)      (* "regex pattern too long: %d > %d" *)
| ErrRegexCompile                           (* "regex compile error: %w" *)
| ErrRegexCompileTimeout                    (* "regex compilation timeout" *)
| ErrRegexInputTooLong (n limit : Z)        (* "input too long for regex: %d > %d" *)
| ErrRegexPanic                             (* "regex panic: %v" *)
| ErrRegexTimeout                           (* "regex execution timeout" *)
| ErrAddressMissingAtSign                   (* "address: missing at-sign" *)
| ErrAddressEmptyLocalPart                  (* "address: empty local-part" *)
| ErrAddressEmptyDomain                     (* "address: empty domain" *)
| ErrSyntax                                 (* strconv.ErrSyntax *)
| ErrRange                                  (* strconv.ErrRange *)
| ErrTooManyRedirects                       (* the redirect limit of the options *)
| ErrMissingRequire (extension : string)    (* "missing require '...'" *)
| ErrPanic (msg : string)                   (* a panic of the code *)
| ErrHost (msg : string).                   (* an error of a host interface *)

#[global] Instance Err_eq_dec : EqDecision Err.
Proof. solve_decision. Defined.

(** ** Byte strings *)

Module GoString.

(** The value of a byte, [s[i]] read as a number. *)
Definition byte_val (c : ascii) : Z := Z.of_N (N_of_ascii c).

Definition byte_of (z : Z) : ascii := ascii_of_N (Z.to_N z).

(** [len(s)] *)
Definition len (s : string) : Z := Z.of_nat (String.length s).

Fixpoint bytes (s : string) : list Z :=
  match s with
  | EmptyString => []
  | String c s' => byte_val c :: bytes s'
  end.

Fixpoint of_bytes (l : list Z) : string :=
  match l with
  | [] => EmptyString
  | b :: l' => String (byte_of b) (of_bytes l')
  end.

(** [strings.HasPrefix(s, prefix)] *)
Fixpoint HasPrefix (s prefix : string) : bool :=
  match prefix, s with
  | EmptyString, _ => true
  | String _ _, EmptyString => false
  | String a p', String b s' => Ascii.eqb a b && HasPrefix s' p'
  end.

(** [strings.Index(s, substr)]: the index of the first instance of
    [substr] in [s], or [-1]. *)
Fixpoint Index_from (i : Z) (s substr : string) : Z :=
  if HasPrefix s substr then i
  else match s with
       | EmptyString => -1
       | String _ s' => Index_from (i + 1) s' substr
       end.

Definition Index (s substr : string) : Z := Index_from 0 s substr.

(** [strings.Contains(s, substr)] is [Index(s, substr) >= 0]. *)
Definition Contains (s substr : string) : bool := 0 <=? Index s substr.

(** [strings.LastIndexByte(s, c)] *)
Fixpoint LastIndexByte_from (i : Z) (s : string) (c : ascii) (found : Z) : Z :=
  match s with
  | EmptyString => found
  | String b s' =>
      LastIndexByte_from (i + 1) s' c (if Ascii.eqb b c then i else found)
  end.

Definition LastIndexByte (s : string) (c : ascii) : Z :=
  LastIndexByte_from 0 s c (-1).

(** The slices [s[:i]] and [s[i:]], for [0 <= i <= len(s)]. *)
Definition slice_to (s : string) (i : Z) : string :=
  String.substring 0 (Z.to_nat i) s.

Definition slice_from (s : string) (i : Z) : string :=
  String.substring (Z.to_nat i) (String.length s - Z.to_nat i) s.

End GoString.

(** ** UTF-8, as package [unicode/utf8] decodes and encodes it *)

Module Utf8.
Import GoString.

Definition RuneError : Z := 0xFFFD.
Definition MaxRune : Z := 0x10FFFF.
Definition surrogateMin : Z := 0xD800.
Definition surrogateMax : Z := 0xDFFF.
Definition RuneSelf : Z := 0x80.

Definition locb : Z := 0x80.
Definition hicb : Z := 0xBF.
Definition maskx : Z := 0x3F.
Definition mask2 : Z := 0x1F.
Definition mask3 : Z := 0x0F.
Definition mask4 : Z := 0x07.

(** The table [first] with its accept ranges, for a lead byte
    [s0 >= RuneSelf]: the size of the sequence and the range accepted for
    its second byte; [None] is the entry [xx] of an invalid lead byte. *)
Definition first (s0 : Z) : option (Z * Z * Z) :=
  if s0 <? 0xC2 then None
  else if s0 <=? 0xDF then Some (2, locb, hicb)
  else if s0 =? 0xE0 then Some (3, 0xA0, hicb)
  else if s0 <=? 0xEC then Some (3, locb, hicb)
  else if s0 =? 0xED then Some (3, locb, 0x9F)
  else if s0 <=? 0xEF then Some (3, locb, hicb)
  else if s0 =? 0xF0 then Some (4, 0x90, hicb)
  else if s0 <=? 0xF3 then Some (4, locb, hicb)
  else if s0 =? 0xF4 then Some (4, locb, 0x8F)
  else None.

(** [[]rune(s)]: [DecodeRuneInString] applied along the string; an invalid
    or short sequence gives [RuneError] and consumes one byte. *)
Fixpoint runes (s : string) : list Z :=
  match s with
  | EmptyString => []
  | String c0 t0 =>
    let s0 := byte_val c0 in
    if s0 <? RuneSelf then s0 :: runes t0 else
    match first s0 with
    | None => RuneError :: runes t0
    | Some (sz, lo, hi) =>
      if len s <? sz then RuneError :: runes t0 else
      match t0 with
      | EmptyString => RuneError :: runes t0
      | String c1 t1 =>
        let s1 := byte_val c1 in
        if (s1 <? lo) || (hi <? s1) then RuneError :: runes t0 else
        if sz <=? 2 then
          Z.lor (Z.shiftl (Z.land s0 mask2) 6) (Z.land s1 maskx) :: runes t1
        else
        match t1 with
        | EmptyString => RuneError :: runes t0
        | String c2 t2 =>
          let s2 := byte_val c2 in
          if (s2 <? locb) || (hicb <? s2) then RuneError :: runes t0 else
          if sz <=? 3 then
            Z.lor (Z.lor (Z.shiftl (Z.land s0 mask3) 12)
                         (Z.shiftl (Z.land s1 maskx) 6))
                  (Z.land s2 maskx) :: runes t2
          else
          match t2 with
          | EmptyString => RuneError :: runes t0
          | String c3 t3 =>
            let s3 := byte_val c3 in
            if (s3 <? locb) || (hicb <? s3) then RuneError :: runes t0 else
            Z.lor (Z.lor (Z.lor (Z.shiftl (Z.land s0 mask4) 18)
                                (Z.shiftl (Z.land s1 maskx) 12))
                         (Z.shiftl (Z.land s2 maskx) 6))
                  (Z.land s3 maskx) :: runes t3
          end
        end
      end
    end
  end.

(** [AppendRune]: the bytes of one rune; a rune out of range or a
    surrogate is written as [RuneError]. *)
Definition encodeRune (r : Z) : list Z :=
  if (0 <=? r) && (r <=? 0x7F) then [r]
  else if (0 <=? r) && (r <=? 0x7FF) then
    [Z.lor 0xC0 (Z.shiftr r 6); Z.lor 0x80 (Z.land r maskx)]
  else
    let r := if (r <? 0) || (MaxRune <? r)
                || ((surrogateMin <=? r) && (r <=? surrogateMax))
             then RuneError else r in
    if r <=? 0xFFFF then
      [Z.lor 0xE0 (Z.shiftr r 12);
       Z.lor 0x80 (Z.land (Z.shiftr r 6) maskx);
       Z.lor 0x80 (Z.land r maskx)]
    else
      [Z.lor 0xF0 (Z.shiftr r 18);
       Z.lor 0x80 (Z.land (Z.shiftr r 12) maskx);
       Z.lor 0x80 (Z.land (Z.shiftr r 6) maskx);
       Z.lor 0x80 (Z.land r maskx)].

(** [string(rs)] for a slice of runes. *)
Definition string_of_runes (rs : list Z) : string :=
  of_bytes (concat (map encodeRune rs)).

End Utf8.

(** ** [strconv.ParseUint(s, 10, 64)] *)

Module Strconv.
Import GoString.

Definition maxUint64 : Z := 2 ^ 64 - 1.

(** The smallest number such that [cutoff * 10 > maxUint64]. *)
Definition cutoff : Z := maxUint64 / 10 + 1.

Definition lower (c : Z) : Z := Z.lor c 0x20.

Definition isDigitByte (c : Z) : bool := (0x30 <=? c) && (c <=? 0x39).

Fixpoint ParseUint_loop (bs : list Z) (n : Z) : Z * option Err :=
  match bs with
  | [] => (n, None)
  | c :: rest =>
    let d := if isDigitByte c then Some (c - 0x30)
             else if (0x61 <=? lower c) && (lower c <=? 0x7A)
                  then Some (lower c - 0x61 + 10)
                  else None in
    match d with
    | None => (0, Some ErrSyntax)
    | Some d =>
      if 10 <=? d then (0, Some ErrSyntax)
      else if cutoff <=? n then (maxUint64, Some ErrRange)
      else
        let n := (n * 10) mod 2 ^ 64 in
        let n1 := (n + d) mod 2 ^ 64 in
        if (n1 <? n) || (maxUint64 <? n1) then (maxUint64, Some ErrRange)
        else ParseUint_loop rest n1
    end
  end.

Definition ParseUint (s : string) : Z * option Err :=
  if String.eqb s "" then (0, Some ErrSyntax)
  else ParseUint_loop (bytes s) 0.

(** The number a list of digit bytes denotes, continuing from [n]. *)
Fixpoint decimal_from (n : Z) (bs : list Z) : Z :=
  match bs with
  | [] => n
  | c :: rest => decimal_from (n * 10 + (c - 0x30)) rest
  end.

Definition decimal (bs : list Z) : Z := decimal_from 0 bs.

End Strconv.

(** ** The data of the matcher (match.go) *)

(** [type Match string]: its six constants, and the zero value [""]. *)
Inductive Match : Type :=
| MatchContains | MatchIs | MatchMatches | MatchValue | MatchCount | MatchRegex
| MatchUnset.

(** [type Comparator string]: its four constants, and the zero value. *)
Inductive Comparator : Type :=
| ComparatorOctet | ComparatorASCIICaseMap | ComparatorASCIINumeric
| ComparatorUnicodeCaseMap | ComparatorUnset.

Definition DefaultComparator : Comparator := ComparatorASCIICaseMap.

(** [type Relational string].  Its declaration is not among the sources; the
    constants are the six relations of the relational extension, and the zero
    value that [valueMatchesPatterns] passes. *)
Inductive Relational : Type :=
| RelGreaterThan | RelGreaterOrEqual | RelLessThan | RelLessOrEqual
| RelEqual | RelNotEqual | RelUnset.

Inductive AddressPart : Type :=
| LocalPart | Domain | All | User | Detail.

#[global] Instance Match_eq_dec : EqDecision Match.
Proof. solve_decision. Defined.

#[global] Instance Comparator_eq_dec : EqDecision Comparator.
Proof. solve_decision. Defined.

(** The state shared by every test that takes a key list. *)
Record matcherTest : Type := {
  comparator : Comparator;
  match_ : Match;
  relational : Relational;
  key : list string
}.

(** ** The safe regex wrapper (regex.go) *)

Record RegexLimits : Type := {
  MaxExecTime : Z;          (* nanoseconds *)
  MaxPatternLength : Z;
  MaxInputLength : Z
}.

Definition DefaultRegexLimits : RegexLimits :=
  {| MaxExecTime := 100 * 1000000;
     MaxPatternLength := 1000;
     MaxInputLength := 10000 |}.

(** What the [select] of [CompileSafeRegex] can receive: the compiled
    pattern, a compile error, or the deadline of the context. *)
Inductive CompileOutcome (Regexp : Type) : Type :=
| Compiled (re : Regexp)
| CompileFailed
| CompileDeadline.
Arguments Compiled {Regexp} re.
Arguments CompileFailed {Regexp}.
Arguments CompileDeadline {Regexp}.

(** What the [select] of [FindSubmatch] can receive: the submatches ([None]
    is the nil slice of a pattern that does not match), a recovered panic, or
    the deadline of the context. *)
Inductive SubmatchOutcome : Type :=
| Submatches (matches : option (list string))
| SubmatchPanic
| SubmatchDeadline.

Record SafeRegexMatcher (Regexp : Type) : Type := {
  pattern : Regexp;
  limits : RegexLimits
}.
Arguments pattern {Regexp} _.
Arguments limits {Regexp} _.

(** ** The host interfaces and the runtime data *)

Module Host.

(** [Message]: [HeaderGet(key) ([]string, error)] and [MessageSize() int].
    A message view may be an [EditableMessage], whose [HeaderGet] replays the
    journal of header edits of the runtime data it points to: the method
    takes the journal as it stands at the call. *)
Record Message (Journal : Type) : Type := {
  HeaderGet : Journal -> string -> list string * option Err;
  MessageSize : Z
}.
Arguments HeaderGet {Journal} _ _ _.
Arguments MessageSize {Journal} _.

(** [Envelope]: [EnvelopeFrom()], [EnvelopeTo()] and [AuthUsername()]. *)
Record Envelope : Type := {
  EnvelopeFrom : string;
  EnvelopeTo : string;
  AuthUsername : string
}.

End Host.

(** [HeaderEdit] (editheader.go). *)
Record HeaderEdit : Type := {
  Action : string;     (* "add" or "delete" *)
  FieldName : string;
  Value : string;
  Last : bool;
  Index : Z
}.

(** [VacationResponse] (vacation.go). *)
Record VacationResponse : Type := {
  From : string;
  Subject : string;
  Body : string;
  IsMime : bool;
  Handle : string;
  Days : Z
}.

(** [RuntimeData].  The declaration of the struct is not among the sources:
    the fields are those the sources read and write, with the types they are
    used at.  [VacationResponses] is [None] for the nil map; [MaxRedirects]
    stands for [Script.opts.MaxRedirects]. *)
Record RuntimeData : Type := {
  Envelope : Host.Envelope;
  Msg : Host.Message (list HeaderEdit);
  Variables : gmap string string;
  MatchVariables : list string;
  ImplicitKeep : bool;
  Keep : bool;
  Mailboxes : list string;
  RedirectAddr : list string;
  Flags : list string;
  HeaderEdits : list HeaderEdit;
  VacationResponses : option (gmap string VacationResponse);
  MaxRedirects : Z
}.

Definition set_MatchVariables (v : list string) (d : RuntimeData) : RuntimeData :=
  {| Envelope := Envelope d; Msg := Msg d; Variables := Variables d;
     MatchVariables := v; ImplicitKeep := ImplicitKeep d; Keep := Keep d;
     Mailboxes := Mailboxes d; RedirectAddr := RedirectAddr d; Flags := Flags d;
     HeaderEdits := HeaderEdits d; VacationResponses := VacationResponses d;
     MaxRedirects := MaxRedirects d |}.

Definition set_ImplicitKeep (v : bool) (d : RuntimeData) : RuntimeData :=
  {| Envelope := Envelope d; Msg := Msg d; Variables := Variables d;
     MatchVariables := MatchVariables d; ImplicitKeep := v; Keep := Keep d;
     Mailboxes := Mailboxes d; RedirectAddr := RedirectAddr d; Flags := Flags d;
     HeaderEdits := HeaderEdits d; VacationResponses := VacationResponses d;
     MaxRedirects := MaxRedirects d |}.

Definition set_Keep (v : bool) (d : RuntimeData) : RuntimeData :=
  {| Envelope := Envelope d; Msg := Msg d; Variables := Variables d;
     MatchVariables := MatchVariables d; ImplicitKeep := ImplicitKeep d; Keep := v;
     Mailboxes := Mailboxes d; RedirectAddr := RedirectAddr d; Flags := Flags d;
     HeaderEdits := HeaderEdits d; VacationResponses := VacationResponses d;
     MaxRedirects := MaxRedirects d |}.

Definition set_Mailboxes (v : list string) (d : RuntimeData) : RuntimeData :=
  {| Envelope := Envelope d; Msg := Msg d; Variables := Variables d;
     MatchVariables := MatchVariables d; ImplicitKeep := ImplicitKeep d; Keep := Keep d;
     Mailboxes := v; RedirectAddr := RedirectAddr d; Flags := Flags d;
     HeaderEdits := HeaderEdits d; VacationResponses := VacationResponses d;
     MaxRedirects := MaxRedirects d |}.

Definition set_RedirectAddr (v : list string) (d : RuntimeData) : RuntimeData :=
  {| Envelope := Envelope d; Msg := Msg d; Variables := Variables d;
     MatchVariables := MatchVariables d; ImplicitKeep := ImplicitKeep d; Keep := Keep d;
     Mailboxes := Mailboxes d; RedirectAddr := v; Flags := Flags d;
     HeaderEdits := HeaderEdits d; VacationResponses := VacationResponses d;
     MaxRedirects := MaxRedirects d |}.

Definition set_HeaderEdits (v : list HeaderEdit) (d : RuntimeData) : RuntimeData :=
  {| Envelope := Envelope d; Msg := Msg d; Variables := Variables d;
     MatchVariables := MatchVariables d; ImplicitKeep := ImplicitKeep d; Keep := Keep d;
     Mailboxes := Mailboxes d; RedirectAddr := RedirectAddr d; Flags := Flags d;
     HeaderEdits := v; VacationResponses := VacationResponses d;
     MaxRedirects := MaxRedirects d |}.

Definition set_VacationResponses (v : option (gmap string VacationResponse))
    (d : RuntimeData) : RuntimeData :=
  {| Envelope := Envelope d; Msg := Msg d; Variables := Variables d;
     MatchVariables := MatchVariables d; ImplicitKeep := ImplicitKeep d; Keep := Keep d;
     Mailboxes := Mailboxes d; RedirectAddr := RedirectAddr d; Flags := Flags d;
     HeaderEdits := HeaderEdits d; VacationResponses := v;
     MaxRedirects := MaxRedirects d |}.

(** ** Commands and tests as the loader builds them *)

(** [CmdVacation] (vacation.go). *)
Record CmdVacation : Type := {
  vacDays : Z;
  vacSubject : string;
  vacFrom : string;
  vacAddresses : list string;
  vacMime : bool;
  vacHandle : string;
  vacReason : string
}.

(** [CmdAddHeader] (editheader.go). *)
Record CmdAddHeader : Type := {
  addFieldName : string;
  addValue : string;
  addLast : bool
}.

(** [CmdDeleteHeader] (editheader.go). *)
Record CmdDeleteHeader : Type := {
  delMatcher : matcherTest;
  delFieldName : string;
  delValuePatterns : list string;
  delIndex : Z;
  delLast : bool
}.

(** The tests of tests.go that read only the message and the matcher. *)
Inductive Test : Type :=
| AllOfTest (Tests : list Test)
| AnyOfTest (Tests : list Test)
| ExistsTest (Fields : list string)
| FalseTest
| TrueTest
| HeaderTest (m : matcherTest) (Header : list string)
| NotTest (t : Test)
| SizeTest (Size : Z) (Over Under : bool).

(** The commands.  [If] carries the block of its condition and the rest of
    its chain (an [elsif] is an [If] in the rest, an [else] is the rest). *)
Inductive Cmd : Type :=
| Stop
| KeepCmd
| Discard
| FileInto (Mailbox : string) (Copy : bool)
| Redirect (Addr : string) (Copy : bool)
| AddHeader (c : CmdAddHeader)
| DeleteHeader (c : CmdDeleteHeader)
| Vacation (c : CmdVacation)
| If (t : Test) (Block : list Cmd) (Else : list Cmd).

(** ** ASCII case (match.go) *)

Definition isUpperByte (c : Z) : bool := (0x41 <=? c) && (c <=? 0x5A).

Definition lowerByte (c : ascii) : ascii :=
  if isUpperByte (GoString.byte_val c)
  then GoString.byte_of (GoString.byte_val c + (0x61 - 0x41))
  else c.

Fixpoint hasUpper (s : string) : bool :=
  match s with
  | EmptyString => false
  | String c s' => isUpperByte (GoString.byte_val c) || hasUpper s'
  end.

Fixpoint isASCII (s : string) : bool :=
  match s with
  | EmptyString => true
  | String c s' => (GoString.byte_val c <? Utf8.RuneSelf) && isASCII s'
  end.

Fixpoint mapBytes (f : ascii -> ascii) (s : string) : string :=
  match s with
  | EmptyString => EmptyString
  | String c s' => String (f c) (mapBytes f s')
  end.

(** [toLowerASCII] (match.go): the string itself when it has no upper-case
    ASCII letter, otherwise a copy with each such letter lowered. *)
Definition toLowerASCII (s : string) : string :=
  if negb (hasUpper s) then s else mapBytes lowerByte s.

(** Modelled from the spec: [NewRuntimeData] (§3, §6): [ImplicitKeep] is
    initially true, nothing is recorded yet. *)
Definition NewRuntimeData (maxRedirects : Z) (e : Host.Envelope)
    (msg : Host.Message (list HeaderEdit)) : RuntimeData :=
  {| Envelope := e; Msg := msg; Variables := ∅; MatchVariables := [];
     ImplicitKeep := true; Keep := false; Mailboxes := []; RedirectAddr := [];
     Flags := []; HeaderEdits := []; VacationResponses := None;
     MaxRedirects := maxRedirects |}.

(** ** Package [strconv], signed *)

(** The loop of the fast path of [strconv.Atoi]: [ch -= '0'] on a byte
    wraps around. *)
Fixpoint strconv_Atoi_loop (bs : list Z) (n : Z) : option Z :=
  match bs with
  | [] => Some n
  | ch :: rest =>
    let ch := (ch - 0x30) mod 256 in
    if 9 <? ch then None else strconv_Atoi_loop rest (n * 10 + ch)
  end.

(** [strconv.ParseInt(s, 10, 0)], with an [int] of 64 bits. *)
Definition strconv_ParseInt (s : string) : Z * option Err :=
  match s with
  | EmptyString => (0, Some ErrSyntax)
  | String c0 t =>
    let neg := Ascii.eqb c0 "-" in
    let s := if Ascii.eqb c0 "+" || neg then t else s in
    match Strconv.ParseUint s with
    | (_, Some ErrSyntax) => (0, Some ErrSyntax)
    | (un, _) =>
      let cutoff := 2 ^ 63 in
      if negb neg && (cutoff <=? un) then (cutoff - 1, Some ErrRange)
      else if neg && (cutoff <? un) then (- cutoff, Some ErrRange)
      else (if neg then - un else un, None)
    end
  end.

(** [strconv.Atoi], with an [int] of 64 bits: the fast path for a string of
    one to eighteen bytes, [ParseInt] for the others. *)
Definition strconv_Atoi (s : string) : Z * option Err :=
  let sLen := GoString.len s in
  if (0 <? sLen) && (sLen <? 19) then
    match s with
    | EmptyString => (0, Some ErrSyntax)
    | String c0 t =>
      let signed := Ascii.eqb c0 "-" || Ascii.eqb c0 "+" in
      let s := if signed then t else s in
      if signed && (GoString.len s <? 1) then (0, Some ErrSyntax)
      else
        match strconv_Atoi_loop (GoString.bytes s) 0 with
        | None => (0, Some ErrSyntax)
        | Some n => (if Ascii.eqb c0 "-" then - n else n, None)
        end
    end
  else strconv_ParseInt s.

(** ** Dates (date.go) *)

(** The errors of [parseZoneOffset]. *)
Inductive ZoneErr : Type :=
| ErrInvalidZoneFormat (zone : string)      (* "invalid zone format: %s" *)
| ErrInvalidZoneHours (zone : string)       (* "invalid zone hours: %s" *)
| ErrInvalidZoneMinutes (zone : string).    (* "invalid zone minutes: %s" *)

(** [modifiedJulianDay], on the year, the month and the day of its argument
    ([t.Year()], [int(t.Month())] and [t.Day()]).  Go's [/] on [int]
    truncates toward zero: [Z.quot]. *)
Definition modifiedJulianDay (year month day : Z) : Z :=
  let a := Z.quot (14 - month) 12 in
  let y := year + 4800 - a in
  let m := month + 12 * a - 3 in
  let jdn := day + Z.quot (153 * m + 2) 5 + 365 * y + Z.quot y 4 - Z.quot y 100
             + Z.quot y 400 - 32045 in
  jdn - 2400001.

(** [parseZoneOffset]: [zone[0]], and the slices [zone[1:3]] and
    [zone[3:5]] of a string of five bytes. *)
Definition parseZoneOffset (zone : string) : Z * option ZoneErr :=
  if negb (GoString.len zone =? 5) then (0, Some (ErrInvalidZoneFormat zone))
  else
    match zone with
    | EmptyString => (0, Some (ErrInvalidZoneFormat zone))
    | String z0 _ =>
      if negb (Ascii.eqb z0 "-") && negb (Ascii.eqb z0 "+")
      then (0, Some (ErrInvalidZoneFormat zone))
      else
        let sign := if Ascii.eqb z0 "-" then -1 else 1 in
        match strconv_Atoi (String.substring 1 2 zone) with
        | (_, Some _) => (0, Some (ErrInvalidZoneHours zone))
        | (hours, None) =>
          match strconv_Atoi (String.substring 3 2 zone) with
          | (_, Some _) => (0, Some (ErrInvalidZoneMinutes zone))
          | (minutes, None) => (sign * (hours * 3600 + minutes * 60), None)
          end
        end
    end.

(** ** More of package [strings] *)

Module GoStrings.

(** The slice [s[i:j]], for [0 <= i <= j <= len(s)]. *)
Definition slice (s : string) (i j : Z) : string :=
  String.substring (Z.to_nat i) (Z.to_nat j - Z.to_nat i) s.

(** [strings.HasSuffix(s, suffix)] *)
Definition HasSuffix (s suffix : string) : bool :=
  (GoString.len suffix <=? GoString.len s)
  && String.eqb (GoString.slice_from s (GoString.len s - GoString.len suffix))
                suffix.

(** [strings.Count(s, substr)] for a [substr] of the one byte [c], which is
    [bytealg.CountString(s, c)]. *)
Fixpoint CountByte (s : string) (c : ascii) : Z :=
  match s with
  | EmptyString => 0
  | String b s' => (if Ascii.eqb b c then 1 else 0) + CountByte s' c
  end.

(** [strings.SplitN(s, sep, 2)] for a [sep] that is not empty: the string
    itself when [sep] does not occur, otherwise the parts before and after
    its first instance. *)
Definition SplitN2 (s sep : string) : list string :=
  let m := GoString.Index s sep in
  if m <? 0 then [s]
  else [GoString.slice_to s m; GoString.slice_from s (m + GoString.len sep)].

(** [strings.Split(s, sep)] for a [sep] of the one byte [c]: the parts
    between the instances of [c], one more than there are instances. *)
Fixpoint SplitByte (s : string) (c : ascii) : list string :=
  match s with
  | EmptyString => [EmptyString]
  | String b s' =>
    if Ascii.eqb b c then EmptyString :: SplitByte s' c
    else match SplitByte s' c with
         | [] => [String b EmptyString]
         | part :: parts => String b part :: parts
         end
  end.

End GoStrings.

(** ** Envelope addresses (the test suite of Dovecot) *)

(** The errors of [parseEnvelopeAddress]. *)
Inductive EnvelopeErr : Type :=
| ErrEnvelopeSyntax (addr : string)         (* "invalid envelope address syntax: %s" *)
| ErrEnvelopeMissingDomain                  (* "...: missing domain" *)
| ErrEnvelopeMissingLocalPart               (* "...: missing local part" *)
| ErrSourceRouteSyntax                      (* "invalid source route syntax" *)
| ErrSourceRouteStart                       (* "invalid source route: must start with @" *)
| ErrSourceRouteHostList                    (* "invalid source route: malformed host list" *)
| ErrSourceRouteHost (host : string)        (* "invalid source route host: %s" *)
| ErrSourceRouteHostFormat (host : string)  (* "invalid source route host format: %s" *)
| ErrSourceRouteHostname (hostName : string) (* "invalid hostname in source route: %s" *)
| ErrEnvelopeMissingAtSign                  (* "invalid envelope address: missing @" *)
| ErrEnvelopeMultipleAtSigns                (* "invalid envelope address: multiple @" *)
| ErrEnvelopeEmptyPart.                     (* "...: empty local part or domain" *)

(** The errors of [EnvelopeTest.Check]: its own, and those of the matcher. *)
Inductive EnvelopeTestErr : Type :=
| ErrUnsupportedEnvelopePart (field : string) (* "envelope: unsupported envelope-part: %v" *)
| ErrEnvelopeMatcher (err : Err).

(** ** Loading a [size] test (load_tests.go) *)

(** What [LoadSpec] hands to the callbacks of the spec of [loadSizeTest]:
    the tags [:under] and [:over], and the number.  The binder itself is not
    among the sources: a run of it is given by the callbacks it calls, in
    order, and by the error it returns. *)
Inductive SizeArg : Type :=
| ArgUnder
| ArgOver
| ArgNum (i : Z).

(** The errors of [loadSizeTest]: its own, and those of the binder. *)
Inductive LoadSizeErr : Type :=
| ErrSizeUnderOrOver          (* "loadSizeTest: either under or over is required" *)
| ErrLoadSpec (err : Err).

(** The fields [Size], [Over] and [Under] of the test that is loaded. *)
Definition bindSizeArg (loaded : Z * bool * bool) (a : SizeArg) : Z * bool * bool :=
  let '(size, over, under) := loaded in
  match a with
  | ArgUnder => (size, over, true)
  | ArgOver => (size, true, under)
  | ArgNum i => (i, over, under)
  end.

Definition loadSizeTest (args : list SizeArg) (err : option Err)
  : option Test * option LoadSizeErr :=
  let '(size, over, under) := fold_left bindSizeArg args (0, false, false) in
  if Bool.eqb under over then (None, Some ErrSizeUnderOrOver)
  else (Some (SizeTest size over under), option_map ErrLoadSpec err).

(** ** The date test (date.go) *)

(** Package [time] and [mail.ParseDate], as far as date.go calls them: a
    time with its fields and its formatting, the change of its location,
    and the two parsers, which answer a time or fail. *)
Record TimeLibrary : Type := {
  Time : Type;
  Time_Year : Time -> Z;
  Time_Month : Time -> Z;
  Time_Day : Time -> Z;
  Time_Hour : Time -> Z;
  Time_Minute : Time -> Z;
  Time_Second : Time -> Z;
  Time_Weekday : Time -> Z;
  Time_Format : Time -> string -> string;
  Time_In_FixedZone : Time -> Z -> Time;   (* [t.In(time.FixedZone("", offset))] *)
  Time_Local : Time -> Time;
  time_Parse : string -> string -> option Time;
  mail_ParseDate : string -> option Time
}.

(** [strconv.Itoa] and [fmt.Sprintf("%02d", n)]. *)
Definition strconv_Itoa (n : Z) : string := NilZero.string_of_int (Z.to_int n).

Definition Sprintf_02d (n : Z) : string :=
  let s := strconv_Itoa n in
  if GoString.len s <? 2 then "0" +:+ s else s.

(** [ValidDateParts] *)
Definition ValidDateParts : gset string :=
  {[ "year"; "month"; "day"; "date"; "julian"; "hour"; "minute"; "second";
     "time"; "iso8601"; "std11"; "zone"; "weekday" ]}.

(** The layouts [time.RFC1123Z], [time.RFC1123], [time.RFC822Z],
    [time.RFC822], [time.RFC3339] and [time.RFC3339Nano], and the others
    [parseDateHeader] tries. *)
Definition dateFormats : list string :=
  [ "Mon, 02 Jan 2006 15:04:05 -0700";
    "Mon, 02 Jan 2006 15:04:05 MST";
    "02 Jan 06 15:04 -0700";
    "02 Jan 06 15:04 MST";
    "2006-01-02T15:04:05Z07:00";
    "2006-01-02T15:04:05.999999999Z07:00";
    "Mon, 2 Jan 2006 15:04:05 -0700";
    "Mon, 2 Jan 2006 15:04:05 MST";
    "2 Jan 2006 15:04:05 -0700";
    "2 Jan 2006 15:04:05 MST";
    "Mon, 02 Jan 2006 15:04:05 -0700";
    "Mon, 02 Jan 2006 15:04:05 MST";
    "02 Jan 2006 15:04:05 -0700";
    "02 Jan 2006 15:04:05 MST" ].

(** The errors of [DateTest.Check]: those of the message and of the
    matcher, and the one of [extractDatePart]. *)
Inductive DateTestErr : Type :=
| ErrUnknownDatePart (part : string)        (* "unknown date-part: %s" *)
| ErrDateTest (err : Err).

(** [DateTest] *)
Record DateTest : Type := {
  dateMatcher : matcherTest;
  dateHeader : string;
  dateDatePart : string;
  dateZone : string;
  dateOriginalZone : bool;
  dateIndex : Z;
  dateLast : bool
}.

Section Dates.

Variable L : TimeLibrary.

(** [extractDatePart] *)
Definition extractDatePart (t : Time L) (part : string)
  : string * option DateTestErr :=
  if String.eqb part "year" then (strconv_Itoa (Time_Year L t), None)
  else if String.eqb part "month" then (Sprintf_02d (Time_Month L t), None)
  else if String.eqb part "day" then (Sprintf_02d (Time_Day L t), None)
  else if String.eqb part "date" then (Time_Format L t "2006-01-02", None)
  else if String.eqb part "julian" then
    (strconv_Itoa (modifiedJulianDay (Time_Year L t) (Time_Month L t)
                     (Time_Day L t)), None)
  else if String.eqb part "hour" then (Sprintf_02d (Time_Hour L t), None)
  else if String.eqb part "minute" then (Sprintf_02d (Time_Minute L t), None)
  else if String.eqb part "second" then (Sprintf_02d (Time_Second L t), None)
  else if String.eqb part "time" then (Time_Format L t "15:04:05", None)
  else if String.eqb part "iso8601"
  then (Time_Format L t "2006-01-02T15:04:05-07:00", None)
  else if String.eqb part "std11"
  then (Time_Format L t "Mon, 02 Jan 2006 15:04:05 -0700", None)
  else if String.eqb part "zone" then (Time_Format L t "-0700", None)
  else if String.eqb part "weekday" then (strconv_Itoa (Time_Weekday L t), None)
  else (EmptyString, Some (ErrUnknownDatePart part)).

(** [DateTest.applyZone] *)
Definition applyZone (c : DateTest) (t : Time L) : Time L :=
  if dateOriginalZone c then t
  else
    let fallback := Time_Local L t in
    if negb (String.eqb (dateZone c) EmptyString) then
      match parseZoneOffset (dateZone c) with
      | (offset, None) => Time_In_FixedZone L t offset
      | (_, Some _) => fallback
      end
    else fallback.

(** The loop of [parseDateHeader] over the layouts. *)
Fixpoint parseDateFormats (formats : list string) (value : string)
  : option (Time L) :=
  match formats with
  | [] => None
  | format :: rest =>
    match time_Parse L format value with
    | Some t => Some t
    | None => parseDateFormats rest value
    end
  end.

End Dates.

(** ** The comparison of numeric values *)

Module SpecModel.

(** The order of two numeric values, where [None] is the value of a string
    without leading digits. *)
Definition numericOrder (lhs rhs : option Z) : comparison :=
  match lhs, rhs with
  | Some a, Some b => a ?= b
  | Some _, None => Lt
  | None, Some _ => Gt
  | None, None => Eq
  end.

(** The six relations of the relational extension, on an order. *)
Definition relationHolds (rel : Relational) (c : comparison) : bool :=
  match rel, c with
  | RelGreaterThan, Gt => true
  | RelGreaterOrEqual, (Gt | Eq) => true
  | RelLessThan, Lt => true
  | RelLessOrEqual, (Lt | Eq) => true
  | RelEqual, Eq => true
  | RelNotEqual, (Lt | Gt) => true
  | _, _ => false
  end.

(** Modelled from the spec: the function [CompareNumericValue] is not under
    src/.  Under [i;ascii-numeric] the leading decimal run of each side is
    parsed, [None] means no digits, and equality and order are defined so
    that presence of digits beats absence (§4.4).  With RFC 4790, section
    9.1, which [numericValue] refers to: a string without leading digits
    stands for positive infinity, so that two of them are equal and every
    number is less than either. *)
Definition CompareNumericValue (rel : Relational) (lhs rhs : option Z) : bool :=
  relationHolds rel (numericOrder lhs rhs).

End SpecModel.

(** ** Sample data

    The data of the closed instances at the end: the message and the
    envelopes of the tests of the repository, a few commands, and stand-ins
    for what the interpreter takes as variables.  The instances run on ASCII
    data, and none of the paths they take calls a stand-in whose answer
    would matter. *)

Module Sample.

Definition noDigit : Z -> bool := fun _ => false.
Definition lowerMap : string -> string := fun s => s.
Definition equalFold (a b : string) : bool :=
  String.eqb (toLowerASCII a) (toLowerASCII b).
Definition trimSpace : string -> string := fun s => s.
Definition compareString : Relational -> string -> string -> bool :=
  fun _ a b => String.eqb a b.
Definition compareNumericValue : Relational -> option Z -> option Z -> bool :=
  fun _ a b => bool_decide (a = b).
Definition glob : string -> string -> bool -> bool * list string * option Err :=
  fun _ _ _ => (false, [], None).
Definition compile : Z -> string -> CompileOutcome unit :=
  fun _ _ => Compiled tt.
Definition findStringSubmatch : Z -> unit -> string -> SubmatchOutcome :=
  fun _ _ _ => Submatches None.
Definition expand : RuntimeData -> string -> string := fun _ s => s.
Definition count : matcherTest -> RuntimeData -> Z -> bool := fun _ _ _ => false.

(** The message of the tests of the repository, as far as the instances read
    it: a subject and a sender, 606 bytes. *)
Definition message : Host.Message (list HeaderEdit) :=
  {| Host.HeaderGet := fun _ k =>
       if String.eqb (toLowerASCII k) "subject"
       then (["I have a present for you"], None)
       else if String.eqb (toLowerASCII k) "from"
       then (["coyote@desert.example.org"], None)
       else ([], None);
     Host.MessageSize := 606 |}.

Definition envelope (from : string) : Host.Envelope :=
  {| Host.EnvelopeFrom := from;
     Host.EnvelopeTo := "recipient@example.com";
     Host.AuthUsername := EmptyString |}.

Definition fresh (from : string) : RuntimeData :=
  NewRuntimeData 5 (envelope from) message.

(** [vacation :addresses ["sender@example.com", "other@example.com"] "Away."] *)
Definition vacationOwn : CmdVacation :=
  {| vacDays := 7; vacSubject := EmptyString; vacFrom := EmptyString;
     vacAddresses := ["sender@example.com"; "other@example.com"];
     vacMime := false; vacHandle := EmptyString; vacReason := "Away." |}.

(** [vacation "I'm on vacation."] *)
Definition vacationPlain : CmdVacation :=
  {| vacDays := 7; vacSubject := EmptyString; vacFrom := EmptyString;
     vacAddresses := []; vacMime := false; vacHandle := EmptyString;
     vacReason := "I'm on vacation." |}.



(** The matcher of [header :comparator "i;ascii-numeric" :contains "Subject"
    "1"]. *)
Definition numericContains : matcherTest :=
  {| comparator := ComparatorASCIINumeric; match_ := MatchContains;
     relational := RelUnset; key := ["1"] |}.

(** The matcher of [header :contains "Subject" "present"]. *)
Definition containsPresent : matcherTest :=
  {| comparator := DefaultComparator; match_ := MatchContains;
     relational := RelUnset; key := ["present"] |}.

Definition deleteReceived : CmdDeleteHeader :=
  {| delMatcher := {| comparator := DefaultComparator; match_ := MatchIs;
                      relational := RelUnset; key := [] |};
     delFieldName := "Received"; delValuePatterns := []; delIndex := 0;
     delLast := false |}.

Definition addBadName : CmdAddHeader :=
  {| addFieldName := "X Test"; addValue := "hello"; addLast := false |}.

(** The matcher of [header :count "ge" ["Subject", "From"] "2"]. *)
Definition countGe : matcherTest :=
  {| comparator := ComparatorASCIINumeric; match_ := MatchCount;
     relational := RelGreaterOrEqual; key := ["2"] |}.

(** The matcher of [:count "ge" "1"]. *)
Definition countOne : matcherTest :=
  {| comparator := ComparatorASCIINumeric; match_ := MatchCount;
     relational := RelGreaterOrEqual; key := ["1"] |}.

(** A policy that knows the mailboxes [INBOX] and [Archive]. *)
Definition mailboxExists : string -> bool * option Err :=
  fun mailbox =>
    (String.eqb mailbox "INBOX" || String.eqb mailbox "Archive", None).

(** [addheader "X-Test" "hello"] *)
Definition addXTest : CmdAddHeader :=
  {| addFieldName := "X-Test"; addValue := "hello"; addLast := false |}.

(** [deleteheader "Subject"] *)
Definition deleteSubject : CmdDeleteHeader :=
  {| delMatcher := {| comparator := DefaultComparator; match_ := MatchIs;
                      relational := RelUnset; key := [] |};
     delFieldName := "Subject"; delValuePatterns := []; delIndex := 0;
     delLast := false |}.

(** [deleteheader :is "X-Missing" "foo"] *)
Definition deleteMissing : CmdDeleteHeader :=
  {| delMatcher := {| comparator := DefaultComparator; match_ := MatchIs;
                      relational := RelUnset; key := ["foo"] |};
     delFieldName := "X-Missing"; delValuePatterns := ["foo"]; delIndex := 0;
     delLast := false |}.

(** [deleteheader :is "Subject" "I have a present for you"] and
    [deleteheader :count "ge" "Subject" "1"] *)
Definition deleteSubjectIs : CmdDeleteHeader :=
  {| delMatcher := {| comparator := DefaultComparator; match_ := MatchIs;
                      relational := RelUnset;
                      key := ["I have a present for you"] |};
     delFieldName := "Subject";
     delValuePatterns := ["I have a present for you"]; delIndex := 0;
     delLast := false |}.

Definition deleteSubjectCount : CmdDeleteHeader :=
  {| delMatcher := countOne; delFieldName := "Subject";
     delValuePatterns := ["1"]; delIndex := 0; delLast := false |}.

(** Journal entries: a deletion of the value ["b"] of [X-Test], and a
    deletion of the second value of [X-Test] from the end. *)
Definition deleteValueB : HeaderEdit :=
  {| Action := "delete"; FieldName := "X-Test"; Value := "b"; Last := false;
     Index := 0 |}.

Definition deleteSecondLast : HeaderEdit :=
  {| Action := "delete"; FieldName := "X-Test"; Value := EmptyString;
     Last := true; Index := 2 |}.

(** The matcher of [:is "someone@example.org"]. *)
Definition isSomeone : matcherTest :=
  {| comparator := DefaultComparator; match_ := MatchIs;
     relational := RelUnset; key := ["someone@example.org"] |}.

(** Stand-ins for the library functions of the address test: no comment is
    removed, and a value is the one address it holds. *)
Definition removeComments : string -> string := fun s => s.
Definition parseAddressList : string -> option (list string) :=
  fun s => Some [s].

(** A stand-in for package [time]: a time is a year, a month and a day, and
    the one date that parses is the one of the message below. *)
Definition timeLibrary : TimeLibrary :=
  {| Time := Z * Z * Z;
     Time_Year := fun t => fst (fst t);
     Time_Month := fun t => snd (fst t);
     Time_Day := fun t => snd t;
     Time_Hour := fun _ => 0;
     Time_Minute := fun _ => 0;
     Time_Second := fun _ => 0;
     Time_Weekday := fun _ => 0;
     Time_Format := fun _ _ => EmptyString;
     Time_In_FixedZone := fun t _ => t;
     Time_Local := fun t => t;
     time_Parse := fun _ _ => None;
     mail_ParseDate := fun value =>
       if String.eqb value "Tue, 1 Apr 1997 09:06:31 -0800"
       then Some (1997, 4, 1) else None |}.

(** A message with two [Date] headers, the second of them no date. *)
Definition datedMessage : Host.Message (list HeaderEdit) :=
  {| Host.HeaderGet := fun _ k =>
       if String.eqb (toLowerASCII k) "date"
       then (["Tue, 1 Apr 1997 09:06:31 -0800"; "yesterday"], None)
       else ([], None);
     Host.MessageSize := 606 |}.

Definition dated : RuntimeData :=
  NewRuntimeData 5 (envelope "from@test.com") datedMessage.

(** [date :count "ge" "date" "year" "2"] and [date :index 2 "date" "year"
    "1997"]. *)
Definition dateCount : DateTest :=
  {| dateMatcher := countGe; dateHeader := "date"; dateDatePart := "year";
     dateZone := EmptyString; dateOriginalZone := false; dateIndex := 0;
     dateLast := false |}.

Definition dateSecond : DateTest :=
  {| dateMatcher := {| comparator := DefaultComparator; match_ := MatchIs;
                       relational := RelUnset; key := ["1997"] |};
     dateHeader := "date"; dateDatePart := "year"; dateZone := EmptyString;
     dateOriginalZone := false; dateIndex := 2; dateLast := false |}.

End Sample.

(** ** The interpreter *)

Section Interp.

(** *** What lies outside the sources

    Go's Unicode tables and regexp engine, and the parts of package [interp]
    that the sources call but do not contain, are variables of the
    development: every theorem below holds whatever they are. *)

(** Membership in the range table [unicode.Digit], for runes above Latin-1. *)
Variable unicode_Digit : Z -> bool.

(** [strings.Map(unicode.ToLower, s)], the path [strings.ToLower] takes for a
    string that is not ASCII. *)
Variable unicode_ToLower_Map : string -> string.

(** [strings.EqualFold] and [strings.TrimSpace]. *)
Variable strings_EqualFold : string -> string -> bool.
Variable strings_TrimSpace : string -> string.

(** The methods [CompareString] and [CompareNumericValue] of [Relational]. *)
Variable CompareString : Relational -> string -> string -> bool.
Variable CompareNumericValue : Relational -> option Z -> option Z -> bool.

(** The glob matchers [matchOctet] and [matchUnicode]. *)
Variable matchOctet : string -> string -> bool -> bool * list string * option Err.
Variable matchUnicode : string -> string -> bool -> bool * list string * option Err.

(** Package [regexp] run under a deadline: [regexp.Compile] and the method
    [FindStringSubmatch] of a compiled pattern, each with the time budget it
    is given. *)
Variable Regexp : Type.
Variable regexp_Compile : Z -> string -> CompileOutcome Regexp.
Variable regexp_FindStringSubmatch : Z -> Regexp -> string -> SubmatchOutcome.

(** [expandVars], the expansion of variable references in a string, and the
    method [countMatches] of [matcherTest]. *)
Variable expandVars : RuntimeData -> string -> string.
Variable countMatches : matcherTest -> RuntimeData -> Z -> bool.

(** [expandVarsList] expands every string of a list. *)
Definition expandVarsList (d : RuntimeData) (l : list string) : list string :=
  map (expandVars d) l.

(** *** Package [unicode] and [strings] *)

Definition MaxLatin1 : Z := 0xFF.

(** [unicode.IsDigit] *)
Definition IsDigit (r : Z) : bool :=
  if r <=? MaxLatin1 then (0x30 <=? r) && (r <=? 0x39)
  else unicode_Digit r.

(** [strings.ToLower]: the ASCII path is the one of the library. *)
Definition strings_ToLower (s : string) : string :=
  if isASCII s then
    if negb (hasUpper s) then s else mapBytes lowerByte s
  else unicode_ToLower_Map s.

(** *** [numericValue] (match.go) *)

(** The loop over the runes: the index of the first rune that is no digit. *)
Fixpoint firstNonDigit (i : nat) (rs : list Z) : option nat :=
  match rs with
  | [] => None
  | r :: rs' => if negb (IsDigit r) then Some i else firstNonDigit (S i) rs'
  end.

Definition numericValue (s : string) : option Z :=
  if GoString.len s =? 0 then None else
  let runes := Utf8.runes s in
  match runes with
  | [] => None
  | r0 :: _ =>
    if negb (IsDigit r0) then None else
    let sl := match firstNonDigit 0 runes with
              | Some i => Utf8.string_of_runes (firstn i runes)
              | None => EmptyString
              end in
    let sl := if String.eqb sl EmptyString then s else sl in
    match Strconv.ParseUint sl with
    | (_, Some _) => None
    | (digit, None) => Some digit
    end
  end.

(** *** The safe regex wrapper (regex.go) *)

Definition CompileSafeRegex (pat : string) (lim : RegexLimits)
  : option (SafeRegexMatcher Regexp) * option Err :=
  if MaxPatternLength lim <? GoString.len pat then
    (None, Some (ErrRegexPatternTooLong (GoString.len pat) (MaxPatternLength lim)))
  else
    match regexp_Compile (MaxExecTime lim) pat with
    | Compiled re => (Some {| pattern := re; limits := lim |}, None)
    | CompileFailed => (None, Some ErrRegexCompile)
    | CompileDeadline => (None, Some ErrRegexCompileTimeout)
    end.

Definition FindSubmatch (m : SafeRegexMatcher Regexp) (input : string)
  : option (list string) * option Err :=
  if MaxInputLength (limits m) <? GoString.len input then
    (None, Some (ErrRegexInputTooLong (GoString.len input) (MaxInputLength (limits m))))
  else
    match regexp_FindStringSubmatch (MaxExecTime (limits m)) (pattern m) input with
    | Submatches matches => (matches, None)
    | SubmatchPanic => (None, Some ErrRegexPanic)
    | SubmatchDeadline => (None, Some ErrRegexTimeout)
    end.

(** [matchRegex] (match.go) *)
Definition matchRegex (pat value : string) : bool * list string * option Err :=
  match CompileSafeRegex pat DefaultRegexLimits with
  | (_, Some err) => (false, [], Some err)
  | (None, None) => (false, [], None)
  | (Some matcher, None) =>
    match FindSubmatch matcher value with
    | (_, Some err) => (false, [], Some err)
    | (None, None) => (false, [], None)
    | (Some matches, None) => (true, matches, None)
    end
  end.

(** *** [testString] (match.go)

    With [MatchCount] the code panics: the panic is rendered as [ErrPanic],
    which is no error value of the code: a caller that handles an error
    ([if err != nil]) does not handle it, and the model hands it on there
    (see [CmdDeleteHeader_Execute]).  A match-type or a comparator that is
    none of the constants falls through to the last line. *)
Definition testString (cmp : Comparator) (mt : Match) (rel : Relational)
    (value key : string) : bool * list string * option Err :=
  match cmp with
  | ComparatorOctet =>
    match mt with
    | MatchContains => (GoString.Contains value key, [], None)
    | MatchIs => (String.eqb value key, [], None)
    | MatchMatches => matchOctet key value false
    | MatchRegex => matchRegex key value
    | MatchValue => (CompareString rel value key, [], None)
    | MatchCount =>
      (false, [], Some (ErrPanic "testString should not be used with MatchCount"))
    | MatchUnset => (false, [], None)
    end
  | ComparatorASCIINumeric =>
    match mt with
    | MatchContains => (false, [], Some ErrComparatorMatchUnsupported)
    | MatchIs =>
      let lhsNum := numericValue value in
      let rhsNum := numericValue key in
      (CompareNumericValue RelEqual lhsNum rhsNum, [], None)
    | MatchMatches => (false, [], Some ErrComparatorMatchUnsupported)
    | MatchRegex => (false, [], Some ErrComparatorMatchUnsupported)
    | MatchValue =>
      let lhsNum := numericValue value in
      let rhsNum := numericValue key in
      (CompareNumericValue rel lhsNum rhsNum, [], None)
    | MatchCount =>
      (false, [], Some (ErrPanic "testString should not be used with MatchCount"))
    | MatchUnset => (false, [], None)
    end
  | ComparatorASCIICaseMap =>
    match mt with
    | MatchContains =>
      (GoString.Contains (toLowerASCII value) (toLowerASCII key), [], None)
    | MatchIs => (String.eqb (toLowerASCII value) (toLowerASCII key), [], None)
    | MatchMatches => matchOctet key value true
    | MatchRegex => matchRegex key (toLowerASCII value)
    | MatchValue =>
      (CompareString rel (toLowerASCII value) (toLowerASCII key), [], None)
    | MatchCount =>
      (false, [], Some (ErrPanic "testString should not be used with MatchCount"))
    | MatchUnset => (false, [], None)
    end
  | ComparatorUnicodeCaseMap =>
    match mt with
    | MatchContains =>
      (GoString.Contains (strings_ToLower value) (strings_ToLower key), [], None)
    | MatchIs => (strings_EqualFold value key, [], None)
    | MatchMatches => matchUnicode key value true
    | MatchRegex => matchRegex key (strings_ToLower value)
    | MatchValue =>
      (CompareString rel (toLowerASCII value) (toLowerASCII key), [], None)
    | MatchCount =>
      (false, [], Some (ErrPanic "testString should not be used with MatchCount"))
    | MatchUnset => (false, [], None)
    end
  | ComparatorUnset => (false, [], None)
  end.

(** *** Addresses (match.go) *)

(** [SubaddressSeparator], a package variable: ["+"] unless configured. *)
Variable SubaddressSeparator : string.

Definition split (addr : string) : string * string * option Err :=
  if strings_EqualFold addr "postmaster" then (addr, EmptyString, None) else
  let indx := GoString.LastIndexByte addr "@"%char in
  if indx =? -1 then (EmptyString, EmptyString, Some ErrAddressMissingAtSign) else
  let mailbox := GoString.slice_to addr indx in
  let domain := GoString.slice_from addr (indx + 1) in
  if String.eqb mailbox EmptyString
  then (EmptyString, EmptyString, Some ErrAddressEmptyLocalPart)
  else if String.eqb domain EmptyString
  then (EmptyString, EmptyString, Some ErrAddressEmptyDomain)
  else (mailbox, domain, None).

Definition splitSubaddress (localPart : string) : string * string :=
  let idx := GoString.Index localPart SubaddressSeparator in
  if idx =? -1 then (localPart, EmptyString)
  else (GoString.slice_to localPart idx,
        GoString.slice_from localPart (idx + GoString.len SubaddressSeparator)).

(** *** The matcher of a test *)

(** Modelled from the spec: the method [isCount] of [matcherTest] is not
    under src/; the match-type [count] is the one that aggregates. *)
Definition isCount (m : matcherTest) : bool :=
  bool_decide (match_ m = MatchCount).

(** The errors of a regex over its budget, the kind [MatchLimit] of the
    specification (§7): a pattern or an input over its length, and a
    compilation or a match that meets the deadline. *)
Definition isMatchLimit (err : Err) : bool :=
  match err with
  | ErrRegexPatternTooLong _ _ | ErrRegexInputTooLong _ _
  | ErrRegexCompileTimeout | ErrRegexTimeout => true
  | _ => false
  end.

(** Modelled from the spec: the method [tryMatch] of [matcherTest] is not
    under src/.  A test matches its value against the key list (§4.4): each
    key is expanded and handed with the value to [testString] under the
    matcher's comparator, match-type and relational; the first key that
    matches decides, and the captures of a successful [matches] or [regex]
    become the numbered match variables.  A [MatchLimit] of [testString] is
    absorbed by the matcher (§7): the key counts as one that does not match,
    and no error is returned for it.  Any other error of [testString] is
    returned with [false]. *)
Fixpoint tryMatch_keys (m : matcherTest) (d : RuntimeData) (source : string)
    (keys : list string) : bool * option Err * RuntimeData :=
  match keys with
  | [] => (false, None, d)
  | k :: keys' =>
    match testString (comparator m) (match_ m) (relational m) source
                     (expandVars d k) with
    | (_, _, Some err) =>
      if isMatchLimit err then tryMatch_keys m d source keys'
      else (false, Some err, d)
    | (true, matches, None) =>
      (true, None,
       match match_ m with
       | MatchMatches | MatchRegex => set_MatchVariables matches d
       | _ => d
       end)
    | (false, _, None) => tryMatch_keys m d source keys'
    end
  end.

Definition tryMatch (m : matcherTest) (d : RuntimeData) (source : string)
  : bool * option Err * RuntimeData :=
  tryMatch_keys m d source (key m).

(** [testAddress] (match.go) *)
Definition testAddress (d : RuntimeData) (matcher : matcherTest)
    (part : AddressPart) (address : string) : bool * option Err * RuntimeData :=
  let address := if String.eqb address "<>" then EmptyString else address in
  (* [None]: one of the early [return false, nil] *)
  let valueToCompare : option string :=
    if negb (String.eqb address EmptyString) then
      match part with
      | LocalPart =>
        match split address with
        | (_, _, Some _) => None
        | (localPart, _, None) => Some localPart
        end
      | Domain =>
        match split address with
        | (_, _, Some _) => None
        | (_, domain, None) => Some domain
        end
      | All => Some address
      | User =>
        match split address with
        | (_, _, Some _) => None
        | (localPart, _, None) => Some (fst (splitSubaddress localPart))
        end
      | Detail =>
        match split address with
        | (_, _, Some _) => None
        | (localPart, _, None) =>
          let detail := snd (splitSubaddress localPart) in
          if String.eqb detail EmptyString
             && negb (GoString.Contains localPart SubaddressSeparator)
          then None
          else Some detail
        end
      end
    else Some EmptyString in
  match valueToCompare with
  | None => (false, None, d)
  | Some v =>
    match tryMatch matcher d v with
    | (_, Some err, d') => (false, Some err, d')
    | (ok, None, d') => (ok, None, d')
    end
  end.

(** *** The tests (tests.go) *)

Section Composite.

Variable check : Test -> RuntimeData -> bool * option Err * RuntimeData.

(** The loop of [AllOfTest.Check]. *)
Fixpoint AllOfTest_Check (tests : list Test) (d : RuntimeData)
  : bool * option Err * RuntimeData :=
  match tests with
  | [] => (true, None, d)
  | t :: rest =>
    match check t d with
    | (_, Some err, d') => (false, Some err, d')
    | (false, None, d') => (false, None, d')
    | (true, None, d') => AllOfTest_Check rest d'
    end
  end.

(** The loop of [AnyOfTest.Check]. *)
Fixpoint AnyOfTest_Check (tests : list Test) (d : RuntimeData)
  : bool * option Err * RuntimeData :=
  match tests with
  | [] => (false, None, d)
  | t :: rest =>
    match check t d with
    | (_, Some err, d') => (false, Some err, d')
    | (true, None, d') => (true, None, d')
    | (false, None, d') => AnyOfTest_Check rest d'
    end
  end.

End Composite.

(** [ExistsTest.Check] *)
Fixpoint ExistsTest_Check (fields : list string) (d : RuntimeData)
  : bool * option Err :=
  match fields with
  | [] => (true, None)
  | field :: rest =>
    match Host.HeaderGet (Msg d) (HeaderEdits d) (expandVars d field) with
    | (_, Some err) => (false, Some err)
    | (values, None) =>
      if Z.of_nat (length values) =? 0 then (false, None)
      else ExistsTest_Check rest d
    end
  end.

(** The inner loop of [HeaderTest.Check], over the values of one header: a
    [return] of the test, or the runtime data and the entry count with which
    the outer loop goes on. *)
Fixpoint HeaderTest_values (m : matcherTest) (values : list string)
    (d : RuntimeData) (entryCount : Z)
  : (bool * option Err * RuntimeData) + (RuntimeData * Z) :=
  match values with
  | [] => inr (d, entryCount)
  | value :: rest =>
    if isCount m then HeaderTest_values m rest d (entryCount + 1)
    else
      match tryMatch m d value with
      | (_, Some err, d') => inl (false, Some err, d')
      | (true, None, d') => inl (true, None, d')
      | (false, None, d') => HeaderTest_values m rest d' entryCount
      end
  end.

(** The outer loop of [HeaderTest.Check], and what follows it. *)
Fixpoint HeaderTest_headers (m : matcherTest) (hdrs : list string)
    (d : RuntimeData) (entryCount : Z) : bool * option Err * RuntimeData :=
  match hdrs with
  | [] =>
    if isCount m then (countMatches m d entryCount, None, d)
    else (false, None, d)
  | hdr :: rest =>
    match Host.HeaderGet (Msg d) (HeaderEdits d) (expandVars d hdr) with
    | (_, Some err) => (false, Some err, d)
    | (values, None) =>
      match HeaderTest_values m values d entryCount with
      | inl r => r
      | inr (d', n) => HeaderTest_headers m rest d' n
      end
    end
  end.

Definition HeaderTest_Check (m : matcherTest) (hdrs : list string)
    (d : RuntimeData) : bool * option Err * RuntimeData :=
  HeaderTest_headers m hdrs d 0.

(** [SizeTest.Check] *)
Definition SizeTest_Check (size : Z) (over under : bool) (d : RuntimeData)
  : bool * option Err :=
  if over && (size <? Host.MessageSize (Msg d)) then (true, None)
  else if under && (Host.MessageSize (Msg d) <? size) then (true, None)
  else (false, None).

(** [Check], by the variant of the test. *)
Fixpoint Check (t : Test) (d : RuntimeData) {struct t}
  : bool * option Err * RuntimeData :=
  match t with
  | AllOfTest tests => AllOfTest_Check Check tests d
  | AnyOfTest tests => AnyOfTest_Check Check tests d
  | ExistsTest fields => (ExistsTest_Check fields d, d)
  | FalseTest => (false, None, d)
  | TrueTest => (true, None, d)
  | HeaderTest m hdrs => HeaderTest_Check m hdrs d
  | NotTest t' =>
    match Check t' d with
    | (_, Some err, d') => (false, Some err, d')
    | (ok, None, d') => (negb ok, None, d')
    end
  | SizeTest size over under => (SizeTest_Check size over under d, d)
  end.

(** *** editheader.go *)

Definition protectedHeaders : gset string :=
  {[ "received"; "auto-submitted" ]}.

Fixpoint validHeaderBytes (name : string) : bool :=
  match name with
  | EmptyString => true
  | String c rest =>
    let b := GoString.byte_val c in
    if (b <? 33) || (126 <? b) || (b =? 58) then false
    else validHeaderBytes rest
  end.

Definition isValidHeaderName (name : string) : bool :=
  if GoString.len name =? 0 then false else validHeaderBytes name.

Definition isProtectedHeader (name : string) : bool :=
  bool_decide (strings_ToLower name ∈ protectedHeaders).

Definition CmdAddHeader_Execute (c : CmdAddHeader) (d : RuntimeData)
  : option Err * RuntimeData :=
  let fieldName := expandVars d (addFieldName c) in
  let value := expandVars d (addValue c) in
  if negb (isValidHeaderName fieldName) then (None, d)
  else
    (None,
     set_HeaderEdits
       (HeaderEdits d ++
        [{| Action := "add"; FieldName := fieldName; Value := value;
            Last := addLast c; Index := 0 |}]) d).

(** Deleting by value: the first occurrence goes. *)
Fixpoint deleteFirst (v : string) (l : list string) : list string :=
  match l with
  | [] => []
  | x :: l' => if String.eqb x v then l' else x :: deleteFirst v l'
  end.

(** One turn of the loop of [applyHeaderEditsToValues]. *)
Definition applyHeaderEdit (fieldName : string) (result : list string)
    (edit : HeaderEdit) : list string :=
  if negb (strings_EqualFold (FieldName edit) fieldName) then result
  else if String.eqb (Action edit) "add" then
    if Last edit then result ++ [Value edit] else Value edit :: result
  else if String.eqb (Action edit) "delete" then
    if 0 <? Index edit then
      let idx := if Last edit then Z.of_nat (length result) - Index edit
                 else Index edit - 1 in
      if (0 <=? idx) && (idx <? Z.of_nat (length result))
      then firstn (Z.to_nat idx) result ++ skipn (Z.to_nat (idx + 1)) result
      else result
    else if negb (String.eqb (Value edit) EmptyString)
    then deleteFirst (Value edit) result
    else []
  else result.

Definition applyHeaderEditsToValues (d : RuntimeData) (fieldName : string)
    (values : list string) : list string :=
  fold_left (applyHeaderEdit fieldName) (HeaderEdits d) values.

(** [EditableMessage]: a message view that replays the journal. *)
Definition EditableMessage (Original : Host.Message (list HeaderEdit))
  : Host.Message (list HeaderEdit) :=
  {| Host.HeaderGet := fun journal k =>
       match Host.HeaderGet Original journal k with
       | (_, Some err) => ([], Some err)
       | (values, None) =>
         (fold_left (applyHeaderEdit k) journal values, None)
       end;
     Host.MessageSize := Host.MessageSize Original |}.

(** The loop of [valueMatchesPatterns]. *)
Fixpoint valueMatchesPatterns_loop (c : CmdDeleteHeader) (d : RuntimeData)
    (value : string) (patterns : list string)
  : bool * option Err * RuntimeData :=
  match patterns with
  | [] => (false, None, d)
  | pat :: rest =>
    match tryMatch (delMatcher c) d value with
    | (_, Some err, d') => (false, Some err, d')
    | (true, None, d') => (true, None, d')
    | (false, None, d') =>
      if bool_decide (match_ (delMatcher c) = MatchUnset) then
        match testString (comparator (delMatcher c)) MatchIs RelUnset value pat with
        | (_, _, Some err) => (false, Some err, d')
        | (true, _, None) => (true, None, d')
        | (false, _, None) => valueMatchesPatterns_loop c d' value rest
        end
      else valueMatchesPatterns_loop c d' value rest
    end
  end.

Definition valueMatchesPatterns (c : CmdDeleteHeader) (d : RuntimeData)
    (value : string) (patterns : list string)
  : bool * option Err * RuntimeData :=
  valueMatchesPatterns_loop c d (strings_TrimSpace value) patterns.

(** The last loop of [CmdDeleteHeader.Execute]: every occurrence is checked,
    and an error of the check is skipped ([continue]).  A panic is no error:
    it ends the loop and the command. *)
Fixpoint deleteMatching (c : CmdDeleteHeader) (fieldName : string)
    (valuePatterns values : list string) (d : RuntimeData)
  : option Err * RuntimeData :=
  match values with
  | [] => (None, d)
  | val :: rest =>
    match valueMatchesPatterns c d val valuePatterns with
    | (_, Some (ErrPanic msg), d') => (Some (ErrPanic msg), d')
    | (_, Some _, d') => deleteMatching c fieldName valuePatterns rest d'
    | (true, None, d') =>
      deleteMatching c fieldName valuePatterns rest
        (set_HeaderEdits
           (HeaderEdits d' ++
            [{| Action := "delete"; FieldName := fieldName; Value := val;
                Last := false; Index := 0 |}]) d')
    | (false, None, d') => deleteMatching c fieldName valuePatterns rest d'
    end
  end.

(** [CmdDeleteHeader.Execute].  The command returns [nil] on every path; the
    one result that is not [None] is the panic of [testString] under
    [:count], which passes through [if err != nil || !matches]. *)
Definition CmdDeleteHeader_Execute (c : CmdDeleteHeader) (d : RuntimeData)
  : option Err * RuntimeData :=
  let fieldName := expandVars d (delFieldName c) in
  if negb (isValidHeaderName fieldName) then (None, d)
  else if isProtectedHeader fieldName then (None, d)
  else
    let valuePatterns := expandVarsList d (delValuePatterns c) in
    if Z.of_nat (length valuePatterns) =? 0 then
      (None,
       set_HeaderEdits
         (HeaderEdits d ++
          [{| Action := "delete"; FieldName := fieldName; Value := EmptyString;
              Last := delLast c; Index := delIndex c |}]) d)
    else
      match Host.HeaderGet (Msg d) (HeaderEdits d) fieldName with
      | (_, Some _) => (None, d)
      | (values, None) =>
        let values := applyHeaderEditsToValues d fieldName values in
        if Z.of_nat (length values) =? 0 then (None, d)
        else if 0 <? delIndex c then
          let idx := if delLast c then Z.of_nat (length values) - delIndex c
                     else delIndex c - 1 in
          if (idx <? 0) || (Z.of_nat (length values) <=? idx) then (None, d)
          else
            let v := nth (Z.to_nat idx) values EmptyString in
            match valueMatchesPatterns c d v valuePatterns with
            | (_, Some (ErrPanic msg), d') => (Some (ErrPanic msg), d')
            | (_, Some _, d') => (None, d')
            | (false, None, d') => (None, d')
            | (true, None, d') =>
              (None,
               set_HeaderEdits
                 (HeaderEdits d' ++
                  [{| Action := "delete"; FieldName := fieldName; Value := v;
                      Last := delLast c; Index := delIndex c |}]) d')
            end
        else deleteMatching c fieldName valuePatterns values d
      end.

(** *** vacation.go *)

Definition CmdVacation_Execute (c : CmdVacation) (d : RuntimeData)
  : option Err * RuntimeData :=
  let subject := expandVars d (vacSubject c) in
  let subject := if String.eqb subject EmptyString then "Automated reply"
                 else subject in
  let from := expandVars d (vacFrom c) in
  let reason := expandVars d (vacReason c) in
  let handle := expandVars d (vacHandle c) in
  let addresses := expandVarsList d (vacAddresses c) in
  let sender := Host.EnvelopeFrom (Envelope d) in
  if String.eqb sender EmptyString then (Some ErrVacationNoSender, d)
  else if existsb (fun addr => String.eqb addr sender) addresses then (None, d)
  else
    let responses := match VacationResponses d with
                     | None => ∅
                     | Some m => m
                     end in
    (None,
     set_ImplicitKeep false
       (set_VacationResponses
          (Some (<[ sender :=
                    {| From := from; Subject := subject; Body := reason;
                       IsMime := vacMime c; Handle := handle;
                       Days := vacDays c |} ]> responses)) d)).

(** The tagged arguments of a [vacation] command that [LoadSpec] binds.  The
    binder itself is not among the sources: a command it accepts is given by
    the tags it carries, each with the value its callback receives. *)
Inductive VacationTag : Type :=
| TagDays (val : Z)
| TagSubject (val : string)
| TagFrom (val : string)
| TagAddresses (val : list string)
| TagMime
| TagHandle (val : string).

(** The callbacks of the spec of [loadVacation]. *)
Definition bindVacationTag (cmd : CmdVacation) (t : VacationTag) : CmdVacation :=
  match t with
  | TagDays val =>
    {| vacDays := val; vacSubject := vacSubject cmd; vacFrom := vacFrom cmd;
       vacAddresses := vacAddresses cmd; vacMime := vacMime cmd;
       vacHandle := vacHandle cmd; vacReason := vacReason cmd |}
  | TagSubject val =>
    {| vacDays := vacDays cmd; vacSubject := val; vacFrom := vacFrom cmd;
       vacAddresses := vacAddresses cmd; vacMime := vacMime cmd;
       vacHandle := vacHandle cmd; vacReason := vacReason cmd |}
  | TagFrom val =>
    {| vacDays := vacDays cmd; vacSubject := vacSubject cmd; vacFrom := val;
       vacAddresses := vacAddresses cmd; vacMime := vacMime cmd;
       vacHandle := vacHandle cmd; vacReason := vacReason cmd |}
  | TagAddresses val =>
    {| vacDays := vacDays cmd; vacSubject := vacSubject cmd; vacFrom := vacFrom cmd;
       vacAddresses := val; vacMime := vacMime cmd;
       vacHandle := vacHandle cmd; vacReason := vacReason cmd |}
  | TagMime =>
    {| vacDays := vacDays cmd; vacSubject := vacSubject cmd; vacFrom := vacFrom cmd;
       vacAddresses := vacAddresses cmd; vacMime := true;
       vacHandle := vacHandle cmd; vacReason := vacReason cmd |}
  | TagHandle val =>
    {| vacDays := vacDays cmd; vacSubject := vacSubject cmd; vacFrom := vacFrom cmd;
       vacAddresses := vacAddresses cmd; vacMime := vacMime cmd;
       vacHandle := val; vacReason := vacReason cmd |}
  end.

(** [loadVacation] (load_vacation.go): [requiresVacation] is
    [s.RequiresExtension("vacation")], [tags] the tags that [LoadSpec] has
    bound, in their order, and [reason] the positional argument.  The
    function is the one on arguments that [LoadSpec], which is not under
    src/, accepts; on the others the code returns the error of
    [LoadSpec]. *)
Definition loadVacation (requiresVacation : bool) (tags : list VacationTag)
    (reason : string) : option CmdVacation * option Err :=
  if negb requiresVacation then (None, Some (ErrMissingRequire "vacation"))
  else
    let cmd := {| vacDays := 7; vacSubject := EmptyString; vacFrom := EmptyString;
                  vacAddresses := []; vacMime := false; vacHandle := EmptyString;
                  vacReason := EmptyString |} in
    let cmd := fold_left bindVacationTag tags cmd in
    (Some {| vacDays := vacDays cmd; vacSubject := vacSubject cmd;
             vacFrom := vacFrom cmd; vacAddresses := vacAddresses cmd;
             vacMime := vacMime cmd; vacHandle := vacHandle cmd;
             vacReason := reason |}, None).

(** *** The delivery commands and the control commands

    The files that hold them are not among the sources. *)

(** Modelled from the spec: [keep] (§4.6) sets [Keep] and does not reset
    [ImplicitKeep]. *)
Definition CmdKeep_Execute (d : RuntimeData) : option Err * RuntimeData :=
  (None, set_Keep true d).

(** Modelled from the spec: [discard] (§4.6) clears [ImplicitKeep]; no action
    is recorded. *)
Definition CmdDiscard_Execute (d : RuntimeData) : option Err * RuntimeData :=
  (None, set_ImplicitKeep false d).

(** Modelled from the spec: [fileinto] (§4.6) appends the mailbox to
    [Mailboxes] and, unless [:copy] is given, clears [ImplicitKeep]. *)
Definition CmdFileInto_Execute (mailbox : string) (copy : bool) (d : RuntimeData)
  : option Err * RuntimeData :=
  let d := set_Mailboxes (Mailboxes d ++ [expandVars d mailbox]) d in
  (None, if copy then d else set_ImplicitKeep false d).

(** Modelled from the spec: [redirect] (§4.6) appends the address to
    [RedirectAddr], which holds at most [MaxRedirects] addresses, and, unless
    [:copy] is given, clears [ImplicitKeep]. *)
Definition CmdRedirect_Execute (addr : string) (copy : bool) (d : RuntimeData)
  : option Err * RuntimeData :=
  if MaxRedirects d <=? Z.of_nat (length (RedirectAddr d))
  then (Some ErrTooManyRedirects, d)
  else
    let d := set_RedirectAddr (RedirectAddr d ++ [addr]) d in
    (None, if copy then d else set_ImplicitKeep false d).

Section Blocks.

Variable exec : Cmd -> RuntimeData -> option Err * RuntimeData.

(** Modelled from the spec: the commands of a block run in the order of the
    script (§4.8, §5); an error ends the block. *)
Fixpoint execBlock (cmds : list Cmd) (d : RuntimeData) : option Err * RuntimeData :=
  match cmds with
  | [] => (None, d)
  | c :: rest =>
    match exec c d with
    | (Some err, d') => (Some err, d')
    | (None, d') => execBlock rest d'
    end
  end.

End Blocks.

(** [Execute], by the variant of the command.

    Modelled from the spec, for the variants whose file is not among the
    sources: [stop] (§4.6) ends the evaluation through a sentinel error; of
    an [if] chain the first branch whose condition holds runs, the rest is
    skipped, and an error of the condition is the error of the command. *)
Fixpoint Execute (c : Cmd) (d : RuntimeData) {struct c} : option Err * RuntimeData :=
  match c with
  | Stop => (Some ErrStop, d)
  | KeepCmd => CmdKeep_Execute d
  | Discard => CmdDiscard_Execute d
  | FileInto mailbox copy => CmdFileInto_Execute mailbox copy d
  | Redirect addr copy => CmdRedirect_Execute addr copy d
  | AddHeader c' => CmdAddHeader_Execute c' d
  | DeleteHeader c' => CmdDeleteHeader_Execute c' d
  | Vacation c' => CmdVacation_Execute c' d
  | If t block rest =>
    match Check t d with
    | (_, Some err, d') => (Some err, d')
    | (true, None, d') => execBlock Execute block d'
    | (false, None, d') => execBlock Execute rest d'
    end
  end.

(** Modelled from the spec: [Script.Execute] (§4.8) runs the commands of the
    script in order; the sentinel of [stop] is never surfaced to the host
    (§7). *)
Definition Script_Execute (cmds : list Cmd) (d : RuntimeData)
  : option Err * RuntimeData :=
  match execBlock Execute cmds d with
  | (Some ErrStop, d') => (None, d')
  | r => r
  end.

(** *** The commands an evaluation executes

    The log of an evaluation: every command whose [Execute] ran, in order,
    with the runtime data it ran on.  The log is no part of the program; a
    statement about the actions executed during an evaluation is made on
    it. *)

Section Log.

Variable log : Cmd -> RuntimeData -> list (Cmd * RuntimeData).

Fixpoint executedBlock (cmds : list Cmd) (d : RuntimeData)
  : list (Cmd * RuntimeData) :=
  match cmds with
  | [] => []
  | c :: rest =>
    log c d ++
    match Execute c d with
    | (Some _, _) => []
    | (None, d') => executedBlock rest d'
    end
  end.

End Log.

Fixpoint executed (c : Cmd) (d : RuntimeData) {struct c} : list (Cmd * RuntimeData) :=
  (c, d) ::
  match c with
  | If t block rest =>
    match Check t d with
    | (_, Some _, _) => []
    | (true, None, d') => executedBlock executed block d'
    | (false, None, d') => executedBlock executed rest d'
    end
  | _ => []
  end.

Definition executedScript (cmds : list Cmd) (d : RuntimeData)
  : list (Cmd * RuntimeData) :=
  executedBlock executed cmds d.

(** A command that, run on [d], takes the implicit keep away: [discard], a
    [fileinto] or [redirect] without [:copy], and a [vacation] whose sender
    is none of the addresses of its [:addresses]. *)
Definition clearsImplicitKeep (e : Cmd * RuntimeData) : bool :=
  match e with
  | (Discard, _) => true
  | (FileInto _ copy, _) => negb copy
  | (Redirect _ copy, _) => negb copy
  | (Vacation c, d) =>
    negb (existsb (fun addr => String.eqb addr (Host.EnvelopeFrom (Envelope d)))
                  (expandVarsList d (vacAddresses c)))
  | _ => false
  end.

(** A delivery action without [:copy], as the specification names them:
    [discard], [fileinto], [redirect] or [vacation]. *)
Definition isNonCopyDelivery (e : Cmd * RuntimeData) : bool :=
  match e with
  | (Discard, _) => true
  | (FileInto _ copy, _) => negb copy
  | (Redirect _ copy, _) => negb copy
  | (Vacation _, _) => true
  | _ => false
  end.

(** *** mailbox.go *)

(** [MailboxExistsTest.Check].  [d.Policy.(MailboxChecker)] is the argument
    [policy]: the method [MailboxExists] of the policy of the evaluation
    when the policy implements the interface, nothing when it does not. *)
Fixpoint MailboxExistsTest_Check (policy : option (string -> bool * option Err))
    (mailboxes : list string) (d : RuntimeData) : bool * option Err :=
  match mailboxes with
  | [] => (true, None)
  | mailbox :: rest =>
    let mailbox := expandVars d mailbox in
    match policy with
    | Some MailboxExists =>
      match MailboxExists mailbox with
      | (_, Some err) => (false, Some err)
      | (false, None) => (false, None)
      | (true, None) => MailboxExistsTest_Check policy rest d
      end
    | None => MailboxExistsTest_Check policy rest d
    end
  end.

(** *** [toLowerASCII] (match.go), loop by loop

    The second loop of [toLowerASCII] as it is written: [b] is the content
    of the builder, [pos] the start of the bytes not yet written, [i] the
    index of the byte at hand and [rest] the bytes of [s] from [i] on.  The
    loop returns the builder and [pos]. *)
Fixpoint toLowerASCII_loop (s rest : string) (i pos : Z) (b : string)
  : string * Z :=
  match rest with
  | EmptyString => (b, pos)
  | String c rest' =>
    if isUpperByte (GoString.byte_val c) then
      let c := GoString.byte_of ((GoString.byte_val c + (0x61 - 0x41)) mod 256) in
      let b := if pos <? i
               then b +:+ String.substring (Z.to_nat pos) (Z.to_nat i - Z.to_nat pos) s
               else b in
      toLowerASCII_loop s rest' (i + 1) (i + 1) (b +:+ String c EmptyString)
    else toLowerASCII_loop s rest' (i + 1) pos b
  end.

Definition toLowerASCII_builder (s : string) : string :=
  if negb (hasUpper s) then s
  else
    let (b, pos) := toLowerASCII_loop s s 0 0 EmptyString in
    if pos <? GoString.len s then b +:+ GoString.slice_from s pos else b.

(** *** Envelope addresses (the test suite of Dovecot) *)

(** The loop of [parseEnvelopeAddress] over the hosts of a source route. *)
Fixpoint validateHosts (hosts : list string) : option EnvelopeErr :=
  match hosts with
  | [] => None
  | host :: rest =>
    let host := strings_TrimSpace host in
    if negb (GoString.HasPrefix host "@") || (GoString.len host <? 2)
    then Some (ErrSourceRouteHost host)
    else if negb (GoStrings.CountByte host "@" =? 1)
    then Some (ErrSourceRouteHostFormat host)
    else
      let hostName := GoString.slice_from host 1 in
      if String.eqb hostName EmptyString
         || GoString.Contains hostName ".."
         || GoString.HasPrefix hostName "."
         || GoStrings.HasSuffix hostName "."
      then Some (ErrSourceRouteHostname hostName)
      else validateHosts rest
  end.

Definition parseEnvelopeAddress (addr : string) : string * option EnvelopeErr :=
  if String.eqb addr EmptyString then (EmptyString, None)
  else if String.eqb addr "<>" then (EmptyString, None)
  else if negb (GoString.HasPrefix addr "<") || negb (GoStrings.HasSuffix addr ">")
  then
    if negb (GoString.Contains addr "@") && negb (String.eqb addr "MAILER-DAEMON")
    then (EmptyString, Some (ErrEnvelopeSyntax addr))
    else if GoStrings.HasSuffix addr "@" && negb (String.eqb addr "MAILER-DAEMON@")
    then (EmptyString, Some ErrEnvelopeMissingDomain)
    else if GoString.HasPrefix addr "@"
    then (EmptyString, Some ErrEnvelopeMissingLocalPart)
    else (addr, None)
  else
    let inner := GoStrings.slice addr 1 (GoString.len addr - 1) in
    if GoString.Contains inner ":" then
      match GoStrings.SplitN2 inner ":" with
      | [sourceRoute; actualAddr] =>
        if negb (GoString.HasPrefix sourceRoute "@")
        then (EmptyString, Some ErrSourceRouteStart)
        else if GoStrings.CountByte sourceRoute "," + 1
                <? GoStrings.CountByte sourceRoute "@"
        then (EmptyString, Some ErrSourceRouteHostList)
        else
          match validateHosts (GoStrings.SplitByte sourceRoute ",") with
          | Some err => (EmptyString, Some err)
          | None => (actualAddr, None)
          end
      | _ => (EmptyString, Some ErrSourceRouteSyntax)
      end
    else if String.eqb inner "MAILER-DAEMON" then (inner, None)
    else if negb (GoStrings.CountByte inner "@" =? 1) then
      if GoStrings.CountByte inner "@" =? 0
      then (EmptyString, Some ErrEnvelopeMissingAtSign)
      else (EmptyString, Some ErrEnvelopeMultipleAtSigns)
    else
      match GoStrings.SplitN2 inner "@" with
      | [local; domain] =>
        if String.eqb local EmptyString || String.eqb domain EmptyString
        then (EmptyString, Some ErrEnvelopeEmptyPart)
        else (inner, None)
      | _ => (EmptyString, Some ErrEnvelopeEmptyPart)
      end.

(** *** [EnvelopeTest.Check] (tests.go) *)

(** The value of the envelope a field names; nothing for a field that is
    none of [from], [to] and [auth]. *)
Definition envelopeValue (d : RuntimeData) (fieldName : string) : option string :=
  if String.eqb fieldName "from" then Some (Host.EnvelopeFrom (Envelope d))
  else if String.eqb fieldName "to" then Some (Host.EnvelopeTo (Envelope d))
  else if String.eqb fieldName "auth" then Some (Host.AuthUsername (Envelope d))
  else None.

(** The loop of [EnvelopeTest.Check], and what follows it. *)
Fixpoint EnvelopeTest_fields (m : matcherTest) (part : AddressPart)
    (fields : list string) (d : RuntimeData) (entryCount : Z)
  : bool * option EnvelopeTestErr * RuntimeData :=
  match fields with
  | [] =>
    if isCount m then (countMatches m d entryCount, None, d)
    else (false, None, d)
  | field :: rest =>
    match envelopeValue d (strings_ToLower (expandVars d field)) with
    | None => (false, Some (ErrUnsupportedEnvelopePart field), d)
    | Some value =>
      let fieldName := strings_ToLower (expandVars d field) in
      if negb (String.eqb value EmptyString)
         && (String.eqb fieldName "from" || String.eqb fieldName "to")
         && bool_decide (snd (parseEnvelopeAddress value) <> None)
      then EnvelopeTest_fields m part rest d entryCount
      else if isCount m then
        EnvelopeTest_fields m part rest d
          (if negb (String.eqb value EmptyString) then entryCount + 1
           else entryCount)
      else
        match testAddress d m part value with
        | (_, Some err, d') => (false, Some (ErrEnvelopeMatcher err), d')
        | (true, None, d') => (true, None, d')
        | (false, None, d') => EnvelopeTest_fields m part rest d' entryCount
        end
    end
  end.

Definition EnvelopeTest_Check (m : matcherTest) (part : AddressPart)
    (fields : list string) (d : RuntimeData)
  : bool * option EnvelopeTestErr * RuntimeData :=
  EnvelopeTest_fields m part fields d 0.

(** *** [AddressTest.Check] (tests.go) *)

Definition allowedAddrHeaders : gset string :=
  {[ "from"; "to"; "cc"; "bcc"; "sender"; "resent-from"; "resent-to";
     "reply-to"; "resent-reply-to"; "resent-sender"; "resent-cc"; "resent-bcc";
     "for-approval"; "for-handling"; "for-comment"; "apparently-to";
     "errors-to"; "delivered-to"; "return-receipt-to"; "x-admin";
     "read-receipt-to"; "x-confirm-reading-to"; "return-receipt-requested";
     "registered-mail-reply-requested-by"; "mail-followup-to"; "mail-reply-to";
     "abuse-reports-to"; "x-complaints-to"; "x-report-abuse-to"; "x-beenthere";
     "x-original-from"; "x-original-to" ]}.

(** A turn of a loop of [AddressTest.Check]: a [return] of the test, or the
    runtime data and the entry count with which the loop goes on. *)
Definition AddressTurn : Type :=
  (bool * option Err * RuntimeData) + (RuntimeData * Z).

Section AddressTestLibrary.

(** [commentRegex.ReplaceAllString(addr, EmptyString)], the removal of the text in
    parentheses by package [regexp], and [mail.ParseAddressList], which
    answers the addresses of a header value or fails. *)
Variable commentRegex_remove : string -> string.
Variable mail_ParseAddressList : string -> option (list string).

Definition stripRFC2822Comments (addr : string) : string :=
  strings_TrimSpace (commentRegex_remove addr).

(** The match against one literal, where the code has no parsed address:
    nothing in count mode. *)
Definition AddressTest_literal (m : matcherTest) (part : AddressPart)
    (d : RuntimeData) (entryCount : Z) (literal : string) : AddressTurn :=
  if isCount m then inr (d, entryCount)
  else
    match testAddress d m part literal with
    | (_, Some err, d') => inl (false, Some err, d')
    | (true, None, d') => inl (true, None, d')
    | (false, None, d') => inr (d', entryCount)
    end.

(** The loop over the addresses of one value. *)
Fixpoint AddressTest_addrs (m : matcherTest) (part : AddressPart)
    (addrList : list string) (d : RuntimeData) (entryCount : Z) : AddressTurn :=
  match addrList with
  | [] => inr (d, entryCount)
  | addr :: rest =>
    if isCount m then AddressTest_addrs m part rest d (entryCount + 1)
    else
      match testAddress d m part addr with
      | (_, Some err, d') => inl (false, Some err, d')
      | (true, None, d') => inl (true, None, d')
      | (false, None, d') => AddressTest_addrs m part rest d' entryCount
      end
  end.

(** The loop over the values of one header. *)
Fixpoint AddressTest_values (m : matcherTest) (part : AddressPart)
    (values : list string) (d : RuntimeData) (entryCount : Z) : AddressTurn :=
  match values with
  | [] => inr (d, entryCount)
  | value :: rest =>
    let cleanValue := stripRFC2822Comments value in
    let trimmed := strings_TrimSpace cleanValue in
    let hasBareAngleBrackets :=
      GoString.HasPrefix trimmed "<" && GoStrings.HasSuffix trimmed ">"
      && (GoStrings.CountByte trimmed "<" =? 1)
      && (GoStrings.CountByte trimmed ">" =? 1) in
    let turn :=
      if hasBareAngleBrackets
      then AddressTest_literal m part d entryCount cleanValue
      else
        match mail_ParseAddressList cleanValue with
        | None => AddressTest_literal m part d entryCount cleanValue
        | Some [] => AddressTest_literal m part d entryCount EmptyString
        | Some addrList => AddressTest_addrs m part addrList d entryCount
        end in
    match turn with
    | inl r => inl r
    | inr (d', n) => AddressTest_values m part rest d' n
    end
  end.

(** The loop over the headers, and what follows it. *)
Fixpoint AddressTest_headers (m : matcherTest) (part : AddressPart)
    (hdrs : list string) (d : RuntimeData) (entryCount : Z)
  : bool * option Err * RuntimeData :=
  match hdrs with
  | [] =>
    if isCount m then (countMatches m d entryCount, None, d)
    else (false, None, d)
  | hdr :: rest =>
    let hdr := expandVars d (strings_ToLower hdr) in
    if negb (bool_decide (hdr ∈ allowedAddrHeaders))
    then AddressTest_headers m part rest d entryCount
    else
      match Host.HeaderGet (Msg d) (HeaderEdits d) hdr with
      | (_, Some err) => (false, Some err, d)
      | (values, None) =>
        let turn :=
          if Z.of_nat (length values) =? 0
          then AddressTest_literal m part d entryCount EmptyString
          else AddressTest_values m part values d entryCount in
        match turn with
        | inl r => r
        | inr (d', n) => AddressTest_headers m part rest d' n
        end
      end
  end.

Definition AddressTest_Check (m : matcherTest) (part : AddressPart)
    (hdrs : list string) (d : RuntimeData) : bool * option Err * RuntimeData :=
  AddressTest_headers m part hdrs d 0.

End AddressTestLibrary.

(** *** The date test (date.go) *)

Section DateTestCheck.

Variable L : TimeLibrary.

(** [parseDateHeader]: a time, or nothing where the code returns an
    error. *)
Definition parseDateHeader (value : string) : option (Time L) :=
  let value := strings_TrimSpace value in
  if String.eqb value EmptyString then None
  else
    match mail_ParseDate L value with
    | Some t => Some t
    | None => parseDateFormats L dateFormats value
    end.

(** The loop of [DateTest.Check] under [:count]. *)
Fixpoint countValidDates (values : list string) (validCount : Z) : Z :=
  match values with
  | [] => validCount
  | value :: rest =>
    countValidDates rest
      (match parseDateHeader value with
       | Some _ => validCount + 1
       | None => validCount
       end)
  end.

(** [DateTest.Check] *)
Definition DateTest_Check (c : DateTest) (d : RuntimeData)
  : bool * option DateTestErr * RuntimeData :=
  let header := expandVars d (dateHeader c) in
  match Host.HeaderGet (Msg d) (HeaderEdits d) header with
  | (_, Some err) => (false, Some (ErrDateTest err), d)
  | (values, None) =>
    if isCount (dateMatcher c)
    then (countMatches (dateMatcher c) d (countValidDates values 0), None, d)
    else if Z.of_nat (length values) =? 0 then (false, None, d)
    else
      let selected : option string :=
        if 0 <? dateIndex c then
          let idx := if dateLast c
                     then Z.of_nat (length values) - dateIndex c
                     else dateIndex c - 1 in
          if (idx <? 0) || (Z.of_nat (length values) <=? idx) then None
          else Some (nth (Z.to_nat idx) values EmptyString)
        else Some (nth 0 values EmptyString) in
      match selected with
      | None => (false, None, d)
      | Some value =>
        match parseDateHeader value with
        | None => (false, None, d)
        | Some t =>
          let t := applyZone L c t in
          let datePart := strings_ToLower (expandVars d (dateDatePart c)) in
          match extractDatePart L t datePart with
          | (_, Some err) => (false, Some err, d)
          | (partValue, None) =>
            match tryMatch (dateMatcher c) d partValue with
            | (ok, err, d') => (ok, option_map ErrDateTest err, d')
            end
          end
        end
      end
  end.

End DateTestCheck.

(** *** The terms of the statements *)

(** A header has a value in the message view: the view answers without error
    and with at least one value. *)
Definition headerHasValue (d : RuntimeData) (field : string) : bool :=
  match Host.HeaderGet (Msg d) (HeaderEdits d) (expandVars d field) with
  | (_ :: _, None) => true
  | _ => false
  end.

(** The response [vacation] records for the command [c] run on [d]. *)
Definition vacationResponse (c : CmdVacation) (d : RuntimeData) : VacationResponse :=
  {| From := expandVars d (vacFrom c);
     Subject := if String.eqb (expandVars d (vacSubject c)) EmptyString
                then "Automated reply" else expandVars d (vacSubject c);
     Body := expandVars d (vacReason c);
     IsMime := vacMime c;
     Handle := expandVars d (vacHandle c);
     Days := vacDays c |}.

(** The responses recorded so far; the nil map holds none. *)
Definition responsesOf (d : RuntimeData) : gmap string VacationResponse :=
  match VacationResponses d with
  | None => ∅
  | Some m => m
  end.

(** The leading run of decimal digits of a string: the runes up to the first
    one that [unicode.IsDigit] rejects. *)
Fixpoint takeDigits (rs : list Z) : list Z :=
  match rs with
  | [] => []
  | r :: rs' => if IsDigit r then r :: takeDigits rs' else []
  end.

Definition leadingDigits (s : string) : list Z := takeDigits (Utf8.runes s).

(** The number a run of digits denotes to [numericValue]: none for the empty
    run, for a run with a digit outside ASCII, and for a number that does not
    fit 64 bits. *)
Definition digitsValue (run : list Z) : option Z :=
  match run with
  | [] => None
  | _ :: _ =>
    if forallb Strconv.isDigitByte run && (Strconv.decimal run <? 2 ^ 64)
    then Some (Strconv.decimal run)
    else None
  end.

(** The commands of a log that leave the implicit keep in place. *)
Definition noneClears (l : list (Cmd * RuntimeData)) : bool :=
  forallb (fun e => negb (clearsImplicitKeep e)) l.

(** An evaluation that ends without error or with the sentinel of [stop]. *)
Definition completes (r : option Err) : Prop := r = None \/ r = Some ErrStop.

(** What a command that completes does to [ImplicitKeep]. *)
Definition keepsCount (c : Cmd) : Prop :=
  forall d r d', Execute c d = (r, d') -> completes r ->
    ImplicitKeep d' = ImplicitKeep d && noneClears (executed c d).

(** The number of values the message view holds for the headers of a list,
    each name expanded. *)
Definition headerValueCount (d : RuntimeData) (hdrs : list string) : Z :=
  fold_right
    (fun hdr n =>
       Z.of_nat (length (fst (Host.HeaderGet (Msg d) (HeaderEdits d)
                                (expandVars d hdr)))) + n)
    0 hdrs.

(** The message view answers for every header of a list. *)
Definition headersReadable (d : RuntimeData) (hdrs : list string) : Prop :=
  Forall (fun hdr =>
            snd (Host.HeaderGet (Msg d) (HeaderEdits d) (expandVars d hdr)) = None)
         hdrs.

(** The index [:index] and [:last] select among [n] values, counted from 0:
    from the front, or from the end. *)
Definition selectedIndex (index : Z) (last : bool) (n : Z) : Z :=
  if last then n - index else index - 1.

(** The byte [c] does not occur in [s]. *)
Fixpoint noByte (c : ascii) (s : string) : bool :=
  match s with
  | EmptyString => true
  | String b s' => negb (Ascii.eqb b c) && noByte c s'
  end.

(** The Gregorian calendar: leap years, the days of a month, and the day
    after a day. *)
Definition isLeapYear (year : Z) : bool :=
  (year mod 4 =? 0) && (negb (year mod 100 =? 0) || (year mod 400 =? 0)).

Definition daysIn (year month : Z) : Z :=
  if month =? 2 then (if isLeapYear year then 29 else 28)
  else if (month =? 4) || (month =? 6) || (month =? 9) || (month =? 11) then 30
  else 31.

Definition nextDay (date : Z * Z * Z) : Z * Z * Z :=
  let '(year, month, day) := date in
  if day <? daysIn year month then (year, month, day + 1)
  else if month <? 12 then (year, month + 1, 1)
  else (year + 1, 1, 1).

(** The value of a decimal digit. *)
Definition digitValue (c : ascii) : Z := GoString.byte_val c - 0x30.

Definition isDigitChar (c : ascii) : bool :=
  Strconv.isDigitByte (GoString.byte_val c).

(** A field of two bytes that [strconv.Atoi] accepts: two digits, or a sign
    and a digit. *)
Definition isSignChar (c : ascii) : bool := Ascii.eqb c "-" || Ascii.eqb c "+".

Definition zoneField (c1 c2 : ascii) : bool :=
  (isDigitChar c1 || isSignChar c1) && isDigitChar c2.

(** A host name that the loop over the source route lets pass. *)
Definition validHostName (name : string) : bool :=
  negb (String.eqb name EmptyString)
  && noByte "@" name && noByte "," name && noByte ":" name
  && negb (GoString.Contains name "..")
  && negb (GoString.HasPrefix name ".")
  && negb (GoStrings.HasSuffix name ".").

(** A field of an envelope test that names the sender or the recipient of
    an envelope whose address is there and does not parse. *)
Definition envelopeInvalid (d : RuntimeData) (field : string) : bool :=
  let fieldName := strings_ToLower (expandVars d field) in
  match envelopeValue d fieldName with
  | Some value =>
    negb (String.eqb value EmptyString)
    && (String.eqb fieldName "from" || String.eqb fieldName "to")
    && bool_decide (snd (parseEnvelopeAddress value) <> None)
  | None => false
  end.

(** A header of an address test that is on the list of the headers that
    hold addresses. *)
Definition isAddressHeader (d : RuntimeData) (hdr : string) : bool :=
  bool_decide (expandVars d (strings_ToLower hdr) ∈ allowedAddrHeaders).

(** The value a date test looks at among the values of its header: the
    first one, or the one [:index] and [:last] select; none when there is no
    value at that place. *)
Definition selectedDateValue (c : DateTest) (values : list string) : option string :=
  if 0 <? dateIndex c
  then
    let idx := selectedIndex (dateIndex c) (dateLast c) (Z.of_nat (length values)) in
    if idx <? 0 then None else nth_error values (Z.to_nat idx)
  else nth_error values 0.

(** A header value that [parseDateHeader] takes for a date. *)
Definition isValidDate (L : TimeLibrary) (value : string) : bool :=
  match parseDateHeader L value with
  | Some _ => true
  | None => false
  end.

(** An address without detail: it is not empty and not the null path,
    [split] takes it apart, and the subaddress separator does not occur in
    its local part. *)
Definition lacksDetail (address : string) : bool :=
  negb (String.eqb address EmptyString) && negb (String.eqb address "<>")
  && match split address with
     | (localPart, _, None) =>
       negb (GoString.Contains localPart SubaddressSeparator)
     | (_, _, Some _) => false
     end.

(** A field of an envelope test whose value is an address without detail,
    or an address that does not parse, which the test passes over. *)
Definition envelopeLacksDetail (d : RuntimeData) (field : string) : bool :=
  envelopeInvalid d field
  || match envelopeValue d (strings_ToLower (expandVars d field)) with
     | Some value => lacksDetail value
     | None => false
     end.

(** What an address test hands to [testAddress] for one value of a header:
    the addresses of the value, or the value itself where it does not hold
    addresses that parse. *)
Definition addressTestAddresses (commentRegex_remove : string -> string)
    (mail_ParseAddressList : string -> option (list string)) (value : string)
  : list string :=
  let cleanValue := stripRFC2822Comments commentRegex_remove value in
  let trimmed := strings_TrimSpace cleanValue in
  if GoString.HasPrefix trimmed "<" && GoStrings.HasSuffix trimmed ">"
     && (GoStrings.CountByte trimmed "<" =? 1)
     && (GoStrings.CountByte trimmed ">" =? 1)
  then [cleanValue]
  else
    match mail_ParseAddressList cleanValue with
    | None => [cleanValue]
    | Some [] => [EmptyString]
    | Some addrList => addrList
    end.

(** A header of an address test that is not on the list of the address
    headers, or that can be read and holds values, every address of which
    is without detail. *)
Definition headerLacksDetail (commentRegex_remove : string -> string)
    (mail_ParseAddressList : string -> option (list string))
    (d : RuntimeData) (hdr : string) : bool :=
  negb (isAddressHeader d hdr)
  || match Host.HeaderGet (Msg d) (HeaderEdits d)
             (expandVars d (strings_ToLower hdr)) with
     | (values, None) =>
       negb (Z.of_nat (length values) =? 0)
       && forallb (fun value =>
                     forallb lacksDetail
                       (addressTestAddresses commentRegex_remove
                          mail_ParseAddressList value))
                  values
     | (_, Some _) => false
     end.


(** The glob matchers do not panic: the errors they return are error
    values. *)
Definition globNeverPanics : Prop :=
  forall (key value : string) (fold : bool) (msg : string),
    snd (matchOctet key value fold) <> Some (ErrPanic msg)
    /\ snd (matchUnicode key value fold) <> Some (ErrPanic msg).

(** ** Properties *)

(** *** Byte strings *)

Lemma byte_of_val c : GoString.byte_of (GoString.byte_val c) = c.
Proof.
  unfold GoString.byte_of, GoString.byte_val. rewrite N2Z.id. apply ascii_N_embedding.
Qed.

Lemma byte_val_of z : 0 <= z < 256 -> GoString.byte_val (GoString.byte_of z) = z.
Proof.
  intros Hz. unfold GoString.byte_of, GoString.byte_val.
  rewrite N_ascii_embedding by lia. lia.
Qed.

Lemma of_bytes_bytes s : GoString.of_bytes (GoString.bytes s) = s.
Proof.
  induction s as [|c s IH]; simpl; [reflexivity|].
  now rewrite byte_of_val, IH.
Qed.

Lemma Index_from_lower i s substr :
  GoString.Index_from i s substr = -1 \/ i <= GoString.Index_from i s substr.
Proof.
  revert i. induction s as [|c s IH]; intros i; cbn [GoString.Index_from].
  - destruct (GoString.HasPrefix EmptyString substr); lia.
  - destruct (GoString.HasPrefix (String c s) substr); [lia|].
    destruct (IH (i + 1)); lia.
Qed.

(** When [substr] does not occur, [GoString.Index] answers [-1]. *)
Lemma Contains_false_Index s substr :
  GoString.Contains s substr = false -> GoString.Index s substr = -1.
Proof.
  unfold GoString.Contains, GoString.Index. intros H.
  apply Z.leb_gt in H.
  destruct (Index_from_lower 0 s substr); lia.
Qed.

(** *** The logical tests *)

(** C4 (amended).  On an empty list of tests [allof] holds (its loop returns
    [true] without a turn) and [anyof] fails, whatever the runtime data,
    which both leave as they found it. *)
Theorem allof_anyof_empty (d : RuntimeData) :
  Check (AllOfTest []) d = (true, None, d) /\
  Check (AnyOfTest []) d = (false, None, d).
Proof. split; reflexivity. Qed.

(** *** The size test *)

Lemma SizeTest_Check_value (size : Z) (over under : bool) (d : RuntimeData) :
  SizeTest_Check size over under d =
  ((over && (size <? Host.MessageSize (Msg d)))
   || (under && (Host.MessageSize (Msg d) <? size)), None).
Proof.
  unfold SizeTest_Check.
  destruct (over && (size <? Host.MessageSize (Msg d))); [reflexivity|].
  destruct (under && (Host.MessageSize (Msg d) <? size)); reflexivity.
Qed.

(** C5.  The size test compares strictly: with [:over] it holds exactly when
    the message is larger than the number, with [:under] exactly when it is
    smaller, and it never fails; the script [if size :over 606 { keep; }] run
    on a fresh runtime data of a 606-byte message ends without error with
    [Keep] false and [ImplicitKeep] true. *)
Theorem size_test_strict (size maxRedirects : Z) (d : RuntimeData)
    (e : Host.Envelope)
    (headerGet : list HeaderEdit -> string -> list string * option Err) :
  (Check (SizeTest size true false) d = (true, None, d)
   <-> Host.MessageSize (Msg d) > size) /\
  (Check (SizeTest size true false) d = (false, None, d)
   <-> ~ Host.MessageSize (Msg d) > size) /\
  (Check (SizeTest size false true) d = (true, None, d)
   <-> Host.MessageSize (Msg d) < size) /\
  (Check (SizeTest size false true) d = (false, None, d)
   <-> ~ Host.MessageSize (Msg d) < size) /\
  (exists d',
      Script_Execute [If (SizeTest 606 true false) [KeepCmd] []]
        (NewRuntimeData maxRedirects e
           {| Host.HeaderGet := headerGet; Host.MessageSize := 606 |})
      = (None, d')
      /\ Keep d' = false /\ ImplicitKeep d' = true).
Proof.
  cbn [Check]. rewrite !SizeTest_Check_value. cbn [andb orb].
  rewrite !orb_false_r.
  destruct (Z.ltb_spec size (Host.MessageSize (Msg d)));
    destruct (Z.ltb_spec (Host.MessageSize (Msg d)) size);
    (repeat split; try (intros H'; first [discriminate H' | reflexivity | lia]));
    eexists; (split; [reflexivity|]); split; reflexivity.
Qed.

(** *** The exists test *)

Lemma ExistsTest_Check_forallb (fields : list string) (d : RuntimeData) :
  fst (ExistsTest_Check fields d) = forallb (headerHasValue d) fields.
Proof.
  induction fields as [|f fields IH]; [reflexivity|].
  cbn [ExistsTest_Check forallb]. unfold headerHasValue at 1.
  destruct (Host.HeaderGet (Msg d) (HeaderEdits d) (expandVars d f))
    as [values [err|]].
  - destruct values; reflexivity.
  - destruct values as [|v values]; [reflexivity|].
    cbn [length]. rewrite Nat2Z.inj_succ.
    destruct (Z.eqb_spec (Z.succ (Z.of_nat (length values))) 0) as [H|_]; [lia|].
    exact IH.
Qed.

(** C6.  The exists test holds exactly when every listed header, its name
    expanded, has at least one value in the message view; one listed header
    without a value makes it fail; the runtime data stays as it was. *)
Theorem exists_test_every_header (fields : list string) (d : RuntimeData) :
  (fst (fst (Check (ExistsTest fields) d)) = true
   <-> forall field, In field fields -> headerHasValue d field = true) /\
  (forall field, In field fields -> headerHasValue d field = false ->
     fst (fst (Check (ExistsTest fields) d)) = false) /\
  snd (Check (ExistsTest fields) d) = d.
Proof.
  cbn [Check fst snd]. rewrite ExistsTest_Check_forallb.
  split; [|split; [|reflexivity]].
  - rewrite forallb_forall. reflexivity.
  - intros field Hin Hno.
    apply not_true_is_false. intros Hall.
    rewrite forallb_forall in Hall. specialize (Hall field Hin). congruence.
Qed.

(** *** The vacation command *)

Lemma existsb_eqb_In (x : string) (l : list string) :
  existsb (fun y => String.eqb y x) l = true <-> In x l.
Proof.
  rewrite existsb_exists. split.
  - intros [y [Hin Heq]]. apply String.eqb_eq in Heq. now subst.
  - intros Hin. exists x. split; [assumption|apply String.eqb_refl].
Qed.

(** C10.  With an empty envelope sender [vacation] returns an error and
    leaves the runtime data as it was: no response is recorded and
    [ImplicitKeep] is not cleared. *)
Theorem vacation_without_sender (c : CmdVacation) (d : RuntimeData) :
  Host.EnvelopeFrom (Envelope d) = EmptyString ->
  CmdVacation_Execute c d = (Some ErrVacationNoSender, d).
Proof.
  intros Hsender. unfold CmdVacation_Execute. rewrite Hsender.
  reflexivity.
Qed.

Lemma fold_bindVacationTag_days (tags : list VacationTag) (cmd : CmdVacation) :
  (forall n, ~ In (TagDays n) tags) ->
  vacDays (fold_left bindVacationTag tags cmd) = vacDays cmd.
Proof.
  revert cmd. induction tags as [|t tags IH]; intros cmd Hno; [reflexivity|].
  cbn [fold_left]. rewrite IH.
  - destruct t; try reflexivity. exfalso. apply (Hno val). now left.
  - intros n Hin. apply (Hno n). now right.
Qed.

Lemma fold_bindVacationTag_subject (tags : list VacationTag) (cmd : CmdVacation) :
  (forall s, ~ In (TagSubject s) tags) ->
  vacSubject (fold_left bindVacationTag tags cmd) = vacSubject cmd.
Proof.
  revert cmd. induction tags as [|t tags IH]; intros cmd Hno; [reflexivity|].
  cbn [fold_left]. rewrite IH.
  - destruct t; try reflexivity. exfalso. apply (Hno val). now left.
  - intros n Hin. apply (Hno n). now right.
Qed.

(** C2.  With a non-empty envelope sender: when the sender is one of the
    expanded [:addresses], [vacation] succeeds and changes nothing; otherwise
    it succeeds, stores under the sender a response with the expanded from,
    reason and handle, the subject (["Automated reply"] when it expands to
    the empty string) and the days of the command, keeps the other
    responses, and clears [ImplicitKeep].  The loader sets the days to 7 when
    no [:days] is given and leaves the subject empty when no [:subject] is
    given, so that the stored subject is then ["Automated reply"]. *)
Theorem vacation_records_response (c : CmdVacation) (d : RuntimeData) :
  Host.EnvelopeFrom (Envelope d) <> EmptyString ->
  let sender := Host.EnvelopeFrom (Envelope d) in
  (In sender (expandVarsList d (vacAddresses c)) ->
     CmdVacation_Execute c d = (None, d)) /\
  (~ In sender (expandVarsList d (vacAddresses c)) ->
     CmdVacation_Execute c d =
       (None,
        set_ImplicitKeep false
          (set_VacationResponses
             (Some (<[ sender := vacationResponse c d ]> (responsesOf d))) d))
     /\ ImplicitKeep (snd (CmdVacation_Execute c d)) = false
     /\ responsesOf (snd (CmdVacation_Execute c d)) !! sender
        = Some (vacationResponse c d)
     /\ (forall other, other <> sender ->
           responsesOf (snd (CmdVacation_Execute c d)) !! other
           = responsesOf d !! other)) /\
  (forall tags reason,
     exists cmd, loadVacation true tags reason = (Some cmd, None) /\
       ((forall n, ~ In (TagDays n) tags) -> vacDays cmd = 7) /\
       ((forall s, ~ In (TagSubject s) tags) ->
          vacSubject cmd = EmptyString /\
          (expandVars d EmptyString = EmptyString ->
             Subject (vacationResponse cmd d) = "Automated reply"))).
Proof.
  intros Hsender sender.
  assert (Hne : String.eqb sender EmptyString = false)
    by now apply String.eqb_neq.
  split; [|split].
  - intros Hin. unfold CmdVacation_Execute. fold sender. rewrite Hne.
    apply existsb_eqb_In in Hin. now rewrite Hin.
  - intros Hnin.
    assert (Hex : existsb (fun addr => String.eqb addr sender)
                    (expandVarsList d (vacAddresses c)) = false).
    { apply not_true_is_false. intros H. now apply existsb_eqb_In in H. }
    assert (Hrun : CmdVacation_Execute c d =
      (None,
       set_ImplicitKeep false
         (set_VacationResponses
            (Some (<[ sender := vacationResponse c d ]> (responsesOf d))) d))).
    { unfold CmdVacation_Execute. fold sender. rewrite Hne, Hex. reflexivity. }
    rewrite Hrun. cbn [snd]. split; [reflexivity|].
    split; [reflexivity|]. unfold responsesOf at 1 3. cbn.
    split.
    + apply lookup_insert_eq.
    + intros other Hother. now apply lookup_insert_ne.
  - intros tags reason. eexists. split; [reflexivity|]. cbn [vacDays vacSubject].
    split.
    + intros Hno. now rewrite fold_bindVacationTag_days.
    + intros Hno. rewrite fold_bindVacationTag_subject by assumption.
      split; [reflexivity|].
      intros Hempty. unfold vacationResponse. cbn [Subject vacSubject].
      now rewrite Hempty.
Qed.

(** *** The editheader commands *)

Lemma validHeaderBytes_isASCII (name : string) :
  validHeaderBytes name = true -> isASCII name = true.
Proof.
  induction name as [|c name IH]; [reflexivity|].
  cbn [validHeaderBytes isASCII]. unfold Utf8.RuneSelf.
  destruct (Z.ltb_spec (GoString.byte_val c) 33); [discriminate|].
  destruct (Z.ltb_spec 126 (GoString.byte_val c)); [discriminate|].
  destruct (Z.eqb_spec (GoString.byte_val c) 58); [discriminate|].
  cbn [orb]. intros Hrest. rewrite (IH Hrest).
  destruct (Z.ltb_spec (GoString.byte_val c) 128); [reflexivity|lia].
Qed.

Lemma isValidHeaderName_isASCII (name : string) :
  isValidHeaderName name = true -> isASCII name = true.
Proof.
  unfold isValidHeaderName.
  destruct (GoString.len name =? 0); [discriminate|].
  apply validHeaderBytes_isASCII.
Qed.

(** A field name is valid when it is not empty and each of its bytes is a
    printable ASCII character other than the colon. *)
Lemma isValidHeaderName_spec (name : string) :
  isValidHeaderName name = true <->
  name <> EmptyString /\
  Forall (fun b => 33 <= b <= 126 /\ b <> 58) (GoString.bytes name).
Proof.
  unfold isValidHeaderName.
  assert (Hbytes : validHeaderBytes name = true <->
            Forall (fun b => 33 <= b <= 126 /\ b <> 58) (GoString.bytes name)).
  { induction name as [|c name IH]; cbn [validHeaderBytes GoString.bytes].
    - split; [constructor|reflexivity].
    - destruct (Z.ltb_spec (GoString.byte_val c) 33);
        destruct (Z.ltb_spec 126 (GoString.byte_val c));
        destruct (Z.eqb_spec (GoString.byte_val c) 58); cbn [orb];
        (split; [intros H'; first [discriminate H' | constructor; [lia|now apply IH]]
                |intros H'; inversion H'; subst; first [lia | now apply IH]]). }
  destruct name as [|c name].
  - cbn. split; [discriminate|]. intros [H _]. now contradiction H.
  - unfold GoString.len. cbn [String.length].
    destruct (Z.eqb_spec (Z.of_nat (S (String.length name))) 0) as [H0|_]; [lia|].
    rewrite Hbytes. split; [intros H; split; [discriminate|exact H]|now intros [_ H]].
Qed.

Lemma strings_ToLower_ascii (name : string) :
  isASCII name = true -> strings_ToLower name = toLowerASCII name.
Proof.
  intros H. unfold strings_ToLower, toLowerASCII. now rewrite H.
Qed.

Lemma isProtectedHeader_iff (name : string) :
  isProtectedHeader name = true <->
  strings_ToLower name = "received" \/ strings_ToLower name = "auto-submitted".
Proof.
  unfold isProtectedHeader, protectedHeaders.
  rewrite bool_decide_eq_true. set_solver.
Qed.

(** C8.  [deleteheader] with a field name that, once expanded, is invalid, or
    that is [Received] or [Auto-Submitted] in any case of the letters,
    returns no error and leaves the whole runtime data, the journal of header
    edits included, as it was; [addheader] with an invalid field name does the
    same. *)
Theorem editheader_silently_ignored (del : CmdDeleteHeader) (add : CmdAddHeader)
    (d : RuntimeData) :
  (isValidHeaderName (expandVars d (delFieldName del)) = false ->
     CmdDeleteHeader_Execute del d = (None, d)) /\
  (toLowerASCII (expandVars d (delFieldName del)) = "received"
   \/ toLowerASCII (expandVars d (delFieldName del)) = "auto-submitted" ->
     CmdDeleteHeader_Execute del d = (None, d)) /\
  (isValidHeaderName (expandVars d (addFieldName add)) = false ->
     CmdAddHeader_Execute add d = (None, d)).
Proof.
  split; [|split].
  - intros Hinv. unfold CmdDeleteHeader_Execute. now rewrite Hinv.
  - intros Hprot. unfold CmdDeleteHeader_Execute.
    destruct (isValidHeaderName (expandVars d (delFieldName del))) eqn:Hvalid;
      [|reflexivity].
    cbn [negb].
    assert (Hp : isProtectedHeader (expandVars d (delFieldName del)) = true).
    { apply isProtectedHeader_iff.
      rewrite strings_ToLower_ascii by now apply isValidHeaderName_isASCII.
      exact Hprot. }
    now rewrite Hp.
  - intros Hinv. unfold CmdAddHeader_Execute. now rewrite Hinv.
Qed.

(** *** The detail part of an address *)

Lemma testAddress_Detail_no_separator (d : RuntimeData)
    (matcher : matcherTest) (address localPart domain : string) :
  address <> EmptyString ->
  address <> "<>" ->
  split address = (localPart, domain, None) ->
  GoString.Contains localPart SubaddressSeparator = false ->
  testAddress d matcher Detail address = (false, None, d).
Proof.
  intros Hne Hnull Hsplit Hsep. unfold testAddress.
  apply String.eqb_neq in Hnull. rewrite Hnull.
  apply String.eqb_neq in Hne. rewrite Hne. cbn [negb].
  rewrite Hsplit. unfold splitSubaddress.
  rewrite (Contains_false_Index _ _ Hsep), Hsep.
  reflexivity.
Qed.

Lemma testAddress_lacksDetail (d : RuntimeData) (matcher : matcherTest)
    (address : string) :
  lacksDetail address = true ->
  testAddress d matcher Detail address = (false, None, d).
Proof.
  unfold lacksDetail. intros H.
  apply andb_true_iff in H as [H Hsplit]. apply andb_true_iff in H as [Hne Hnull].
  apply negb_true_iff, String.eqb_neq in Hne.
  apply negb_true_iff, String.eqb_neq in Hnull.
  destruct (split address) as [[localPart domain] [err|]] eqn:Hs; [discriminate|].
  apply negb_true_iff in Hsplit.
  now apply (testAddress_Detail_no_separator d matcher address localPart domain).
Qed.

Lemma EnvelopeTest_fields_lack_detail (m : matcherTest) (fields : list string)
    (d : RuntimeData) (entryCount : Z) :
  isCount m = false ->
  forallb (envelopeLacksDetail d) fields = true ->
  EnvelopeTest_fields m Detail fields d entryCount = (false, None, d).
Proof.
  intros Hcount. induction fields as [|field fields IH]; intros H.
  - cbn [EnvelopeTest_fields]. now rewrite Hcount.
  - cbn [forallb] in H. apply andb_true_iff in H as [Hf Hrest].
    cbn [EnvelopeTest_fields]. unfold envelopeLacksDetail, envelopeInvalid in Hf.
    cbv zeta in Hf.
    destruct (envelopeValue d (strings_ToLower (expandVars d field)))
      as [value|]; [|discriminate].
    destruct (negb (value =? EmptyString)%string
              && ((strings_ToLower (expandVars d field) =? "from")%string
                  || (strings_ToLower (expandVars d field) =? "to")%string)
              && bool_decide (snd (parseEnvelopeAddress value) <> None));
      [now apply IH|].
    cbn [orb] in Hf. rewrite Hcount, (testAddress_lacksDetail d m value Hf).
    now apply IH.
Qed.

Lemma AddressTest_literal_lacks_detail
    (commentRegex_remove : string -> string)
    (mail_ParseAddressList : string -> option (list string))
    (m : matcherTest) (d : RuntimeData) (entryCount : Z) (literal : string) :
  isCount m = false ->
  lacksDetail literal = true ->
  AddressTest_literal m Detail d entryCount literal = inr (d, entryCount).
Proof.
  intros Hcount H. unfold AddressTest_literal.
  now rewrite Hcount, (testAddress_lacksDetail d m literal H).
Qed.

Lemma AddressTest_addrs_lack_detail (m : matcherTest) (addrList : list string)
    (d : RuntimeData) (entryCount : Z) :
  isCount m = false ->
  forallb lacksDetail addrList = true ->
  AddressTest_addrs m Detail addrList d entryCount = inr (d, entryCount).
Proof.
  intros Hcount. induction addrList as [|addr addrList IH]; intros H;
    [reflexivity|].
  cbn [forallb] in H. apply andb_true_iff in H as [Ha Hrest].
  cbn [AddressTest_addrs].
  rewrite Hcount, (testAddress_lacksDetail d m addr Ha). now apply IH.
Qed.

Lemma AddressTest_values_lack_detail
    (commentRegex_remove : string -> string)
    (mail_ParseAddressList : string -> option (list string))
    (m : matcherTest) (values : list string) (d : RuntimeData)
    (entryCount : Z) :
  isCount m = false ->
  forallb (fun value =>
             forallb lacksDetail
               (addressTestAddresses commentRegex_remove mail_ParseAddressList
                  value)) values = true ->
  AddressTest_values commentRegex_remove mail_ParseAddressList m Detail values
    d entryCount = inr (d, entryCount).
Proof.
  intros Hcount. induction values as [|value values IH]; intros H;
    [reflexivity|].
  cbn [forallb] in H. apply andb_true_iff in H as [Hv Hrest].
  cbn [AddressTest_values]. cbv zeta. unfold addressTestAddresses in Hv.
  cbv zeta in Hv.
  assert (Hlit : forall literal, forallb lacksDetail [literal] = true ->
            AddressTest_literal m Detail d entryCount literal
            = inr (d, entryCount)).
  { intros literal Hl. cbn [forallb] in Hl. rewrite andb_true_r in Hl.
    now apply (AddressTest_literal_lacks_detail commentRegex_remove
                 mail_ParseAddressList). }
  destruct (GoString.HasPrefix _ "<" && _ && _ && _).
  - rewrite (Hlit _ Hv). now apply IH.
  - destruct (mail_ParseAddressList _) as [[|addr addrList]|].
    + rewrite (Hlit _ Hv). now apply IH.
    + rewrite (AddressTest_addrs_lack_detail m _ d entryCount Hcount Hv).
      now apply IH.
    + rewrite (Hlit _ Hv). now apply IH.
Qed.

Lemma AddressTest_headers_lack_detail
    (commentRegex_remove : string -> string)
    (mail_ParseAddressList : string -> option (list string))
    (m : matcherTest) (hdrs : list string) (d : RuntimeData)
    (entryCount : Z) :
  isCount m = false ->
  forallb (headerLacksDetail commentRegex_remove mail_ParseAddressList d) hdrs
    = true ->
  AddressTest_headers commentRegex_remove mail_ParseAddressList m Detail hdrs
    d entryCount = (false, None, d).
Proof.
  intros Hcount. induction hdrs as [|hdr hdrs IH]; intros H.
  - cbn [AddressTest_headers]. now rewrite Hcount.
  - cbn [forallb] in H. apply andb_true_iff in H as [Hh Hrest].
    cbn [AddressTest_headers]. cbv zeta.
    unfold headerLacksDetail, isAddressHeader in Hh.
    destruct (negb (bool_decide
                      (expandVars d (strings_ToLower hdr) ∈ allowedAddrHeaders)));
      [now apply IH|].
    cbn [orb] in Hh.
    destruct (Host.HeaderGet (Msg d) (HeaderEdits d)
                (expandVars d (strings_ToLower hdr))) as [values [err|]];
      [discriminate|].
    apply andb_true_iff in Hh as [Hlen Hvalues].
    apply negb_true_iff in Hlen. rewrite Hlen.
    rewrite (AddressTest_values_lack_detail commentRegex_remove
               mail_ParseAddressList m values d entryCount Hcount Hvalues).
    now apply IH.
Qed.

(** C7.  An address with a local part in which the subaddress separator does
    not occur fails the [:detail] address-part: [testAddress] answers [false]
    without error and without looking at the keys, whatever the comparator
    and the match-type of the matcher.  So does an envelope test and an
    address test with [:detail] whose match-type is not [:count], when every
    address the test looks at is such an address: the test answers [false]
    and leaves the runtime data alone. *)
Theorem detail_without_separator
    (commentRegex_remove : string -> string)
    (mail_ParseAddressList : string -> option (list string))
    (d : RuntimeData) (matcher : matcherTest)
    (address localPart domain : string) (fields hdrs : list string) :
  (address <> EmptyString ->
   address <> "<>" ->
   split address = (localPart, domain, None) ->
   GoString.Contains localPart SubaddressSeparator = false ->
     lacksDetail address = true
     /\ testAddress d matcher Detail address = (false, None, d))
  /\ (isCount matcher = false ->
      forallb (envelopeLacksDetail d) fields = true ->
        EnvelopeTest_Check matcher Detail fields d = (false, None, d))
  /\ (isCount matcher = false ->
      forallb (headerLacksDetail commentRegex_remove mail_ParseAddressList d)
              hdrs = true ->
        AddressTest_Check commentRegex_remove mail_ParseAddressList matcher
          Detail hdrs d = (false, None, d)).
Proof.
  split; [|split].
  - intros Hne Hnull Hsplit Hsep.
    assert (H : lacksDetail address = true).
    { unfold lacksDetail. rewrite Hsplit, Hsep.
      apply String.eqb_neq in Hne, Hnull. now rewrite Hne, Hnull. }
    split; [exact H|now apply testAddress_lacksDetail].
  - apply EnvelopeTest_fields_lack_detail.
  - apply AddressTest_headers_lack_detail.
Qed.

(** *** Regular expressions over their budget *)











(** *** The numeric value of a string *)

Lemma lor_ge_r (a b : Z) : 0 <= a -> b <= Z.lor a b.
Proof.
  intros Ha. pose proof (Z.sub_lor_l_same_r a b) as H.
  assert (0 <= Z.land a (Z.lnot b)) by (apply Z.land_nonneg; now left).
  lia.
Qed.

Lemma lor_ge_l (a b : Z) : 0 <= b -> a <= Z.lor a b.
Proof. intros Hb. rewrite Z.lor_comm. now apply lor_ge_r. Qed.

Lemma lor_le_add (a b : Z) : 0 <= a -> 0 <= b -> Z.lor a b <= a + b.
Proof.
  intros Ha Hb. pose proof (Z.add_lor_land a b) as H.
  assert (0 <= Z.land a b) by (apply Z.land_nonneg; now left).
  lia.
Qed.

Lemma land_mask_nonneg (a m : Z) : 0 <= m -> 0 <= Z.land a m.
Proof. intros Hm. apply Z.land_nonneg. now right. Qed.

Lemma shiftl_nonneg (a n : Z) : 0 <= a -> 0 <= Z.shiftl a n.
Proof. intros Ha. now apply Z.shiftl_nonneg. Qed.

Lemma land_31 (a : Z) : Z.land a 0x1F = a mod 32.
Proof. change 0x1F with (Z.ones 5). now rewrite Z.land_ones by lia. Qed.

Lemma land_15 (a : Z) : Z.land a 0x0F = a mod 16.
Proof. change 0x0F with (Z.ones 4). now rewrite Z.land_ones by lia. Qed.

Lemma land_7 (a : Z) : Z.land a 0x07 = a mod 8.
Proof. change 0x07 with (Z.ones 3). now rewrite Z.land_ones by lia. Qed.

Lemma land_63 (a : Z) : Z.land a 0x3F = a mod 64.
Proof. change 0x3F with (Z.ones 6). now rewrite Z.land_ones by lia. Qed.

(** A rune decoded from a sequence of two or more bytes lies above ASCII. *)
Lemma rune2_high (s0 s1 : Z) :
  0xC2 <= s0 <= 0xDF ->
  0x80 <= Z.lor (Z.shiftl (Z.land s0 Utf8.mask2) 6) (Z.land s1 Utf8.maskx).
Proof.
  intros H0. unfold Utf8.mask2, Utf8.maskx.
  etransitivity; [|apply lor_ge_l; now apply land_mask_nonneg].
  rewrite land_31, Z.shiftl_mul_pow2 by lia. change (2 ^ 6) with 64.
  Z.div_mod_to_equations. lia.
Qed.

Lemma rune3_high (s0 s1 s2 : Z) :
  0xE0 <= s0 <= 0xEF ->
  (s0 = 0xE0 -> 0xA0 <= s1 <= 0xBF) ->
  0x80 <= Z.lor (Z.lor (Z.shiftl (Z.land s0 Utf8.mask3) 12)
                       (Z.shiftl (Z.land s1 Utf8.maskx) 6))
                (Z.land s2 Utf8.maskx).
Proof.
  intros H0 H1. unfold Utf8.mask3, Utf8.maskx.
  etransitivity; [|apply lor_ge_l; now apply land_mask_nonneg].
  destruct (Z.eq_dec s0 0xE0) as [He|Hne].
  - etransitivity; [|apply lor_ge_r; apply shiftl_nonneg; now apply land_mask_nonneg].
    specialize (H1 He). rewrite land_63, Z.shiftl_mul_pow2 by lia.
    Z.div_mod_to_equations. lia.
  - etransitivity;
      [|apply lor_ge_l; apply shiftl_nonneg; now apply land_mask_nonneg].
    rewrite land_15, Z.shiftl_mul_pow2 by lia.
    Z.div_mod_to_equations. lia.
Qed.

Lemma rune4_high (s0 s1 s2 s3 : Z) :
  0xF0 <= s0 <= 0xF4 ->
  (s0 = 0xF0 -> 0x90 <= s1 <= 0xBF) ->
  0x80 <= Z.lor (Z.lor (Z.lor (Z.shiftl (Z.land s0 Utf8.mask4) 18)
                              (Z.shiftl (Z.land s1 Utf8.maskx) 12))
                       (Z.shiftl (Z.land s2 Utf8.maskx) 6))
                (Z.land s3 Utf8.maskx).
Proof.
  intros H0 H1. unfold Utf8.mask4, Utf8.maskx.
  etransitivity; [|apply lor_ge_l; now apply land_mask_nonneg].
  etransitivity;
    [|apply lor_ge_l; apply shiftl_nonneg; now apply land_mask_nonneg].
  destruct (Z.eq_dec s0 0xF0) as [He|Hne].
  - etransitivity; [|apply lor_ge_r; apply shiftl_nonneg; now apply land_mask_nonneg].
    specialize (H1 He). rewrite land_63, Z.shiftl_mul_pow2 by lia.
    Z.div_mod_to_equations. lia.
  - etransitivity;
      [|apply lor_ge_l; apply shiftl_nonneg; now apply land_mask_nonneg].
    rewrite land_7, Z.shiftl_mul_pow2 by lia.
    Z.div_mod_to_equations. lia.
Qed.

Lemma first_Some (s0 sz lo hi : Z) :
  Utf8.first s0 = Some (sz, lo, hi) ->
  (sz = 2 /\ 0xC2 <= s0 <= 0xDF)
  \/ (sz = 3 /\ 0xE0 <= s0 <= 0xEF /\ (s0 = 0xE0 -> lo = 0xA0 /\ hi = 0xBF))
  \/ (sz = 4 /\ 0xF0 <= s0 <= 0xF4 /\ (s0 = 0xF0 -> lo = 0x90 /\ hi = 0xBF)).
Proof.
  unfold Utf8.first, Utf8.locb, Utf8.hicb.
  repeat match goal with
         | |- context [Z.ltb ?a ?b] => destruct (Z.ltb_spec a b)
         | |- context [Z.leb ?a ?b] => destruct (Z.leb_spec a b)
         | |- context [Z.eqb ?a ?b] => destruct (Z.eqb_spec a b)
         end;
    intros H'; try discriminate H'; injection H' as <- <- <-; lia.
Qed.

Ltac rune_error :=
  eexists _, _; split; [reflexivity | unfold Utf8.RuneError; lia].

Lemma runes_low (c : ascii) (t : string) :
  GoString.byte_val c < 0x80 ->
  Utf8.runes (String c t) = GoString.byte_val c :: Utf8.runes t.
Proof.
  intros Hc. cbn [Utf8.runes]. unfold Utf8.RuneSelf.
  destruct (Z.ltb_spec (GoString.byte_val c) 0x80); [reflexivity|lia].
Qed.

Lemma runes_high (c : ascii) (t : string) :
  0x80 <= GoString.byte_val c ->
  exists r rest, Utf8.runes (String c t) = r :: rest /\ 0x80 <= r.
Proof.
  intros Hc. cbn [Utf8.runes]. unfold Utf8.RuneSelf.
  destruct (Z.ltb_spec (GoString.byte_val c) 0x80) as [Hlt|_]; [lia|].
  destruct (Utf8.first (GoString.byte_val c)) as [[[sz lo] hi]|] eqn:Hfirst;
    [|rune_error].
  apply first_Some in Hfirst.
  destruct (GoString.len (String c t) <? sz); [rune_error|].
  destruct t as [|c1 t1]; [rune_error|].
  destruct ((GoString.byte_val c1 <? lo) || (hi <? GoString.byte_val c1)) eqn:H1;
    [rune_error|].
  apply orb_false_elim in H1 as [H1a H1b]. apply Z.ltb_ge in H1a, H1b.
  destruct Hfirst as [[-> H0]|[[-> [H0 Hlo]]|[-> [H0 Hlo]]]].
  - change (2 <=? 2) with true. cbv iota.
    eexists _, _. split; [reflexivity|]. now apply rune2_high.
  - change (3 <=? 2) with false. cbv iota.
    destruct t1 as [|c2 t2]; [rune_error|].
    destruct ((GoString.byte_val c2 <? Utf8.locb) || (Utf8.hicb <? GoString.byte_val c2));
      [rune_error|].
    change (3 <=? 3) with true. cbv iota.
    eexists _, _. split; [reflexivity|]. apply rune3_high; [assumption|].
    intros He. specialize (Hlo He). lia.
  - change (4 <=? 2) with false. cbv iota.
    destruct t1 as [|c2 t2]; [rune_error|].
    destruct ((GoString.byte_val c2 <? Utf8.locb) || (Utf8.hicb <? GoString.byte_val c2));
      [rune_error|].
    change (4 <=? 3) with false. cbv iota.
    destruct t2 as [|c3 t3]; [rune_error|].
    destruct ((GoString.byte_val c3 <? Utf8.locb) || (Utf8.hicb <? GoString.byte_val c3));
      [rune_error|].
    eexists _, _. split; [reflexivity|]. apply rune4_high; [assumption|].
    intros He. specialize (Hlo He). lia.
Qed.

Lemma runes_nonempty (c : ascii) (t : string) : Utf8.runes (String c t) <> [].
Proof.
  destruct (Z.lt_ge_cases (GoString.byte_val c) 0x80) as [H|H].
  - rewrite runes_low by assumption. discriminate.
  - destruct (runes_high c t H) as [r [rest [Hr _]]]. rewrite Hr. discriminate.
Qed.

Lemma isDigitByte_range (b : Z) :
  Strconv.isDigitByte b = true <-> 0x30 <= b <= 0x39.
Proof.
  unfold Strconv.isDigitByte. rewrite andb_true_iff, !Z.leb_le. reflexivity.
Qed.

(** A string whose runes are all ASCII digits consists of these digits. *)
Lemma runes_digits_bytes (s : string) :
  forallb Strconv.isDigitByte (Utf8.runes s) = true ->
  Utf8.runes s = GoString.bytes s.
Proof.
  induction s as [|c t IH]; [reflexivity|].
  destruct (Z.lt_ge_cases (GoString.byte_val c) 0x80) as [H|H].
  - rewrite runes_low by assumption. cbn [forallb GoString.bytes].
    intros Hall. apply andb_true_iff in Hall as [_ Hall]. now rewrite IH.
  - destruct (runes_high c t H) as [r [rest [Hr Hhigh]]]. rewrite Hr.
    cbn [forallb]. intros Hall. apply andb_true_iff in Hall as [Hd _].
    apply isDigitByte_range in Hd. lia.
Qed.

(** A string of ASCII digits decodes to its bytes. *)
Lemma bytes_digits_runes (s : string) :
  forallb Strconv.isDigitByte (GoString.bytes s) = true ->
  Utf8.runes s = GoString.bytes s.
Proof.
  induction s as [|c t IH]; [reflexivity|].
  cbn [forallb GoString.bytes]. intros Hall.
  apply andb_true_iff in Hall as [Hd Hall]. apply isDigitByte_range in Hd.
  rewrite runes_low by lia. now rewrite IH.
Qed.

Lemma encodeRune_ascii (r : Z) :
  0 <= r <= 0x7F -> Utf8.encodeRune r = [r].
Proof.
  intros Hr. unfold Utf8.encodeRune.
  destruct (Z.leb_spec 0 r); [|lia].
  destruct (Z.leb_spec r 0x7F); [reflexivity|lia].
Qed.

(** The first byte of a rune above ASCII is a lead byte. *)
Lemma encodeRune_high (r : Z) :
  ~ 0 <= r <= 0x7F ->
  exists b rest, Utf8.encodeRune r = b :: rest /\ 0xC0 <= b < 0x100.
Proof.
  intros Hr. unfold Utf8.encodeRune.
  destruct ((0 <=? r) && (r <=? 0x7F)) eqn:H1.
  { apply andb_true_iff in H1 as [Ha Hb]. apply Z.leb_le in Ha, Hb. lia. }
  destruct ((0 <=? r) && (r <=? 0x7FF)) eqn:H2.
  { apply andb_true_iff in H2 as [Ha Hb]. apply Z.leb_le in Ha, Hb.
    eexists _, _. split; [reflexivity|].
    assert (Hs : 0 <= Z.shiftr r 6 <= 31).
    { rewrite Z.shiftr_div_pow2 by lia. change (2 ^ 6) with 64.
      Z.div_mod_to_equations. lia. }
    pose proof (lor_ge_l 0xC0 (Z.shiftr r 6)).
    pose proof (lor_le_add 0xC0 (Z.shiftr r 6)). lia. }
  set (r' := if (r <? 0) || (Utf8.MaxRune <? r)
                || ((Utf8.surrogateMin <=? r) && (r <=? Utf8.surrogateMax))
             then Utf8.RuneError else r).
  assert (Hr' : 0 <= r' <= Utf8.MaxRune).
  { subst r'. unfold Utf8.MaxRune, Utf8.RuneError.
    destruct (Z.ltb_spec r 0); cbn [orb]; [lia|].
    destruct (Z.ltb_spec 0x10FFFF r); cbn [orb]; [lia|].
    destruct ((Utf8.surrogateMin <=? r) && (r <=? Utf8.surrogateMax)); lia. }
  unfold Utf8.MaxRune in Hr'.
  destruct (Z.leb_spec r' 0xFFFF).
  - eexists _, _. split; [reflexivity|].
    assert (Hs : 0 <= Z.shiftr r' 12 <= 15).
    { rewrite Z.shiftr_div_pow2 by lia. change (2 ^ 12) with 4096.
      Z.div_mod_to_equations. lia. }
    pose proof (lor_ge_l 0xE0 (Z.shiftr r' 12)).
    pose proof (lor_le_add 0xE0 (Z.shiftr r' 12)). lia.
  - eexists _, _. split; [reflexivity|].
    assert (Hs : 0 <= Z.shiftr r' 18 <= 4).
    { rewrite Z.shiftr_div_pow2 by lia. change (2 ^ 18) with 262144.
      Z.div_mod_to_equations. lia. }
    pose proof (lor_ge_l 0xF0 (Z.shiftr r' 18)).
    pose proof (lor_le_add 0xF0 (Z.shiftr r' 18)). lia.
Qed.

Lemma of_bytes_app (l1 l2 : list Z) :
  GoString.of_bytes (l1 ++ l2)%list
  = GoString.of_bytes l1 +:+ GoString.of_bytes l2.
Proof.
  induction l1 as [|b l1 IH]; [reflexivity|]. cbn. now rewrite IH.
Qed.

Lemma bytes_app (s1 s2 : string) :
  GoString.bytes (s1 +:+ s2) = (GoString.bytes s1 ++ GoString.bytes s2)%list.
Proof.
  induction s1 as [|c s1 IH]; [reflexivity|].
  change (String c s1 +:+ s2) with (String c (s1 +:+ s2)).
  cbn [GoString.bytes]. now rewrite IH.
Qed.

Lemma string_of_runes_cons (r : Z) (rs : list Z) :
  Utf8.string_of_runes (r :: rs)
  = GoString.of_bytes (Utf8.encodeRune r) +:+ Utf8.string_of_runes rs.
Proof. unfold Utf8.string_of_runes. cbn [map concat]. apply of_bytes_app. Qed.

(** A slice of ASCII digits converts to the string of these digits. *)
Lemma string_of_runes_digits (run : list Z) :
  forallb Strconv.isDigitByte run = true ->
  GoString.bytes (Utf8.string_of_runes run) = run.
Proof.
  induction run as [|r run IH]; [reflexivity|].
  cbn [forallb]. intros Hall. apply andb_true_iff in Hall as [Hd Hall].
  apply isDigitByte_range in Hd.
  rewrite string_of_runes_cons, encodeRune_ascii by lia.
  rewrite bytes_app. cbn [GoString.of_bytes GoString.bytes app].
  rewrite byte_val_of by lia. now rewrite IH.
Qed.

(** A slice with a rune that is no ASCII digit converts to a string with a
    byte that is no ASCII digit. *)
Lemma string_of_runes_not_digits (run : list Z) :
  forallb Strconv.isDigitByte run = false ->
  forallb Strconv.isDigitByte (GoString.bytes (Utf8.string_of_runes run)) = false.
Proof.
  induction run as [|r run IH]; [discriminate|].
  cbn [forallb]. intros Hall. rewrite string_of_runes_cons.
  destruct (Z.le_gt_cases 0 r) as [H0|H0];
    [destruct (Z.le_gt_cases r 0x7F) as [H1|H1]|].
  - rewrite encodeRune_ascii by lia. rewrite bytes_app.
    cbn [GoString.of_bytes GoString.bytes app forallb].
    rewrite byte_val_of by lia.
    destruct (Strconv.isDigitByte r); [|reflexivity].
    cbn [andb] in *. now apply IH.
  - destruct (encodeRune_high r) as [b [rest [Hb Hrange]]]; [lia|].
    rewrite Hb. rewrite bytes_app.
    cbn [GoString.of_bytes GoString.bytes app forallb].
    rewrite byte_val_of by lia.
    replace (Strconv.isDigitByte b) with false; [reflexivity|].
    symmetry. apply not_true_is_false. rewrite isDigitByte_range. lia.
  - destruct (encodeRune_high r) as [b [rest [Hb Hrange]]]; [lia|].
    rewrite Hb. rewrite bytes_app.
    cbn [GoString.of_bytes GoString.bytes app forallb].
    rewrite byte_val_of by lia.
    replace (Strconv.isDigitByte b) with false; [reflexivity|].
    symmetry. apply not_true_is_false. rewrite isDigitByte_range. lia.
Qed.

Lemma string_of_runes_nonempty (r : Z) (rs : list Z) :
  Utf8.string_of_runes (r :: rs) <> EmptyString.
Proof.
  rewrite string_of_runes_cons.
  destruct (Z.le_gt_cases 0 r) as [H0|H0];
    [destruct (Z.le_gt_cases r 0x7F) as [H1|H1]|].
  - rewrite encodeRune_ascii by lia. intros H'.
    apply (f_equal GoString.bytes) in H'. rewrite bytes_app in H'. discriminate H'.
  - destruct (encodeRune_high r) as [b [rest [Hb _]]]; [lia|].
    rewrite Hb. intros H'.
    apply (f_equal GoString.bytes) in H'. rewrite bytes_app in H'. discriminate H'.
  - destruct (encodeRune_high r) as [b [rest [Hb _]]]; [lia|].
    rewrite Hb. intros H'.
    apply (f_equal GoString.bytes) in H'. rewrite bytes_app in H'. discriminate H'.
Qed.

(** [ParseUint] on digits. *)

Lemma decimal_from_ge (bs : list Z) (n : Z) :
  0 <= n -> forallb Strconv.isDigitByte bs = true ->
  n <= Strconv.decimal_from n bs.
Proof.
  revert n. induction bs as [|c bs IH]; intros n Hn Hall; [cbn; lia|].
  cbn [forallb] in Hall. apply andb_true_iff in Hall as [Hd Hall].
  apply isDigitByte_range in Hd. cbn [Strconv.decimal_from].
  etransitivity; [|apply IH; [lia|assumption]]. lia.
Qed.

Lemma ParseUint_loop_digits (bs : list Z) (n : Z) :
  0 <= n < 2 ^ 64 ->
  forallb Strconv.isDigitByte bs = true ->
  Strconv.ParseUint_loop bs n =
  if Strconv.decimal_from n bs <? 2 ^ 64
  then (Strconv.decimal_from n bs, None)
  else (Strconv.maxUint64, Some ErrRange).
Proof.
  revert n. induction bs as [|c bs IH]; intros n Hn Hall.
  - cbn. destruct (Z.ltb_spec n (2 ^ 64)); [reflexivity|lia].
  - cbn [forallb] in Hall. apply andb_true_iff in Hall as [Hd Hall].
    cbn [Strconv.ParseUint_loop Strconv.decimal_from]. rewrite Hd.
    apply isDigitByte_range in Hd.
    destruct (Z.leb_spec 10 (c - 0x30)); [lia|].
    assert (Hcut : Strconv.cutoff = 1844674407370955162) by reflexivity.
    rewrite Hcut.
    change (2 ^ 64) with 18446744073709551616 in *.
    pose proof (decimal_from_ge bs (n * 10 + (c - 0x30))) as Hmono.
    destruct (Z.leb_spec 1844674407370955162 n).
    + destruct (Z.ltb_spec (Strconv.decimal_from (n * 10 + (c - 0x30)) bs)
                  18446744073709551616); [|reflexivity].
      specialize (Hmono ltac:(lia) Hall). lia.
    + rewrite (Z.mod_small (n * 10)) by lia.
      destruct (Z.lt_ge_cases (n * 10 + (c - 0x30)) 18446744073709551616) as [Hs|Hb].
      * rewrite (Z.mod_small (n * 10 + (c - 0x30))) by lia.
        destruct (Z.ltb_spec (n * 10 + (c - 0x30)) (n * 10)); [lia|].
        unfold Strconv.maxUint64.
        change (2 ^ 64) with 18446744073709551616.
        destruct (Z.ltb_spec (18446744073709551616 - 1) (n * 10 + (c - 0x30)));
          [lia|].
        cbn [orb]. apply IH; [lia|assumption].
      * assert (Hw : (n * 10 + (c - 0x30)) mod 18446744073709551616
                     = n * 10 + (c - 0x30) - 18446744073709551616).
        { symmetry. apply Z.mod_unique with (q := 1); lia. }
        rewrite Hw.
        destruct (Z.ltb_spec (n * 10 + (c - 0x30) - 18446744073709551616) (n * 10));
          [|lia].
        cbn [orb].
        destruct (Z.ltb_spec (Strconv.decimal_from (n * 10 + (c - 0x30)) bs)
                    18446744073709551616); [|reflexivity].
        specialize (Hmono ltac:(lia) Hall). lia.
Qed.

Lemma ParseUint_loop_not_digits (bs : list Z) (n : Z) :
  forallb Strconv.isDigitByte bs = false ->
  exists v e, Strconv.ParseUint_loop bs n = (v, Some e).
Proof.
  revert n. induction bs as [|c bs IH]; intros n Hall; [discriminate|].
  cbn [forallb] in Hall. cbn [Strconv.ParseUint_loop].
  destruct (Strconv.isDigitByte c) eqn:Hd.
  - cbn [andb] in Hall.
    destruct (10 <=? c - 0x30); [eauto|].
    destruct (Strconv.cutoff <=? n); [eauto|].
    match goal with
    | |- context [if ?b then _ else _] => destruct b; [eauto|]
    end.
    now apply IH.
  - destruct ((0x61 <=? Strconv.lower c) && (Strconv.lower c <=? 0x7A)) eqn:Hl;
      [|eauto].
    apply andb_true_iff in Hl as [Ha _]. apply Z.leb_le in Ha.
    destruct (Z.leb_spec 10 (Strconv.lower c - 0x61 + 10)); [eauto|lia].
Qed.

Lemma firstNonDigit_Some (rs : list Z) (i j : nat) :
  firstNonDigit i rs = Some j ->
  exists k, j = (i + k)%nat /\ firstn k rs = takeDigits rs.
Proof.
  revert i. induction rs as [|r rs IH]; intros i; [discriminate|].
  cbn [firstNonDigit takeDigits]. destruct (IsDigit r); cbn [negb].
  - intros H. apply IH in H as [k [-> Hk]].
    exists (S k). split; [lia|]. cbn [firstn]. now rewrite Hk.
  - intros [= <-]. exists 0%nat. split; [lia|reflexivity].
Qed.

Lemma firstNonDigit_None (rs : list Z) (i : nat) :
  firstNonDigit i rs = None -> takeDigits rs = rs.
Proof.
  revert i. induction rs as [|r rs IH]; intros i; [reflexivity|].
  cbn [firstNonDigit takeDigits]. destruct (IsDigit r); cbn [negb]; [|discriminate].
  intros H. now rewrite (IH _ H).
Qed.

Lemma ParseUint_digits (sl : string) :
  sl <> EmptyString ->
  forallb Strconv.isDigitByte (GoString.bytes sl) = true ->
  match Strconv.ParseUint sl with
  | (_, Some _) => None
  | (digit, None) => Some digit
  end
  = if Strconv.decimal (GoString.bytes sl) <? 2 ^ 64
    then Some (Strconv.decimal (GoString.bytes sl)) else None.
Proof.
  intros Hne Hall. unfold Strconv.ParseUint.
  apply String.eqb_neq in Hne. rewrite Hne.
  rewrite ParseUint_loop_digits by (assumption || lia).
  unfold Strconv.decimal.
  now destruct (Strconv.decimal_from 0 (GoString.bytes sl) <? 2 ^ 64).
Qed.

Lemma ParseUint_not_digits (sl : string) :
  forallb Strconv.isDigitByte (GoString.bytes sl) = false ->
  match Strconv.ParseUint sl with
  | (_, Some _) => None
  | (digit, None) => Some digit
  end = @None Z.
Proof.
  intros Hall. unfold Strconv.ParseUint.
  destruct (String.eqb sl EmptyString); [reflexivity|].
  destruct (ParseUint_loop_not_digits _ 0 Hall) as [v [e He]]. now rewrite He.
Qed.

(** The numeric value of a string is the value of its leading digits. *)
Lemma numericValue_leadingDigits (s : string) :
  numericValue s = digitsValue (leadingDigits s).
Proof.
  destruct s as [|c t]; [reflexivity|].
  unfold numericValue, leadingDigits.
  assert (Hlen : (GoString.len (String c t) =? 0) = false).
  { apply Z.eqb_neq. unfold GoString.len. cbn [String.length]. lia. }
  rewrite Hlen.
  destruct (Utf8.runes (String c t)) as [|r0 rs] eqn:Hr;
    [now apply runes_nonempty in Hr|].
  cbn [takeDigits]. destruct (IsDigit r0) eqn:Hd0; cbn [negb]; [|reflexivity].
  destruct (firstNonDigit 0 (r0 :: rs)) as [i|] eqn:Hf.
  - apply firstNonDigit_Some in Hf as [k [-> Hk]]. cbn [Nat.add].
    rewrite Hk. cbn [takeDigits]. rewrite Hd0.
    set (run := r0 :: takeDigits rs).
    assert (Hne : Utf8.string_of_runes run <> EmptyString)
      by apply string_of_runes_nonempty.
    pose proof Hne as Hne'. apply String.eqb_neq in Hne'. rewrite Hne'.
    unfold digitsValue. fold run.
    destruct (forallb Strconv.isDigitByte run) eqn:Hall; cbn [andb].
    + rewrite ParseUint_digits;
        rewrite ?string_of_runes_digits by assumption; auto.
    + apply ParseUint_not_digits. now apply string_of_runes_not_digits.
  - apply firstNonDigit_None in Hf. cbn [takeDigits] in Hf.
    rewrite Hd0 in Hf. injection Hf as Hf. rewrite Hf.
    change (String.eqb EmptyString EmptyString) with true. cbv iota.
    unfold digitsValue.
    destruct (forallb Strconv.isDigitByte (r0 :: rs)) eqn:Hall; cbn [andb].
    + assert (Hb : GoString.bytes (String c t) = r0 :: rs).
      { rewrite <- Hr. symmetry. apply runes_digits_bytes. now rewrite Hr. }
      rewrite ParseUint_digits; rewrite ?Hb; auto.
    + apply ParseUint_not_digits.
      apply not_true_is_false. intros Hbytes.
      pose proof (bytes_digits_runes _ Hbytes) as Heq.
      rewrite Hr in Heq. rewrite <- Heq in Hbytes. congruence.
Qed.

(** C9 (amended).  The numeric value of a string is none exactly when the
    string does not begin with a decimal digit, or its leading run of decimal
    digits has a digit outside ASCII or denotes a number of more than 64
    bits; otherwise it is the number the run denotes.  Under
    [i;ascii-numeric] the match-types [:is] and [:value] hand the numeric
    values of value and key to [CompareNumericValue], [:is] for equality and
    [:value] for the relation given.  Where that function compares as the
    specification has it, [:is] holds exactly when the two numeric values
    are the same, [:value] on two numbers is the relation of the numbers,
    and presence of digits beats absence: a number is less than, and not
    equal to, the value of a string without digits, whatever the number, and
    two strings without digits are equal. *)
Theorem ascii_numeric_value (s value k : string) (rel : Relational) :
  numericValue s = digitsValue (leadingDigits s) /\
  (numericValue s = None <->
     leadingDigits s = []
     \/ forallb Strconv.isDigitByte (leadingDigits s) = false
     \/ 2 ^ 64 <= Strconv.decimal (leadingDigits s)) /\
  testString ComparatorASCIINumeric MatchIs rel value k =
    (CompareNumericValue RelEqual (numericValue value) (numericValue k), [], None) /\
  testString ComparatorASCIINumeric MatchValue rel value k =
    (CompareNumericValue rel (numericValue value) (numericValue k), [], None) /\
  ((forall rel' lhs rhs,
      CompareNumericValue rel' lhs rhs = SpecModel.CompareNumericValue rel' lhs rhs) ->
   testString ComparatorASCIINumeric MatchIs rel value k =
     (bool_decide (numericValue value = numericValue k), [], None) /\
   (forall a b, numericValue value = Some a -> numericValue k = Some b ->
      testString ComparatorASCIINumeric MatchValue rel value k =
        (SpecModel.relationHolds rel (a ?= b), [], None)) /\
   (forall a, numericValue value = Some a -> numericValue k = None ->
      testString ComparatorASCIINumeric MatchValue rel value k =
        (SpecModel.relationHolds rel Lt, [], None) /\
      testString ComparatorASCIINumeric MatchValue rel k value =
        (SpecModel.relationHolds rel Gt, [], None)) /\
   (numericValue value = None -> numericValue k = None ->
      testString ComparatorASCIINumeric MatchValue rel value k =
        (SpecModel.relationHolds rel Eq, [], None))).
Proof.
  split; [apply numericValue_leadingDigits|].
  split; [|split; [reflexivity|split; [reflexivity|]]].
  - rewrite numericValue_leadingDigits. unfold digitsValue.
    destruct (leadingDigits s) as [|r run] eqn:Hrun.
    + split; [now left|reflexivity].
    + destruct (forallb Strconv.isDigitByte (r :: run)); cbn [andb].
      * destruct (Z.ltb_spec (Strconv.decimal (r :: run)) (2 ^ 64)).
        -- split; [discriminate|].
           intros [H'|[H'|H']]; [discriminate|discriminate|lia].
        -- split; [now right; right|reflexivity].
      * split; [now right; left|reflexivity].
  - intros Hcmp. cbn [testString]. rewrite !Hcmp.
    unfold SpecModel.CompareNumericValue.
    split; [|split; [|split]].
    + destruct (numericValue value) as [a|], (numericValue k) as [b|];
        cbn [SpecModel.numericOrder SpecModel.relationHolds].
      * destruct (Z.compare_spec a b) as [->|Hlt|Hgt].
        -- now rewrite bool_decide_eq_true_2.
        -- rewrite bool_decide_eq_false_2; [reflexivity|].
           intros Heq. injection Heq as ->. lia.
        -- rewrite bool_decide_eq_false_2; [reflexivity|].
           intros Heq. injection Heq as ->. lia.
      * now rewrite bool_decide_eq_false_2.
      * now rewrite bool_decide_eq_false_2.
      * now rewrite bool_decide_eq_true_2.
    + intros a b -> ->. reflexivity.
    + intros a Ha Hk. rewrite Ha, Hk. split; reflexivity.
    + intros -> ->. reflexivity.
Qed.

(** *** The implicit keep *)

(** Induction on a test, with the property at hand for the tests of an
    [allof] and an [anyof]. *)
Lemma Test_nested_ind (P : Test -> Prop) :
  (forall tests, Forall P tests -> P (AllOfTest tests)) ->
  (forall tests, Forall P tests -> P (AnyOfTest tests)) ->
  (forall fields, P (ExistsTest fields)) ->
  P FalseTest ->
  P TrueTest ->
  (forall m hdrs, P (HeaderTest m hdrs)) ->
  (forall t, P t -> P (NotTest t)) ->
  (forall size over under, P (SizeTest size over under)) ->
  forall t, P t.
Proof.
  intros HAll HAny HExists HFalse HTrue HHeader HNot HSize.
  fix IH 1. intros [tests|tests|fields| | |m hdrs|t|size over under].
  - apply HAll. induction tests as [|t tests IHtests]; constructor;
      [apply IH|exact IHtests].
  - apply HAny. induction tests as [|t tests IHtests]; constructor;
      [apply IH|exact IHtests].
  - apply HExists.
  - exact HFalse.
  - exact HTrue.
  - apply HHeader.
  - apply HNot, IH.
  - apply HSize.
Qed.

(** Induction on a command, with the property at hand for the commands of
    the two blocks of an [if]. *)
Lemma Cmd_nested_ind (P : Cmd -> Prop) :
  P Stop -> P KeepCmd -> P Discard ->
  (forall mailbox copy, P (FileInto mailbox copy)) ->
  (forall addr copy, P (Redirect addr copy)) ->
  (forall c, P (AddHeader c)) ->
  (forall c, P (DeleteHeader c)) ->
  (forall c, P (Vacation c)) ->
  (forall t block rest, Forall P block -> Forall P rest -> P (If t block rest)) ->
  forall c, P c.
Proof.
  intros HStop HKeep HDiscard HFile HRedirect HAdd HDel HVac HIf.
  fix IH 1. intros [ | | |mailbox copy|addr copy|c|c|c|t block rest].
  - exact HStop.
  - exact HKeep.
  - exact HDiscard.
  - apply HFile.
  - apply HRedirect.
  - apply HAdd.
  - apply HDel.
  - apply HVac.
  - apply HIf.
    + induction block as [|c block IHblock]; constructor; [apply IH|exact IHblock].
    + induction rest as [|c rest IHrest]; constructor; [apply IH|exact IHrest].
Qed.

(** The matcher leaves [ImplicitKeep] alone. *)
Lemma tryMatch_keys_ImplicitKeep (m : matcherTest) (source : string)
    (keys : list string) (d : RuntimeData) :
  ImplicitKeep (snd (tryMatch_keys m d source keys)) = ImplicitKeep d.
Proof.
  induction keys as [|k keys IH]; [reflexivity|].
  cbn [tryMatch_keys].
  destruct (testString (comparator m) (match_ m) (relational m) source
              (expandVars d k)) as [[[|] matches] [err|]];
    try (destruct (isMatchLimit err); [exact IH|reflexivity]);
    [|exact IH].
  cbn [snd]. now destruct (match_ m).
Qed.

Lemma tryMatch_ImplicitKeep (m : matcherTest) (d : RuntimeData) (source : string) :
  ImplicitKeep (snd (tryMatch m d source)) = ImplicitKeep d.
Proof. apply tryMatch_keys_ImplicitKeep. Qed.

Lemma HeaderTest_values_ImplicitKeep (m : matcherTest) (values : list string)
    (d : RuntimeData) (n : Z) :
  match HeaderTest_values m values d n with
  | inl (_, d') => ImplicitKeep d' = ImplicitKeep d
  | inr (d', _) => ImplicitKeep d' = ImplicitKeep d
  end.
Proof.
  revert d n. induction values as [|v values IH]; intros d n; [reflexivity|].
  cbn [HeaderTest_values]. destruct (isCount m); [apply IH|].
  pose proof (tryMatch_ImplicitKeep m d v) as Ht.
  destruct (tryMatch m d v) as [[[|] [err|]] d1]; cbn [snd] in Ht;
    try exact Ht.
  specialize (IH d1 n).
  destruct (HeaderTest_values m values d1 n) as [[r d2]|[d2 n2]]; congruence.
Qed.

Lemma HeaderTest_headers_ImplicitKeep (m : matcherTest) (hdrs : list string)
    (d : RuntimeData) (n : Z) :
  ImplicitKeep (snd (HeaderTest_headers m hdrs d n)) = ImplicitKeep d.
Proof.
  revert d n. induction hdrs as [|hdr hdrs IH]; intros d n.
  - cbn [HeaderTest_headers]. now destruct (isCount m).
  - cbn [HeaderTest_headers].
    destruct (Host.HeaderGet (Msg d) (HeaderEdits d) (expandVars d hdr))
      as [values [err|]]; [reflexivity|].
    pose proof (HeaderTest_values_ImplicitKeep m values d n) as Hv.
    destruct (HeaderTest_values m values d n) as [[r d1]|[d1 n1]].
    + exact Hv.
    + rewrite IH. exact Hv.
Qed.

(** No test changes [ImplicitKeep]. *)
Lemma Check_ImplicitKeep (t : Test) :
  forall d, ImplicitKeep (snd (Check t d)) = ImplicitKeep d.
Proof.
  induction t as [tests IH|tests IH|fields| | |m hdrs|t IH|size over under]
    using Test_nested_ind; intros d; try reflexivity.
  - cbn [Check]. revert d.
    induction IH as [|t tests Ht _ IHtests]; intros d; [reflexivity|].
    cbn [AllOfTest_Check]. specialize (Ht d).
    destruct (Check t d) as [[[|] [err|]] d1]; cbn [snd] in Ht;
      try exact Ht. now rewrite IHtests.
  - cbn [Check]. revert d.
    induction IH as [|t tests Ht _ IHtests]; intros d; [reflexivity|].
    cbn [AnyOfTest_Check]. specialize (Ht d).
    destruct (Check t d) as [[[|] [err|]] d1]; cbn [snd] in Ht;
      try exact Ht. now rewrite IHtests.
  - cbn [Check]. apply HeaderTest_headers_ImplicitKeep.
  - cbn [Check]. specialize (IH d).
    destruct (Check t d) as [[[|] [err|]] d1]; exact IH.
Qed.

Lemma valueMatchesPatterns_ImplicitKeep (c : CmdDeleteHeader) (value : string)
    (patterns : list string) (d : RuntimeData) :
  ImplicitKeep (snd (valueMatchesPatterns c d value patterns)) = ImplicitKeep d.
Proof.
  unfold valueMatchesPatterns. generalize (strings_TrimSpace value) as v. intros v.
  revert d. induction patterns as [|pat patterns IH]; intros d; [reflexivity|].
  cbn [valueMatchesPatterns_loop].
  pose proof (tryMatch_ImplicitKeep (delMatcher c) d v) as Ht.
  destruct (tryMatch (delMatcher c) d v) as [[[|] [err|]] d1];
    cbn [snd] in Ht; try exact Ht.
  destruct (bool_decide (match_ (delMatcher c) = MatchUnset)).
  - destruct (testString (comparator (delMatcher c)) MatchIs RelUnset v pat)
      as [[[|] matches] [err|]]; try exact Ht. now rewrite IH.
  - now rewrite IH.
Qed.

Lemma deleteMatching_ImplicitKeep (c : CmdDeleteHeader) (fieldName : string)
    (valuePatterns values : list string) (d : RuntimeData) :
  ImplicitKeep (snd (deleteMatching c fieldName valuePatterns values d))
  = ImplicitKeep d.
Proof.
  revert d. induction values as [|val values IH]; intros d; [reflexivity|].
  cbn [deleteMatching].
  pose proof (valueMatchesPatterns_ImplicitKeep c val valuePatterns d) as Hv.
  destruct (valueMatchesPatterns c d val valuePatterns) as [[ok [err|]] d1];
    cbn [snd] in Hv.
  - destruct ok, err; cbn [snd]; rewrite ?IH; exact Hv.
  - destruct ok; rewrite IH; exact Hv.
Qed.

Lemma CmdDeleteHeader_Execute_ImplicitKeep (c : CmdDeleteHeader) (d : RuntimeData) :
  ImplicitKeep (snd (CmdDeleteHeader_Execute c d)) = ImplicitKeep d.
Proof.
  unfold CmdDeleteHeader_Execute.
  destruct (negb (isValidHeaderName (expandVars d (delFieldName c))));
    [reflexivity|].
  destruct (isProtectedHeader (expandVars d (delFieldName c))); [reflexivity|].
  destruct (Z.of_nat (length (expandVarsList d (delValuePatterns c))) =? 0);
    [reflexivity|].
  destruct (Host.HeaderGet (Msg d) (HeaderEdits d) (expandVars d (delFieldName c)))
    as [values [err|]]; [reflexivity|].
  destruct (Z.of_nat (length (applyHeaderEditsToValues d _ values)) =? 0);
    [reflexivity|].
  destruct (0 <? delIndex c).
  - match goal with
    | |- context [if ?b then (None, d) else _] => destruct b; [reflexivity|]
    end.
    match goal with
    | |- context [valueMatchesPatterns c d ?v ?p] =>
      pose proof (valueMatchesPatterns_ImplicitKeep c v p d) as Hv;
      destruct (valueMatchesPatterns c d v p) as [[ok [err|]] d1]
    end; cbn [snd] in Hv; [destruct ok, err|destruct ok]; exact Hv.
  - apply deleteMatching_ImplicitKeep.
Qed.

Lemma CmdAddHeader_Execute_ImplicitKeep (c : CmdAddHeader) (d : RuntimeData) :
  ImplicitKeep (snd (CmdAddHeader_Execute c d)) = ImplicitKeep d.
Proof.
  unfold CmdAddHeader_Execute.
  now destruct (negb (isValidHeaderName (expandVars d (addFieldName c)))).
Qed.

Lemma execBlock_keepsCount (cmds : list Cmd) :
  Forall keepsCount cmds ->
  forall d r d', execBlock Execute cmds d = (r, d') -> completes r ->
    ImplicitKeep d' = ImplicitKeep d && noneClears (executedBlock executed cmds d).
Proof.
  induction 1 as [|c cmds Hc _ IH]; intros d r d' Hrun Hr.
  - injection Hrun as <- <-. cbn. now rewrite andb_true_r.
  - cbn [execBlock executedBlock] in *. unfold noneClears in *.
    rewrite forallb_app.
    destruct (Execute c d) as [[err|] d1] eqn:Hexec.
    + injection Hrun as <- <-. cbn [forallb]. rewrite andb_true_r.
      exact (Hc d (Some err) d1 Hexec Hr).
    + rewrite (IH d1 r d' Hrun Hr).
      rewrite (Hc d None d1 Hexec (or_introl eq_refl)).
      now rewrite andb_assoc.
Qed.

Lemma Execute_keepsCount (c : Cmd) : keepsCount c.
Proof.
  induction c as [ | | |mailbox copy|addr copy|c|c|c|t block rest IHblock IHrest]
    using Cmd_nested_ind; intros d r d' Hrun Hr; unfold noneClears;
    cbn [Execute executed forallb clearsImplicitKeep negb] in *.
  - injection Hrun as <- <-. now rewrite andb_true_r.
  - injection Hrun as <- <-. cbn. now rewrite andb_true_r.
  - injection Hrun as <- <-. cbn. now rewrite andb_false_r.
  - unfold CmdFileInto_Execute in Hrun. injection Hrun as <- <-.
    destruct copy; cbn; now rewrite ?andb_true_r, ?andb_false_r.
  - unfold CmdRedirect_Execute in Hrun.
    destruct (MaxRedirects d <=? Z.of_nat (length (RedirectAddr d))).
    + injection Hrun as <- <-. destruct Hr as [Hr|Hr]; discriminate Hr.
    + injection Hrun as <- <-.
      destruct copy; cbn; now rewrite ?andb_true_r, ?andb_false_r.
  - pose proof (CmdAddHeader_Execute_ImplicitKeep c d) as Hk.
    rewrite Hrun in Hk. cbn [snd] in Hk. now rewrite andb_true_r.
  - pose proof (CmdDeleteHeader_Execute_ImplicitKeep c d) as Hk.
    rewrite Hrun in Hk. cbn [snd] in Hk. now rewrite andb_true_r.
  - unfold CmdVacation_Execute in Hrun.
    destruct (String.eqb (Host.EnvelopeFrom (Envelope d)) EmptyString).
    + injection Hrun as <- <-. destruct Hr as [Hr|Hr]; discriminate Hr.
    + destruct (existsb _ (expandVarsList d (vacAddresses c)));
        injection Hrun as <- <-; cbn; now rewrite ?andb_true_r, ?andb_false_r.
  - pose proof (Check_ImplicitKeep t d) as Hk.
    destruct (Check t d) as [[[|] [err|]] d1]; cbn [snd] in Hk.
    + injection Hrun as <- <-. cbn. now rewrite andb_true_r.
    + rewrite <- Hk. cbn [andb].
      exact (execBlock_keepsCount block IHblock d1 r d' Hrun Hr).
    + injection Hrun as <- <-. cbn. now rewrite andb_true_r.
    + rewrite <- Hk. cbn [andb].
      exact (execBlock_keepsCount rest IHrest d1 r d' Hrun Hr).
Qed.

(** C1 (amended).  When the evaluation of a script completes without error,
    [ImplicitKeep] is true at the end exactly when it was true at the start
    and no executed command took it away: no [discard], no [fileinto] or
    [redirect] without [:copy], and no [vacation] that recorded a response
    (one whose envelope sender is none of its [:addresses]).  A [vacation]
    that answers one of its own addresses leaves [ImplicitKeep] as it was,
    and so does every [keep]. *)
Theorem implicit_keep_invariant (cmds : list Cmd) (d d' : RuntimeData) :
  Script_Execute cmds d = (None, d') ->
  (ImplicitKeep d' = true <->
     ImplicitKeep d = true /\
     forall e, In e (executedScript cmds d) -> clearsImplicitKeep e = false) /\
  (forall c d0,
     In (Host.EnvelopeFrom (Envelope d0)) (expandVarsList d0 (vacAddresses c)) ->
     Host.EnvelopeFrom (Envelope d0) <> EmptyString ->
     Execute (Vacation c) d0 = (None, d0)) /\
  (forall d0, fst (Execute KeepCmd d0) = None /\
              ImplicitKeep (snd (Execute KeepCmd d0)) = ImplicitKeep d0).
Proof.
  intros Hrun. split; [|split].
  - assert (Hk : ImplicitKeep d' =
                 ImplicitKeep d && noneClears (executedScript cmds d)).
    { unfold Script_Execute in Hrun. unfold executedScript.
      assert (Hall : Forall keepsCount cmds).
      { apply Forall_forall. intros c _. apply Execute_keepsCount. }
      destruct (execBlock Execute cmds d) as [[err|] d1] eqn:Hblock.
      - destruct err; try discriminate Hrun. injection Hrun as <-.
        exact (execBlock_keepsCount cmds Hall d _ d1 Hblock (or_intror eq_refl)).
      - injection Hrun as <-.
        exact (execBlock_keepsCount cmds Hall d _ d1 Hblock (or_introl eq_refl)). }
    rewrite Hk, andb_true_iff. unfold noneClears. rewrite forallb_forall.
    split; intros [H1 H2]; (split; [exact H1|]); intros e He;
      specialize (H2 e He).
    + now apply negb_true_iff in H2.
    + now apply negb_true_iff.
  - intros c d0 Hin Hne. cbn [Execute]. unfold CmdVacation_Execute.
    apply String.eqb_neq in Hne. rewrite Hne.
    apply existsb_eqb_In in Hin. now rewrite Hin.
  - intros d0. split; reflexivity.
Qed.

(** *** How the tests compose *)

Lemma HeaderTest_values_error_false (m : matcherTest) (values : list string)
    (d : RuntimeData) (n : Z) (ok : bool) (err : Err) (d' : RuntimeData) :
  HeaderTest_values m values d n = inl (ok, Some err, d') -> ok = false.
Proof.
  revert d n. induction values as [|v values IH]; intros d n; [discriminate|].
  cbn [HeaderTest_values]. destruct (isCount m); [apply IH|].
  destruct (tryMatch m d v) as [[[|] [e|]] d1]; try congruence. apply IH.
Qed.

Lemma HeaderTest_headers_error_false (m : matcherTest) (hdrs : list string)
    (d : RuntimeData) (n : Z) (ok : bool) (err : Err) (d' : RuntimeData) :
  HeaderTest_headers m hdrs d n = (ok, Some err, d') -> ok = false.
Proof.
  revert d n. induction hdrs as [|hdr hdrs IH]; intros d n.
  - cbn [HeaderTest_headers]. destruct (isCount m); discriminate.
  - cbn [HeaderTest_headers].
    destruct (Host.HeaderGet (Msg d) (HeaderEdits d) (expandVars d hdr))
      as [values [e|]]; [congruence|].
    destruct (HeaderTest_values m values d n) as [[[r e] d1]|[d1 n1]] eqn:Hv.
    + intros H. injection H as -> -> ->.
      exact (HeaderTest_values_error_false _ _ _ _ _ _ _ Hv).
    + apply IH.
Qed.

Lemma ExistsTest_Check_error_false (fields : list string) (d : RuntimeData)
    (ok : bool) (err : Err) :
  ExistsTest_Check fields d = (ok, Some err) -> ok = false.
Proof.
  induction fields as [|f fields IH]; [discriminate|].
  cbn [ExistsTest_Check].
  destruct (Host.HeaderGet (Msg d) (HeaderEdits d) (expandVars d f))
    as [values [e|]]; [congruence|].
  destruct (Z.of_nat (length values) =? 0); [discriminate|exact IH].
Qed.

Lemma Check_error_false (t : Test) :
  forall d ok err d', Check t d = (ok, Some err, d') -> ok = false.
Proof.
  induction t as [tests IH|tests IH|fields| | |m hdrs|t IH|size over under]
    using Test_nested_ind; intros d ok err d'; cbn [Check].
  - revert d. induction IH as [|t tests Ht _ IHtests]; intros d; [discriminate|].
    cbn [AllOfTest_Check].
    destruct (Check t d) as [[[|] [e|]] d1]; try congruence. apply IHtests.
  - revert d. induction IH as [|t tests Ht _ IHtests]; intros d; [discriminate|].
    cbn [AnyOfTest_Check].
    destruct (Check t d) as [[[|] [e|]] d1]; try congruence. apply IHtests.
  - intros H. injection H as H _.
    exact (ExistsTest_Check_error_false _ _ _ _ H).
  - discriminate.
  - discriminate.
  - apply HeaderTest_headers_error_false.
  - destruct (Check t d) as [[[|] [e|]] d1]; congruence.
  - unfold SizeTest_Check.
    destruct (over && _); [discriminate|]. destruct (under && _); discriminate.
Qed.

(** X1.  A test never answers true together with an error: whatever the test
    and the runtime data, an error comes with the answer false. *)
Theorem test_error_answers_false (t : Test) (d d' : RuntimeData) (ok : bool)
    (err : Err) :
  Check t d = (ok, Some err, d') -> ok = false.
Proof. apply Check_error_false. Qed.

(** X2.  [not] is an involution: a test negated twice gives the answer, the
    error and the runtime data of the test itself. *)
Theorem not_not_is_the_test (t : Test) (d : RuntimeData) :
  Check (NotTest (NotTest t)) d = Check t d.
Proof.
  cbn [Check]. destruct (Check t d) as [[ok [err|]] d1] eqn:Ht.
  - now rewrite (Check_error_false _ _ _ _ _ Ht).
  - now rewrite negb_involutive.
Qed.

(** X3.  De Morgan: the negation of an [allof] is the [anyof] of the negated
    tests, and the negation of an [anyof] is the [allof] of the negated
    tests.  The two sides agree on the answer, on the error and on the
    runtime data, so on the tests that were evaluated before the answer was
    known. *)
Theorem not_allof_anyof (tests : list Test) (d : RuntimeData) :
  Check (NotTest (AllOfTest tests)) d = Check (AnyOfTest (map NotTest tests)) d
  /\ Check (NotTest (AnyOfTest tests)) d = Check (AllOfTest (map NotTest tests)) d.
Proof.
  cbn [Check]. split.
  - revert d. induction tests as [|t tests IH]; intros d; [reflexivity|].
    cbn [AllOfTest_Check AnyOfTest_Check map Check].
    destruct (Check t d) as [[[|] [err|]] d1]; try reflexivity. apply IH.
  - revert d. induction tests as [|t tests IH]; intros d; [reflexivity|].
    cbn [AllOfTest_Check AnyOfTest_Check map Check].
    destruct (Check t d) as [[[|] [err|]] d1]; try reflexivity. apply IH.
Qed.

Lemma HeaderTest_values_count (m : matcherTest) (values : list string)
    (d : RuntimeData) (n : Z) :
  isCount m = true ->
  HeaderTest_values m values d n = inr (d, n + Z.of_nat (length values)).
Proof.
  intros Hc. revert n. induction values as [|v values IH]; intros n.
  - cbn. now rewrite Z.add_0_r.
  - cbn [HeaderTest_values length]. rewrite Hc, IH. do 2 f_equal. lia.
Qed.

Lemma HeaderTest_headers_count (m : matcherTest) (hdrs : list string)
    (d : RuntimeData) (n : Z) :
  isCount m = true -> headersReadable d hdrs ->
  HeaderTest_headers m hdrs d n
    = (countMatches m d (n + headerValueCount d hdrs), None, d).
Proof.
  intros Hc Hr. revert n. induction Hr as [|hdr hdrs Hhdr _ IH]; intros n.
  - cbn [HeaderTest_headers headerValueCount fold_right].
    now rewrite Hc, Z.add_0_r.
  - cbn [HeaderTest_headers headerValueCount fold_right].
    destruct (Host.HeaderGet (Msg d) (HeaderEdits d) (expandVars d hdr))
      as [values [e|]]; [discriminate|].
    rewrite (HeaderTest_values_count _ _ _ _ Hc), IH. cbn [fst].
    do 3 f_equal. unfold headerValueCount. lia.
Qed.

(** X4.  A [header] test with [:count] consults no key and changes nothing:
    when the message view answers for every listed header, the test hands
    the total number of their values to [countMatches]. *)
Theorem header_count_counts_values (m : matcherTest) (hdrs : list string)
    (d : RuntimeData) :
  isCount m = true -> headersReadable d hdrs ->
  Check (HeaderTest m hdrs) d
    = (countMatches m d (headerValueCount d hdrs), None, d).
Proof.
  intros Hc Hr. cbn [Check]. unfold HeaderTest_Check.
  now rewrite (HeaderTest_headers_count _ _ _ _ Hc Hr).
Qed.

(** X5.  [mailboxexists]: a policy without a mailbox checker makes the test
    hold for whatever mailboxes it names; with a checker that answers
    without error, the test holds exactly when every named mailbox, its name
    expanded, exists. *)
Theorem mailboxexists_optimistic (MailboxExists : string -> bool * option Err)
    (mailboxes : list string) (d : RuntimeData) :
  (forall mailbox, In mailbox mailboxes ->
     snd (MailboxExists (expandVars d mailbox)) = None) ->
  MailboxExistsTest_Check None mailboxes d = (true, None)
  /\ MailboxExistsTest_Check (Some MailboxExists) mailboxes d
     = (forallb (fun mailbox => fst (MailboxExists (expandVars d mailbox)))
          mailboxes, None).
Proof.
  intros Hok. split.
  - clear Hok. induction mailboxes as [|mb mailboxes IH]; [reflexivity|exact IH].
  - induction mailboxes as [|mb mailboxes IH]; [reflexivity|].
    cbn [MailboxExistsTest_Check forallb].
    pose proof (Hok mb (or_introl eq_refl)) as Hmb.
    destruct (MailboxExists (expandVars d mb)) as [[|] [e|]]; cbn [snd] in Hmb;
      try discriminate; cbn [fst andb]; [|reflexivity].
    apply IH. intros mailbox Hin. apply Hok. now right.
Qed.

(** *** The journal of header edits *)

Lemma applyHeaderEdits_app (d : RuntimeData) (field : string)
    (edits : list HeaderEdit) (values : list string) :
  applyHeaderEditsToValues (set_HeaderEdits (HeaderEdits d ++ edits) d) field values
    = fold_left (applyHeaderEdit field) edits
        (applyHeaderEditsToValues d field values).
Proof. unfold applyHeaderEditsToValues. cbn [HeaderEdits set_HeaderEdits]. apply fold_left_app. Qed.

Lemma matchRegex_never_panics (pat value : string) (msg : string) :
  snd (matchRegex pat value) <> Some (ErrPanic msg).
Proof.
  unfold matchRegex, CompileSafeRegex, FindSubmatch.
  destruct (_ <? GoString.len pat); [discriminate|].
  destruct (regexp_Compile _ pat) as [re| |]; try discriminate.
  cbn [limits pattern]. destruct (_ <? GoString.len value); [discriminate|].
  destruct (regexp_FindStringSubmatch _ re value) as [[ms|]| |]; discriminate.
Qed.

Lemma testString_never_panics (cmp : Comparator) (mt : Match) (rel : Relational)
    (value k : string) (msg : string) :
  mt <> MatchCount -> globNeverPanics ->
  snd (testString cmp mt rel value k) <> Some (ErrPanic msg).
Proof.
  intros Hmt Hglob. destruct cmp, mt; cbn [testString snd];
    try discriminate; try contradiction;
    first [apply matchRegex_never_panics | apply Hglob].
Qed.

Lemma tryMatch_never_panics (m : matcherTest) (d : RuntimeData)
    (source : string) (msg : string) :
  match_ m <> MatchCount -> globNeverPanics ->
  snd (fst (tryMatch m d source)) <> Some (ErrPanic msg).
Proof.
  intros Hmt Hglob. unfold tryMatch.
  induction (key m) as [|k keys IH]; [discriminate|]. cbn [tryMatch_keys].
  pose proof (testString_never_panics (comparator m) (match_ m) (relational m)
                source (expandVars d k) msg Hmt Hglob) as Ht.
  destruct (testString (comparator m) (match_ m) (relational m) source
              (expandVars d k)) as [[ok matches] [err|]]; cbn [snd] in Ht.
  - destruct ok; (destruct (isMatchLimit err); [exact IH|exact Ht]).
  - destruct ok; [discriminate|exact IH].
Qed.

Lemma valueMatchesPatterns_never_panics (c : CmdDeleteHeader) (d : RuntimeData)
    (value : string) (patterns : list string) (msg : string) :
  match_ (delMatcher c) <> MatchCount -> globNeverPanics ->
  snd (fst (valueMatchesPatterns c d value patterns)) <> Some (ErrPanic msg).
Proof.
  intros Hmt Hglob. unfold valueMatchesPatterns.
  generalize (strings_TrimSpace value) as v. intros v. revert d.
  induction patterns as [|pat patterns IH]; intros d; [discriminate|].
  cbn [valueMatchesPatterns_loop].
  pose proof (tryMatch_never_panics (delMatcher c) d v msg Hmt Hglob) as Ht.
  destruct (tryMatch (delMatcher c) d v) as [[ok [err|]] d1]; cbn [fst snd] in Ht.
  - destruct ok; exact Ht.
  - destruct ok; [discriminate|].
    destruct (bool_decide (match_ (delMatcher c) = MatchUnset)); [|apply IH].
    pose proof (testString_never_panics (comparator (delMatcher c)) MatchIs
                  RelUnset v pat msg ltac:(discriminate) Hglob) as Hs.
    destruct (testString (comparator (delMatcher c)) MatchIs RelUnset v pat)
      as [[ok' matches] [err|]]; cbn [snd] in Hs.
    + destruct ok'; exact Hs.
    + destruct ok'; [discriminate|apply IH].
Qed.

Lemma deleteMatching_result (c : CmdDeleteHeader) (fieldName : string)
    (valuePatterns values : list string) (d : RuntimeData) :
  (fst (deleteMatching c fieldName valuePatterns values d) = None
   \/ exists msg,
        fst (deleteMatching c fieldName valuePatterns values d)
        = Some (ErrPanic msg))
  /\ (match_ (delMatcher c) <> MatchCount -> globNeverPanics ->
      fst (deleteMatching c fieldName valuePatterns values d) = None).
Proof.
  revert d. induction values as [|val values IH]; intros d;
    [split; [now left|reflexivity]|].
  cbn [deleteMatching].
  pose proof (fun msg Hmt Hglob =>
                valueMatchesPatterns_never_panics c d val valuePatterns msg
                  Hmt Hglob) as Hv.
  destruct (valueMatchesPatterns c d val valuePatterns) as [[ok [err|]] d1];
    cbn [fst snd] in Hv.
  - destruct err; try (destruct ok; apply IH).
    destruct ok; (split; [right; eauto|]);
      intros Hmt Hglob; now destruct (Hv msg Hmt Hglob).
  - destruct ok; apply IH.
Qed.

(** X6.  The editheader commands swallow every error: [addheader] returns
    [nil] always, and [deleteheader] returns [nil] on an invalid or
    protected name, a message that cannot be read, an index out of range
    and an error of the matcher alike.  The one way in which [deleteheader]
    does not return [nil] is a panic, which does not arise when the
    match-type is not [:count] and the glob matchers do not panic. *)
Theorem editheader_never_fails (add : CmdAddHeader) (del : CmdDeleteHeader)
    (d : RuntimeData) :
  fst (CmdAddHeader_Execute add d) = None
  /\ (fst (CmdDeleteHeader_Execute del d) = None
      \/ exists msg, fst (CmdDeleteHeader_Execute del d) = Some (ErrPanic msg))
  /\ (match_ (delMatcher del) <> MatchCount -> globNeverPanics ->
      fst (CmdDeleteHeader_Execute del d) = None).
Proof.
  split; [unfold CmdAddHeader_Execute; now destruct (negb _)|].
  unfold CmdDeleteHeader_Execute.
  destruct (negb _); [split; [now left|reflexivity]|].
  destruct (isProtectedHeader _); [split; [now left|reflexivity]|].
  destruct (_ =? 0); [split; [now left|reflexivity]|].
  destruct (Host.HeaderGet _ _ _) as [values [err|]];
    [split; [now left|reflexivity]|].
  destruct (_ =? 0); [split; [now left|reflexivity]|].
  destruct (0 <? delIndex del); [|apply deleteMatching_result].
  destruct (_ || _); [split; [now left|reflexivity]|].
  match goal with
  | |- context [valueMatchesPatterns del d ?v ?p] =>
    pose proof (fun msg Hmt Hglob =>
                  valueMatchesPatterns_never_panics del d v p msg Hmt Hglob)
      as Hv;
    destruct (valueMatchesPatterns del d v p) as [[ok [err|]] d1]
  end; cbn [fst snd] in Hv.
  - destruct err; try (destruct ok; (split; [now left|reflexivity])).
    destruct ok; (split; [right; eauto|]);
      intros Hmt Hglob; now destruct (Hv msg Hmt Hglob).
  - destruct ok; (split; [now left|reflexivity]).
Qed.

(** X7.  A header added by [addheader] is seen through the journal: read
    under its name, the values are the earlier ones with the new value in
    front, or at the end with [:last]; read under a name that does not fold
    to the name of the header, the values are the earlier ones. *)
Theorem addheader_is_visible (c : CmdAddHeader) (d : RuntimeData)
    (field : string) (values : list string) :
  isValidHeaderName (expandVars d (addFieldName c)) = true ->
  applyHeaderEditsToValues (snd (CmdAddHeader_Execute c d)) field values
    = if strings_EqualFold (expandVars d (addFieldName c)) field then
        if addLast c
        then (applyHeaderEditsToValues d field values
              ++ [expandVars d (addValue c)])%list
        else expandVars d (addValue c) :: applyHeaderEditsToValues d field values
      else applyHeaderEditsToValues d field values.
Proof.
  intros Hvalid. unfold CmdAddHeader_Execute. rewrite Hvalid. cbn [negb snd].
  rewrite applyHeaderEdits_app. cbn [fold_left]. unfold applyHeaderEdit.
  cbn [FieldName Action Last Value].
  destruct (strings_EqualFold _ _); cbn [negb]; [|reflexivity].
  reflexivity.
Qed.

(** X8.  A [deleteheader] without value patterns and without [:index] hides
    the header: afterwards a message view that replays the journal holds no
    value under a name that folds to the name of the header, so [exists]
    is false for it, whatever the message holds and whatever was added
    before. *)
Theorem deleteheader_hides_header (Original : Host.Message (list HeaderEdit))
    (c : CmdDeleteHeader) (d : RuntimeData) (field : string) :
  Msg d = EditableMessage Original ->
  isValidHeaderName (expandVars d (delFieldName c)) = true ->
  isProtectedHeader (expandVars d (delFieldName c)) = false ->
  delValuePatterns c = [] ->
  delIndex c <= 0 ->
  strings_EqualFold (expandVars d (delFieldName c))
    (expandVars (snd (CmdDeleteHeader_Execute c d)) field) = true ->
  fst (Host.HeaderGet (Msg (snd (CmdDeleteHeader_Execute c d)))
         (HeaderEdits (snd (CmdDeleteHeader_Execute c d)))
         (expandVars (snd (CmdDeleteHeader_Execute c d)) field)) = []
  /\ fst (fst (Check (ExistsTest [field]) (snd (CmdDeleteHeader_Execute c d))))
     = false.
Proof.
  intros HMsg Hvalid Hprot Hpat Hidx.
  assert (Hrun : CmdDeleteHeader_Execute c d
                 = (None,
                    set_HeaderEdits
                      (HeaderEdits d ++
                       [{| Action := "delete";
                           FieldName := expandVars d (delFieldName c);
                           Value := EmptyString; Last := delLast c;
                           Index := delIndex c |}]) d)).
  { unfold CmdDeleteHeader_Execute. rewrite Hvalid, Hprot.
    unfold expandVarsList. now rewrite Hpat. }
  rewrite Hrun. cbn [snd]. set (d' := set_HeaderEdits _ d). intros Hfold.
  assert (Hget : fst (Host.HeaderGet (Msg d') (HeaderEdits d') (expandVars d' field))
                 = []).
  { cbn [Msg set_HeaderEdits d' HeaderEdits]. rewrite HMsg.
    cbn [EditableMessage Host.HeaderGet].
    destruct (Host.HeaderGet Original _ _) as [values [err|]]; [reflexivity|].
    cbn [fst]. rewrite fold_left_app. cbn [fold_left]. unfold applyHeaderEdit at 1.
    cbn [FieldName Action Index Value]. fold d'. rewrite Hfold. cbn [negb].
    replace (0 <? delIndex c) with false by (symmetry; apply Z.ltb_ge; exact Hidx).
    reflexivity. }
  split; [exact Hget|].
  cbn [Check ExistsTest_Check fst].
  destruct (Host.HeaderGet (Msg d') (HeaderEdits d') (expandVars d' field))
    as [values [err|]]; [reflexivity|].
  cbn [fst] in Hget. now rewrite Hget.
Qed.

Lemma deleteFirst_absent (v : string) (l : list string) :
  ~ In v l -> deleteFirst v l = l.
Proof.
  induction l as [|x l IH]; [reflexivity|]. intros Hin. cbn [deleteFirst].
  destruct (String.eqb_spec x v) as [->|_].
  - exfalso. apply Hin. now left.
  - f_equal. apply IH. intros H. apply Hin. now right.
Qed.

Lemma deleteFirst_first (v : string) (before after : list string) :
  ~ In v before -> deleteFirst v (before ++ v :: after) = (before ++ after)%list.
Proof.
  induction before as [|x before IH]; intros Hin.
  - cbn [app deleteFirst]. now rewrite String.eqb_refl.
  - cbn [app deleteFirst]. destruct (String.eqb_spec x v) as [->|_].
    + exfalso. apply Hin. now left.
    + f_equal. apply IH. intros H. apply Hin. now right.
Qed.

(** X9.  A journal entry that deletes by value removes the first occurrence
    of the value and nothing else: the values before it and after it stay,
    in order, later occurrences included; a value that does not occur
    leaves the list as it is.  The value is compared byte for byte. *)
Theorem delete_by_value_removes_first (field : string) (e : HeaderEdit)
    (before after others : list string) :
  strings_EqualFold (FieldName e) field = true ->
  Action e = "delete" -> Index e <= 0 -> Value e <> EmptyString ->
  ~ In (Value e) before -> ~ In (Value e) others ->
  applyHeaderEdit field (before ++ Value e :: after) e = (before ++ after)%list
  /\ applyHeaderEdit field others e = others.
Proof.
  intros Hfold Hact Hidx Hval Hbefore Hothers.
  unfold applyHeaderEdit. rewrite Hfold, Hact. cbn [negb].
  change (String.eqb "delete" "add") with false.
  change (String.eqb "delete" "delete") with true. cbn iota.
  replace (0 <? Index e) with false by (symmetry; apply Z.ltb_ge; exact Hidx).
  destruct (String.eqb_spec (Value e) EmptyString) as [Heq|_]; [contradiction|].
  cbn [negb]. split.
  - now apply deleteFirst_first.
  - now apply deleteFirst_absent.
Qed.

Lemma firstn_skipn_middle (before after : list string) (x : string) :
  (firstn (length before) (before ++ x :: after)
   ++ skipn (S (length before)) (before ++ x :: after))%list
  = (before ++ after)%list.
Proof.
  induction before as [|y before IH]; [reflexivity|].
  cbn [length app firstn skipn]. cbn [skipn] in IH. now rewrite IH.
Qed.

(** X10.  A journal entry that deletes by index removes the value at that
    position, counted from 1 at the front, or from 1 at the end with
    [:last]; an index beyond the number of values removes nothing. *)
Theorem delete_by_index_removes_one (field : string) (e : HeaderEdit)
    (before after : list string) (x : string) :
  strings_EqualFold (FieldName e) field = true ->
  Action e = "delete" -> 0 < Index e ->
  (selectedIndex (Index e) (Last e)
     (Z.of_nat (length (before ++ x :: after))) = Z.of_nat (length before) ->
   applyHeaderEdit field (before ++ x :: after) e = (before ++ after)%list)
  /\ (forall values, Z.of_nat (length values) < Index e ->
        applyHeaderEdit field values e = values).
Proof.
  intros Hfold Hact Hidx. unfold applyHeaderEdit, selectedIndex.
  rewrite Hfold, Hact. cbn [negb].
  change (String.eqb "delete" "add") with false.
  change (String.eqb "delete" "delete") with true. cbn iota.
  replace (0 <? Index e) with true by (symmetry; apply Z.ltb_lt; exact Hidx).
  split.
  - intros ->.
    replace (0 <=? Z.of_nat (length before)) with true
      by (symmetry; apply Z.leb_le; lia).
    replace (Z.of_nat (length before) <? Z.of_nat (length (before ++ x :: after)))
      with true
      by (symmetry; apply Z.ltb_lt; rewrite length_app; cbn [length]; lia).
    cbn [andb]. rewrite Nat2Z.id.
    replace (Z.to_nat (Z.of_nat (length before) + 1)) with (S (length before)) by lia.
    apply firstn_skipn_middle.
  - intros values Hlen.
    destruct (Last e).
    + replace (0 <=? Z.of_nat (length values) - Index e) with false
        by (symmetry; apply Z.leb_gt; lia). reflexivity.
    + replace (Index e - 1 <? Z.of_nat (length values)) with false
        by (symmetry; apply Z.ltb_ge; lia). now rewrite andb_false_r.
Qed.

Lemma fold_applyHeaderEdit_unrelated (field : string) (journal : list HeaderEdit)
    (values : list string) :
  Forall (fun e => strings_EqualFold (FieldName e) field = false) journal ->
  fold_left (applyHeaderEdit field) journal values = values.
Proof.
  intros H. revert values. induction H as [|e journal He _ IH]; intros values;
    [reflexivity|].
  cbn [fold_left]. unfold applyHeaderEdit at 2. rewrite He. cbn [negb]. apply IH.
Qed.

(** X11.  The message view that replays the journal leaves a header alone
    that no entry of the journal names: the view gives the values of the
    message itself, and hands on an error of the message with no values.
    The size of the message is never touched. *)
Theorem editable_message_unrelated_journal
    (Original : Host.Message (list HeaderEdit)) (journal : list HeaderEdit)
    (key : string) :
  Forall (fun e => strings_EqualFold (FieldName e) key = false) journal ->
  Host.HeaderGet (EditableMessage Original) journal key
    = match Host.HeaderGet Original journal key with
      | (_, Some err) => ([], Some err)
      | (values, None) => (values, None)
      end
  /\ Host.MessageSize (EditableMessage Original) = Host.MessageSize Original.
Proof.
  intros H. split; [|reflexivity]. cbn [EditableMessage Host.HeaderGet].
  destruct (Host.HeaderGet Original journal key) as [values [err|]]; [reflexivity|].
  now rewrite fold_applyHeaderEdit_unrelated.
Qed.

(** X12.  A [deleteheader] with value patterns has nothing to delete, and
    leaves the runtime data as it is, when the message cannot be read, when
    the header has no value left after the journal is replayed, and when
    [:index] points outside the values. *)
Theorem deleteheader_nothing_to_delete (c : CmdDeleteHeader) (d : RuntimeData) :
  delValuePatterns c <> [] ->
  (let fieldName := expandVars d (delFieldName c) in
   let values := applyHeaderEditsToValues d fieldName
                   (fst (Host.HeaderGet (Msg d) (HeaderEdits d) fieldName)) in
   let idx := selectedIndex (delIndex c) (delLast c) (Z.of_nat (length values)) in
   snd (Host.HeaderGet (Msg d) (HeaderEdits d) fieldName) <> None
   \/ values = []
   \/ (0 < delIndex c /\ (idx < 0 \/ Z.of_nat (length values) <= idx))) ->
  CmdDeleteHeader_Execute c d = (None, d).
Proof.
  intros Hpat H. unfold CmdDeleteHeader_Execute.
  destruct (negb _); [reflexivity|].
  destruct (isProtectedHeader _); [reflexivity|].
  unfold expandVarsList.
  destruct (delValuePatterns c) as [|p ps]; [contradiction|].
  cbn [map length]. replace (Z.of_nat (S _) =? 0) with false
    by (symmetry; apply Z.eqb_neq; lia).
  cbv zeta in H. unfold selectedIndex in H.
  destruct (Host.HeaderGet (Msg d) (HeaderEdits d) (expandVars d (delFieldName c)))
    as [values [err|]]; [reflexivity|]. cbn [fst snd] in H.
  destruct H as [H|[H|[Hidx H]]].
  - contradiction.
  - now rewrite H.
  - destruct (_ =? 0); [reflexivity|].
    replace (0 <? delIndex c) with true by (symmetry; apply Z.ltb_lt; exact Hidx).
    match goal with |- context [(?a <? 0) || (?n <=? ?a)] =>
      replace ((a <? 0) || (n <=? a)) with true; [reflexivity|] end.
    symmetry. apply orb_true_iff.
    destruct H as [H|H]; [left; apply Z.ltb_lt|right; apply Z.leb_le]; exact H.
Qed.

(** *** Slices and searches *)

Lemma append_String (c : ascii) (a b : string) :
  String c a +:+ b = String c (a +:+ b).
Proof. reflexivity. Qed.

Lemma append_empty_l (a : string) : EmptyString +:+ a = a.
Proof. reflexivity. Qed.

Lemma append_empty_r (a : string) : a +:+ EmptyString = a.
Proof. induction a as [|c a IH]; [reflexivity|]. now rewrite append_String, IH. Qed.

Lemma append_assoc (a b c : string) : (a +:+ b) +:+ c = a +:+ (b +:+ c).
Proof.
  induction a as [|x a IH]; [reflexivity|]. now rewrite !append_String, IH.
Qed.

Lemma length_append (a b : string) :
  String.length (a +:+ b) = (String.length a + String.length b)%nat.
Proof.
  induction a as [|x a IH]; [reflexivity|].
  rewrite append_String. cbn [String.length]. now rewrite IH.
Qed.

Lemma len_append (a b : string) :
  GoString.len (a +:+ b) = GoString.len a + GoString.len b.
Proof. unfold GoString.len. rewrite length_append. lia. Qed.

Lemma len_nonneg (a : string) : 0 <= GoString.len a.
Proof. unfold GoString.len. lia. Qed.

Lemma len_zero (a : string) : GoString.len a = 0 -> a = EmptyString.
Proof. destruct a; [reflexivity|]. unfold GoString.len. cbn [String.length]. lia. Qed.

Lemma substring_prefix (a b : string) :
  String.substring 0 (String.length a) (a +:+ b) = a.
Proof.
  induction a as [|x a IH].
  - cbn [String.length]. now destruct b.
  - rewrite append_String. cbn [String.length String.substring]. now rewrite IH.
Qed.

Lemma substring_whole (a : string) :
  String.substring 0 (String.length a) a = a.
Proof.
  rewrite <- (append_empty_r a) at 2. apply substring_prefix.
Qed.

Lemma substring_skip (a b : string) (n : nat) :
  String.substring (String.length a) n (a +:+ b) = String.substring 0 n b.
Proof.
  induction a as [|x a IH]; [reflexivity|].
  rewrite append_String. cbn [String.length String.substring]. exact IH.
Qed.

Lemma substring_middle (a b c : string) :
  String.substring (String.length a) (String.length b) (a +:+ b +:+ c) = b.
Proof. rewrite substring_skip. apply substring_prefix. Qed.

Lemma slice_to_append (a b : string) :
  GoString.slice_to (a +:+ b) (GoString.len a) = a.
Proof.
  unfold GoString.slice_to, GoString.len. rewrite Nat2Z.id. apply substring_prefix.
Qed.

Lemma slice_from_append (a b : string) :
  GoString.slice_from (a +:+ b) (GoString.len a) = b.
Proof.
  unfold GoString.slice_from, GoString.len. rewrite Nat2Z.id, substring_skip.
  rewrite length_append.
  replace (String.length a + String.length b - String.length a)%nat
    with (String.length b) by lia.
  apply substring_whole.
Qed.

Lemma HasPrefix_append (p b : string) : GoString.HasPrefix (p +:+ b) p = true.
Proof.
  induction p as [|x p IH]; [now destruct b|].
  rewrite append_String. cbn [GoString.HasPrefix]. now rewrite Ascii.eqb_refl, IH.
Qed.

Lemma HasPrefix_split (s p : string) :
  GoString.HasPrefix s p = true -> exists b, s = p +:+ b.
Proof.
  revert s. induction p as [|x p IH]; intros s H.
  - now exists s.
  - destruct s as [|y s]; [discriminate|]. cbn [GoString.HasPrefix] in H.
    apply andb_true_iff in H as [Hxy Hp]. apply Ascii.eqb_eq in Hxy as ->.
    destruct (IH s Hp) as [b ->]. now exists b.
Qed.

(** A search that succeeds cuts the string at the match. *)
Lemma Index_from_found (s substr : string) (i k : Z) :
  GoString.Index_from i s substr = k -> k <> -1 -> 0 <= i ->
  exists a b, s = a +:+ substr +:+ b /\ k = i + GoString.len a.
Proof.
  revert i. induction s as [|c s IH]; intros i.
  - cbn [GoString.Index_from]. destruct (GoString.HasPrefix _ _) eqn:Hp.
    + intros <- _ _. destruct (HasPrefix_split _ _ Hp) as [b Hb].
      exists EmptyString, b. split; [exact Hb|].
      change (GoString.len EmptyString) with 0. lia.
    + intros <- H. contradiction.
  - cbn [GoString.Index_from]. destruct (GoString.HasPrefix _ _) eqn:Hp.
    + intros <- _ _. destruct (HasPrefix_split _ _ Hp) as [b Hb].
      exists EmptyString, b. split; [exact Hb|].
      change (GoString.len EmptyString) with 0. lia.
    + intros Hk Hne Hi. destruct (IH (i + 1) Hk Hne ltac:(lia)) as (a & b & -> & ->).
      exists (String c a), b. split; [reflexivity|].
      unfold GoString.len. cbn [String.length]. lia.
Qed.

(** The match a search finds is the first one. *)
Lemma Index_from_first (s substr : string) (i : Z) (a b : string) :
  s = a +:+ substr +:+ b ->
  i <= GoString.Index_from i s substr <= i + GoString.len a.
Proof.
  revert i a. induction s as [|c s IH]; intros i a Hs.
  - cbn [GoString.Index_from].
    destruct a as [|x a]; [|discriminate]. rewrite append_empty_l in Hs.
    destruct substr as [|y substr]; [|discriminate].
    cbn [GoString.HasPrefix]. change (GoString.len EmptyString) with 0. lia.
  - cbn [GoString.Index_from]. destruct (GoString.HasPrefix _ _) eqn:Hp.
    + pose proof (len_nonneg a). lia.
    + destruct a as [|x a].
      * rewrite append_empty_l in Hs. rewrite Hs, HasPrefix_append in Hp.
        discriminate.
      * rewrite append_String in Hs. injection Hs as _ Hs.
        specialize (IH (i + 1) a Hs).
        unfold GoString.len in *. cbn [String.length]. lia.
Qed.

Lemma LastIndexByte_from_bounds (s : string) (c : ascii) (i found : Z) :
  found < i ->
  GoString.LastIndexByte_from i s c found = found
  \/ i <= GoString.LastIndexByte_from i s c found < i + GoString.len s.
Proof.
  revert i found. induction s as [|b s IH]; intros i found Hf; [now left|].
  cbn [GoString.LastIndexByte_from].
  assert (Hlen : GoString.len (String b s) = GoString.len s + 1)
    by (unfold GoString.len; cbn [String.length]; lia).
  pose proof (len_nonneg s) as Hs.
  destruct (Ascii.eqb b c).
  - destruct (IH (i + 1) i ltac:(lia)) as [->|H]; right; lia.
  - destruct (IH (i + 1) found ltac:(lia)) as [->|H]; [now left|right; lia].
Qed.

(** The last occurrence of a byte: behind it the byte does not occur. *)
Lemma LastIndexByte_from_append (a b : string) (c : ascii) (i found : Z) :
  noByte c b = true ->
  GoString.LastIndexByte_from i (a +:+ String c b) c found = i + GoString.len a.
Proof.
  intros Hb. revert i found. induction a as [|x a IH]; intros i found.
  - rewrite append_empty_l. cbn [GoString.LastIndexByte_from].
    rewrite Ascii.eqb_refl.
    change (GoString.len EmptyString) with 0. rewrite Z.add_0_r.
    generalize (i + 1). clear found. revert Hb.
    induction b as [|y b IHb]; intros Hb j; [reflexivity|].
    cbn [noByte] in Hb. apply andb_true_iff in Hb as [Hy Hb].
    cbn [GoString.LastIndexByte_from].
    apply negb_true_iff in Hy. rewrite Hy. now apply IHb.
  - rewrite append_String. cbn [GoString.LastIndexByte_from]. rewrite IH.
    unfold GoString.len. cbn [String.length]. lia.
Qed.

Lemma LastIndexByte_from_none (s : string) (c : ascii) (i found : Z) :
  GoString.LastIndexByte_from i s c found = found -> found < i ->
  noByte c s = true.
Proof.
  revert i found. induction s as [|x s IH]; intros i found; [reflexivity|].
  cbn [GoString.LastIndexByte_from noByte]. intros Hk Hf.
  destruct (Ascii.eqb x c).
  - destruct (LastIndexByte_from_bounds s c (i + 1) i ltac:(lia)) as [H|H]; lia.
  - cbn [negb andb]. exact (IH (i + 1) found Hk ltac:(lia)).
Qed.

Lemma LastIndexByte_from_found (s : string) (c : ascii) (i found k : Z) :
  GoString.LastIndexByte_from i s c found = k -> k <> found -> found < i ->
  exists a b, s = a +:+ String c b /\ noByte c b = true
              /\ k = i + GoString.len a.
Proof.
  revert i found. induction s as [|x s IH]; intros i found.
  - cbn [GoString.LastIndexByte_from]. intros <- H. contradiction.
  - cbn [GoString.LastIndexByte_from]. intros Hk Hne Hf.
    destruct (Ascii.eqb_spec x c) as [->|Hxc].
    + destruct (Z.eq_dec k i) as [->|Hki].
      * exists EmptyString, s. repeat split.
        -- exact (LastIndexByte_from_none s c (i + 1) i Hk ltac:(lia)).
        -- change (GoString.len EmptyString) with 0. lia.
      * destruct (IH (i + 1) i Hk Hki ltac:(lia)) as (a & b & -> & Hb & ->).
        exists (String c a), b. repeat split; [exact Hb|].
        unfold GoString.len. cbn [String.length]. lia.
    + destruct (IH (i + 1) found Hk Hne ltac:(lia)) as (a & b & -> & Hb & ->).
      exists (String x a), b. repeat split; [exact Hb|].
      unfold GoString.len. cbn [String.length]. lia.
Qed.

(** *** Addresses *)

(** X13.  [split] cuts an address at its last at-sign: for an address that
    does not fold to [postmaster], it answers the local part and the domain
    without error exactly when the address is the local part, an at-sign and
    the domain, both of them non-empty and the domain free of at-signs. *)
Theorem split_at_last_at_sign (addr mailbox domain : string) :
  strings_EqualFold addr "postmaster" = false ->
  split addr = (mailbox, domain, None)
  <-> addr = mailbox +:+ "@" +:+ domain
      /\ mailbox <> EmptyString /\ domain <> EmptyString
      /\ noByte "@" domain = true.
Proof.
  intros Hpm. unfold split. rewrite Hpm. split.
  - destruct (GoString.LastIndexByte addr "@" =? -1) eqn:Hidx; [discriminate|].
    apply Z.eqb_neq in Hidx.
    destruct (LastIndexByte_from_found addr "@" 0 (-1) _ eq_refl Hidx ltac:(lia))
      as (a & b & -> & Hb & Hk).
    unfold GoString.LastIndexByte. rewrite Hk, Z.add_0_l.
    rewrite slice_to_append.
    change (a +:+ String "@" b) with (a +:+ ("@" +:+ b)).
    rewrite <- append_assoc.
    replace (GoString.len a + 1) with (GoString.len (a +:+ "@"))
      by (rewrite len_append; reflexivity).
    rewrite slice_from_append.
    destruct (String.eqb_spec a EmptyString) as [|Ha]; [discriminate|].
    destruct (String.eqb_spec b EmptyString) as [|Hb']; [discriminate|].
    intros H. injection H as <- <-. rewrite append_assoc. now repeat split.
  - intros (-> & Hm & Hd & Hno).
    unfold GoString.LastIndexByte.
    change (mailbox +:+ "@" +:+ domain) with (mailbox +:+ String "@" domain).
    rewrite (LastIndexByte_from_append _ _ _ _ _ Hno), Z.add_0_l.
    pose proof (len_nonneg mailbox) as Hlen.
    replace (GoString.len mailbox =? -1) with false
      by (symmetry; apply Z.eqb_neq; lia).
    rewrite slice_to_append.
    change (mailbox +:+ String "@" domain) with (mailbox +:+ ("@" +:+ domain)).
    rewrite <- append_assoc.
    replace (GoString.len mailbox + 1) with (GoString.len (mailbox +:+ "@"))
      by (rewrite len_append; reflexivity).
    rewrite slice_from_append.
    destruct (String.eqb_spec mailbox EmptyString) as [|_]; [contradiction|].
    destruct (String.eqb_spec domain EmptyString) as [|_]; [contradiction|].
    reflexivity.
Qed.

(** X14.  [splitSubaddress] cuts a local part at the first separator: the
    user, the separator and the detail make up the local part again, and no
    other cut at a separator has a shorter user.  A local part without
    separator is the user, with an empty detail. *)
Theorem splitSubaddress_first_separator (localPart : string) :
  (GoString.Contains localPart SubaddressSeparator = false ->
   splitSubaddress localPart = (localPart, EmptyString))
  /\ (GoString.Contains localPart SubaddressSeparator = true ->
      fst (splitSubaddress localPart) +:+ SubaddressSeparator
        +:+ snd (splitSubaddress localPart) = localPart
      /\ forall user detail,
           localPart = user +:+ SubaddressSeparator +:+ detail ->
           GoString.len (fst (splitSubaddress localPart)) <= GoString.len user).
Proof.
  unfold splitSubaddress. split.
  - intros H. now rewrite (Contains_false_Index _ _ H).
  - unfold GoString.Contains. intros H. apply Z.leb_le in H.
    replace (GoString.Index localPart SubaddressSeparator =? -1) with false
      by (symmetry; apply Z.eqb_neq; lia).
    cbn [fst snd]. unfold GoString.Index in *.
    destruct (Index_from_found localPart SubaddressSeparator 0 _ eq_refl
                ltac:(lia) ltac:(lia)) as (a & b & Hs & Hk).
    rewrite Hk, Z.add_0_l. clear H. subst localPart.
    rewrite slice_to_append.
    assert (Hdetail : GoString.slice_from (a +:+ SubaddressSeparator +:+ b)
                        (GoString.len a + GoString.len SubaddressSeparator) = b).
    { rewrite <- append_assoc, <- len_append. apply slice_from_append. }
    rewrite Hdetail. split; [reflexivity|].
    intros user detail Hcut.
    pose proof (Index_from_first _ SubaddressSeparator 0 user detail Hcut) as Hfirst.
    lia.
Qed.

(** *** ASCII case *)

Lemma mapBytes_append (f : ascii -> ascii) (a b : string) :
  mapBytes f (a +:+ b) = mapBytes f a +:+ mapBytes f b.
Proof.
  induction a as [|x a IH]; [reflexivity|].
  rewrite append_String. cbn [mapBytes]. now rewrite IH.
Qed.

Lemma mapBytes_no_upper (s : string) :
  hasUpper s = false -> mapBytes lowerByte s = s.
Proof.
  induction s as [|c s IH]; [reflexivity|]. cbn [hasUpper mapBytes].
  intros H. apply orb_false_iff in H as [Hc Hs]. rewrite (IH Hs).
  unfold lowerByte. now rewrite Hc.
Qed.

Lemma hasUpper_append (a b : string) :
  hasUpper (a +:+ b) = hasUpper a || hasUpper b.
Proof.
  induction a as [|x a IH]; [reflexivity|].
  rewrite append_String. cbn [hasUpper]. now rewrite IH, orb_assoc.
Qed.

Lemma byte_val_range (c : ascii) : 0 <= GoString.byte_val c < 256.
Proof.
  unfold GoString.byte_val. pose proof (N_ascii_bounded c). lia.
Qed.

Lemma lowerByte_not_upper (c : ascii) :
  isUpperByte (GoString.byte_val (lowerByte c)) = false.
Proof.
  unfold lowerByte. destruct (isUpperByte (GoString.byte_val c)) eqn:Hc;
    [|exact Hc].
  unfold isUpperByte in *. apply andb_true_iff in Hc as [H1 H2].
  apply Z.leb_le in H1, H2. rewrite byte_val_of by lia.
  apply andb_false_iff. right. apply Z.leb_gt. lia.
Qed.

Lemma hasUpper_mapBytes_lowerByte (s : string) :
  hasUpper (mapBytes lowerByte s) = false.
Proof.
  induction s as [|c s IH]; [reflexivity|]. cbn [mapBytes hasUpper].
  now rewrite lowerByte_not_upper, IH.
Qed.

Lemma length_mapBytes (f : ascii -> ascii) (s : string) :
  String.length (mapBytes f s) = String.length s.
Proof. induction s as [|c s IH]; [reflexivity|]. cbn. now rewrite IH. Qed.

Lemma toLowerASCII_mapBytes (s : string) : toLowerASCII s = mapBytes lowerByte s.
Proof.
  unfold toLowerASCII. destruct (hasUpper s) eqn:H; [reflexivity|].
  cbn [negb]. symmetry. now apply mapBytes_no_upper.
Qed.

(** The second loop of [toLowerASCII]: the builder holds the lowered bytes
    up to [pos], and no byte between [pos] and the byte at hand is upper
    case. *)
Lemma toLowerASCII_loop_spec (rest p1 p2 : string) :
  hasUpper p2 = false ->
  exists q1 q2,
    toLowerASCII_loop (p1 +:+ p2 +:+ rest) rest
      (GoString.len (p1 +:+ p2)) (GoString.len p1) (mapBytes lowerByte p1)
    = (mapBytes lowerByte q1, GoString.len q1)
    /\ p1 +:+ p2 +:+ rest = q1 +:+ q2 /\ hasUpper q2 = false.
Proof.
  revert p1 p2. induction rest as [|c rest IH]; intros p1 p2 Hp2.
  - exists p1, p2. cbn [toLowerASCII_loop]. rewrite append_empty_r. auto.
  - cbn [toLowerASCII_loop].
    destruct (isUpperByte (GoString.byte_val c)) eqn:Hc.
    + (* an upper-case byte: the bytes since [pos] and the lowered byte are written *)
      assert (Hb : (if GoString.len p1 <? GoString.len (p1 +:+ p2)
                    then mapBytes lowerByte p1
                           +:+ String.substring (Z.to_nat (GoString.len p1))
                                 (Z.to_nat (GoString.len (p1 +:+ p2))
                                  - Z.to_nat (GoString.len p1))
                                 (p1 +:+ p2 +:+ String c rest)
                    else mapBytes lowerByte p1)
                   = mapBytes lowerByte (p1 +:+ p2)).
      { rewrite mapBytes_append, (mapBytes_no_upper p2 Hp2).
        rewrite len_append. unfold GoString.len. rewrite !Nat2Z.id.
        destruct (Z.ltb_spec (Z.of_nat (String.length p1))
                    (Z.of_nat (String.length p1) + Z.of_nat (String.length p2)))
          as [Hlt|Hge].
        - f_equal. rewrite <- Nat2Z.inj_add, Nat2Z.id.
          replace (String.length p1 + String.length p2 - String.length p1)%nat
            with (String.length p2) by lia.
          apply substring_middle.
        - destruct p2 as [|x p2]; [now rewrite append_empty_r|].
          cbn [String.length] in Hge. lia. }
      rewrite Hb.
      assert (Hlow : GoString.byte_of
                       ((GoString.byte_val c + (0x61 - 0x41)) mod 256)
                     = lowerByte c).
      { unfold lowerByte. rewrite Hc. f_equal. unfold isUpperByte in Hc.
        apply andb_true_iff in Hc as [H1 H2]. apply Z.leb_le in H1, H2.
        apply Z.mod_small. lia. }
      rewrite Hlow.
      change (mapBytes lowerByte (p1 +:+ p2) +:+ String (lowerByte c) EmptyString)
        with (mapBytes lowerByte (p1 +:+ p2)
              +:+ mapBytes lowerByte (String c EmptyString)).
      rewrite <- mapBytes_append.
      replace (GoString.len (p1 +:+ p2) + 1)
        with (GoString.len ((p1 +:+ p2) +:+ String c EmptyString))
        by (rewrite (len_append (p1 +:+ p2)); reflexivity).
      destruct (IH ((p1 +:+ p2) +:+ String c EmptyString) EmptyString eq_refl)
        as (q1 & q2 & Hloop & Hs & Hq2).
      rewrite !append_empty_r in Hloop.
      assert (Heq : ((p1 +:+ p2) +:+ String c EmptyString) +:+ EmptyString +:+ rest
                    = p1 +:+ p2 +:+ String c rest)
        by (now rewrite !append_assoc).
      rewrite Heq in Hloop, Hs. exists q1, q2. auto.
    + (* any other byte is left for later *)
      replace (GoString.len (p1 +:+ p2) + 1)
        with (GoString.len (p1 +:+ (p2 +:+ String c EmptyString)))
        by (rewrite <- append_assoc, (len_append (p1 +:+ p2)); reflexivity).
      destruct (IH p1 (p2 +:+ String c EmptyString)) as (q1 & q2 & Hloop & Hs & Hq2).
      { rewrite hasUpper_append, Hp2. cbn [hasUpper]. now rewrite Hc. }
      assert (Heq : p1 +:+ (p2 +:+ String c EmptyString) +:+ rest
                    = p1 +:+ p2 +:+ String c rest)
        by (now rewrite !append_assoc).
      rewrite Heq in Hloop, Hs. exists q1, q2. auto.
Qed.

(** X15.  [toLowerASCII] as it is written, with its builder, returns the
    string in which every byte [A] to [Z] is replaced by its lower-case
    letter and every other byte stands as it was: the copy loop loses and
    repeats no byte.  [toLowerASCII] above is that function. *)
Theorem toLowerASCII_builder_lowers (s : string) :
  toLowerASCII_builder s = mapBytes lowerByte s
  /\ toLowerASCII_builder s = toLowerASCII s.
Proof.
  assert (H : toLowerASCII_builder s = mapBytes lowerByte s).
  { unfold toLowerASCII_builder. destruct (hasUpper s) eqn:Hup; cbn [negb].
    - destruct (toLowerASCII_loop_spec s EmptyString EmptyString eq_refl)
        as (q1 & q2 & Hloop & Hs & Hq2).
      change (EmptyString +:+ EmptyString +:+ s) with s in Hloop, Hs.
      change (GoString.len (EmptyString +:+ EmptyString)) with 0 in Hloop.
      change (GoString.len EmptyString) with 0 in Hloop.
      change (mapBytes lowerByte EmptyString) with EmptyString in Hloop.
      rewrite Hloop. rewrite Hs at 2 3. rewrite slice_from_append.
      rewrite Hs, mapBytes_append, (mapBytes_no_upper q2 Hq2), len_append.
      destruct (Z.ltb_spec (GoString.len q1) (GoString.len q1 + GoString.len q2))
        as [_|Hge]; [reflexivity|].
      pose proof (len_nonneg q2).
      rewrite (len_zero q2) by lia. now rewrite append_empty_r.
    - symmetry. now apply mapBytes_no_upper. }
  split; [exact H|]. now rewrite H, toLowerASCII_mapBytes.
Qed.

(** X16.  [toLowerASCII] keeps the length of a string and lowers a lowered
    string no further; under [i;ascii-casemap] the match-types [:is],
    [:contains] and [:value] answer for a value and a key as they answer for
    their lowered forms, so the ASCII case of neither matters. *)
Theorem casemap_ignores_ascii_case (mt : Match) (rel : Relational)
    (value key : string) :
  mt = MatchIs \/ mt = MatchContains \/ mt = MatchValue ->
  GoString.len (toLowerASCII value) = GoString.len value
  /\ toLowerASCII (toLowerASCII value) = toLowerASCII value
  /\ testString ComparatorASCIICaseMap mt rel (toLowerASCII value)
       (toLowerASCII key)
     = testString ComparatorASCIICaseMap mt rel value key.
Proof.
  assert (Hidem : forall s, toLowerASCII (toLowerASCII s) = toLowerASCII s).
  { intros s. unfold toLowerASCII at 1.
    rewrite toLowerASCII_mapBytes, hasUpper_mapBytes_lowerByte. reflexivity. }
  intros Hmt. split; [|split].
  - rewrite toLowerASCII_mapBytes. unfold GoString.len.
    now rewrite length_mapBytes.
  - apply Hidem.
  - destruct Hmt as [->|[->| ->]]; cbn [testString]; now rewrite !Hidem.
Qed.

(** *** Regular expressions *)

(** X17.  [matchRegex] answers true exactly when the pattern and the value
    are within the default limits, the pattern compiles within the time
    budget and the engine finds a match within it; the captures are then
    the submatches of the engine, and there is no error. *)
Theorem matchRegex_true_iff (pat value : string) (matches : list string) :
  matchRegex pat value = (true, matches, None)
  <-> GoString.len pat <= MaxPatternLength DefaultRegexLimits
      /\ GoString.len value <= MaxInputLength DefaultRegexLimits
      /\ exists re,
           regexp_Compile (MaxExecTime DefaultRegexLimits) pat = Compiled re
           /\ regexp_FindStringSubmatch (MaxExecTime DefaultRegexLimits) re value
              = Submatches (Some matches).
Proof.
  unfold matchRegex, CompileSafeRegex, FindSubmatch. split.
  - destruct (Z.ltb_spec (MaxPatternLength DefaultRegexLimits) (GoString.len pat))
      as [|Hpat]; [discriminate|].
    destruct (regexp_Compile _ pat) as [re| |]; try discriminate.
    cbn [limits pattern].
    destruct (Z.ltb_spec (MaxInputLength DefaultRegexLimits) (GoString.len value))
      as [|Hin]; [discriminate|].
    destruct (regexp_FindStringSubmatch _ re value) as [[ms|]| |] eqn:Hf;
      try discriminate.
    intros H. injection H as <-. repeat split; try assumption.
    exists re. split; [reflexivity|exact Hf].
  - intros (Hpat & Hin & re & Hc & Hf).
    destruct (Z.ltb_spec (MaxPatternLength DefaultRegexLimits) (GoString.len pat));
      [lia|].
    rewrite Hc. cbn [limits pattern].
    destruct (Z.ltb_spec (MaxInputLength DefaultRegexLimits) (GoString.len value));
      [lia|].
    now rewrite Hf.
Qed.

(** *** Envelope addresses *)

Lemma noByte_append (c : ascii) (a b : string) :
  noByte c (a +:+ b) = noByte c a && noByte c b.
Proof.
  induction a as [|x a IH]; [reflexivity|].
  rewrite append_String. cbn [noByte]. now rewrite IH, andb_assoc.
Qed.

Lemma HasPrefix_byte (s : string) (c : ascii) :
  GoString.HasPrefix s (String c EmptyString)
  = match s with
    | EmptyString => false
    | String b _ => Ascii.eqb b c
    end.
Proof.
  destruct s as [|b s]; [reflexivity|]. cbn [GoString.HasPrefix].
  replace (GoString.HasPrefix s EmptyString) with true by (now destruct s).
  rewrite andb_true_r. apply Ascii.eqb_sym.
Qed.

Lemma Index_from_byte_absent (s : string) (c : ascii) (i : Z) :
  noByte c s = true -> GoString.Index_from i s (String c EmptyString) = -1.
Proof.
  revert i. induction s as [|b s IH]; intros i H; [reflexivity|].
  cbn [noByte] in H. apply andb_true_iff in H as [Hb Hs].
  apply negb_true_iff in Hb.
  cbn [GoString.Index_from]. rewrite HasPrefix_byte, Hb. now apply IH.
Qed.

Lemma Index_from_byte_first (a b : string) (c : ascii) (i : Z) :
  noByte c a = true ->
  GoString.Index_from i (a +:+ String c b) (String c EmptyString)
  = i + GoString.len a.
Proof.
  revert i. induction a as [|x a IH]; intros i H.
  - rewrite append_empty_l. cbn [GoString.Index_from].
    rewrite HasPrefix_byte, Ascii.eqb_refl.
    change (GoString.len EmptyString) with 0. lia.
  - cbn [noByte] in H. apply andb_true_iff in H as [Hx Ha].
    apply negb_true_iff in Hx.
    rewrite append_String. cbn [GoString.Index_from].
    rewrite HasPrefix_byte, Hx, (IH _ Ha).
    unfold GoString.len. cbn [String.length]. lia.
Qed.

Lemma Contains_byte (s : string) (c : ascii) :
  GoString.Contains s (String c EmptyString) = negb (noByte c s).
Proof.
  unfold GoString.Contains, GoString.Index.
  destruct (noByte c s) eqn:Hno; cbn [negb].
  - now rewrite Index_from_byte_absent.
  - assert (Hex : exists a b, s = a +:+ String c b /\ noByte c a = true).
    { clear -Hno. induction s as [|x s IH]; [discriminate|].
      cbn [noByte] in Hno. destruct (Ascii.eqb_spec x c) as [->|Hxc].
      - now exists EmptyString, s.
      - cbn [negb andb] in Hno. destruct (IH Hno) as (a & b & -> & Ha).
        exists (String x a), b. split; [reflexivity|]. cbn [noByte].
        destruct (Ascii.eqb_spec x c); [contradiction|]. exact Ha. }
    destruct Hex as (a & b & -> & Ha). rewrite (Index_from_byte_first _ _ _ _ Ha).
    apply Z.leb_le. pose proof (len_nonneg a). lia.
Qed.

Lemma CountByte_nonneg (s : string) (c : ascii) : 0 <= GoStrings.CountByte s c.
Proof.
  induction s as [|b s IH]; [reflexivity|]. cbn [GoStrings.CountByte].
  destruct (Ascii.eqb b c); lia.
Qed.

Lemma CountByte_zero (s : string) (c : ascii) :
  GoStrings.CountByte s c = 0 <-> noByte c s = true.
Proof.
  induction s as [|b s IH]; [easy|]. cbn [GoStrings.CountByte noByte].
  pose proof (CountByte_nonneg s c). destruct (Ascii.eqb b c); cbn [negb andb].
  - split; [lia|discriminate].
  - rewrite <- IH. split; lia.
Qed.

Lemma CountByte_append (a b : string) (c : ascii) :
  GoStrings.CountByte (a +:+ b) c
  = GoStrings.CountByte a c + GoStrings.CountByte b c.
Proof.
  induction a as [|x a IH]; [reflexivity|].
  rewrite append_String. cbn [GoStrings.CountByte]. rewrite IH. lia.
Qed.

Lemma CountByte_one (s : string) (c : ascii) :
  GoStrings.CountByte s c = 1 ->
  exists a b, s = a +:+ String c b /\ noByte c a = true /\ noByte c b = true.
Proof.
  induction s as [|x s IH]; [discriminate|]. cbn [GoStrings.CountByte].
  destruct (Ascii.eqb_spec x c) as [->|Hxc]; intros H.
  - exists EmptyString, s. repeat split. apply CountByte_zero. lia.
  - destruct (IH ltac:(lia)) as (a & b & -> & Ha & Hb).
    exists (String x a), b. repeat split; [|exact Hb]. cbn [noByte].
    destruct (Ascii.eqb_spec x c); [contradiction|]. exact Ha.
Qed.

Lemma cut_unique (c : ascii) (a b a' b' : string) :
  noByte c a = true -> noByte c a' = true ->
  a +:+ String c b = a' +:+ String c b' -> a = a' /\ b = b'.
Proof.
  revert a'. induction a as [|x a IH]; intros [|x' a'] Ha Ha' Heq.
  - rewrite !append_empty_l in Heq. now injection Heq as ->.
  - rewrite append_empty_l, append_String in Heq. injection Heq as <- _.
    cbn [noByte] in Ha'. now rewrite Ascii.eqb_refl in Ha'.
  - rewrite append_empty_l, append_String in Heq. injection Heq as -> _.
    cbn [noByte] in Ha. now rewrite Ascii.eqb_refl in Ha.
  - rewrite !append_String in Heq. injection Heq as -> Heq.
    cbn [noByte] in Ha, Ha'.
    apply andb_true_iff in Ha as [_ Ha]. apply andb_true_iff in Ha' as [_ Ha'].
    destruct (IH a' Ha Ha' Heq) as [-> ->]. now split.
Qed.

Lemma SplitN2_byte (a b : string) (c : ascii) :
  noByte c a = true ->
  GoStrings.SplitN2 (a +:+ String c b) (String c EmptyString) = [a; b].
Proof.
  intros Ha. unfold GoStrings.SplitN2, GoString.Index.
  rewrite (Index_from_byte_first _ _ _ _ Ha), Z.add_0_l.
  pose proof (len_nonneg a).
  destruct (Z.ltb_spec (GoString.len a) 0); [lia|].
  rewrite slice_to_append.
  change (a +:+ String c b) with (a +:+ (String c EmptyString +:+ b)).
  rewrite <- append_assoc, <- len_append, slice_from_append. reflexivity.
Qed.

Lemma SplitByte_absent (s : string) (c : ascii) :
  noByte c s = true -> GoStrings.SplitByte s c = [s].
Proof.
  induction s as [|b s IH]; [reflexivity|]. cbn [noByte GoStrings.SplitByte].
  intros H. apply andb_true_iff in H as [Hb Hs]. apply negb_true_iff in Hb.
  now rewrite Hb, (IH Hs).
Qed.

Lemma HasSuffix_append (s suffix : string) :
  GoStrings.HasSuffix (s +:+ suffix) suffix = true.
Proof.
  unfold GoStrings.HasSuffix. rewrite len_append.
  pose proof (len_nonneg s).
  replace (GoString.len s + GoString.len suffix - GoString.len suffix)
    with (GoString.len s) by lia.
  rewrite slice_from_append, String.eqb_refl.
  destruct (Z.leb_spec (GoString.len suffix) (GoString.len s + GoString.len suffix));
    [reflexivity|lia].
Qed.

Lemma slice_brackets (inner : string) :
  GoStrings.slice ("<" +:+ inner +:+ ">") 1
    (GoString.len ("<" +:+ inner +:+ ">") - 1) = inner.
Proof.
  unfold GoStrings.slice. rewrite !len_append.
  change (GoString.len "<") with 1. change (GoString.len ">") with 1.
  unfold GoString.len.
  replace (Z.to_nat (1 + (Z.of_nat (String.length inner) + 1) - 1) - Z.to_nat 1)%nat
    with (String.length inner) by lia.
  change (Z.to_nat 1) with (String.length "<").
  apply substring_middle.
Qed.

Lemma bracketed_not_null (inner : string) :
  inner <> EmptyString -> String.eqb ("<" +:+ inner +:+ ">") "<>" = false.
Proof.
  intros H. destruct inner as [|c inner]; [contradiction|].
  apply String.eqb_neq. intros Heq.
  change ("<" +:+ String c inner +:+ ">")
    with (String "<" (String c (inner +:+ ">"))) in Heq.
  inversion Heq as [[Hc Hrest]]. destruct inner; discriminate.
Qed.

(** The head of [parseEnvelopeAddress] on an address in angle brackets. *)
Lemma parseEnvelopeAddress_inner (inner : string) :
  inner <> EmptyString ->
  parseEnvelopeAddress ("<" +:+ inner +:+ ">")
  = if GoString.Contains inner ":" then
      match GoStrings.SplitN2 inner ":" with
      | [sourceRoute; actualAddr] =>
        if negb (GoString.HasPrefix sourceRoute "@")
        then (EmptyString, Some ErrSourceRouteStart)
        else if GoStrings.CountByte sourceRoute "," + 1
                <? GoStrings.CountByte sourceRoute "@"
        then (EmptyString, Some ErrSourceRouteHostList)
        else
          match validateHosts (GoStrings.SplitByte sourceRoute ",") with
          | Some err => (EmptyString, Some err)
          | None => (actualAddr, None)
          end
      | _ => (EmptyString, Some ErrSourceRouteSyntax)
      end
    else if String.eqb inner "MAILER-DAEMON" then (inner, None)
    else if negb (GoStrings.CountByte inner "@" =? 1) then
      if GoStrings.CountByte inner "@" =? 0
      then (EmptyString, Some ErrEnvelopeMissingAtSign)
      else (EmptyString, Some ErrEnvelopeMultipleAtSigns)
    else
      match GoStrings.SplitN2 inner "@" with
      | [local; domain] =>
        if String.eqb local EmptyString || String.eqb domain EmptyString
        then (EmptyString, Some ErrEnvelopeEmptyPart)
        else (inner, None)
      | _ => (EmptyString, Some ErrEnvelopeEmptyPart)
      end.
Proof.
  intros Hinner. unfold parseEnvelopeAddress.
  rewrite (bracketed_not_null inner Hinner).
  assert (Hsuffix : GoStrings.HasSuffix ("<" +:+ inner +:+ ">") ">" = true)
    by (rewrite <- append_assoc; apply HasSuffix_append).
  rewrite (HasPrefix_append "<" (inner +:+ ">")), Hsuffix.
  cbn [negb orb]. now rewrite slice_brackets.
Qed.

(** X18.  An envelope address in angle brackets without a colon is accepted
    exactly when it is [MAILER-DAEMON] or has one at-sign with something on
    both sides; the answer is then the address without its brackets.  Any
    other such address is an error, with an empty answer. *)
Theorem parseEnvelopeAddress_bracketed (inner : string) :
  inner <> EmptyString -> noByte ":" inner = true ->
  (parseEnvelopeAddress ("<" +:+ inner +:+ ">") = (inner, None)
   <-> inner = "MAILER-DAEMON"
       \/ exists local domain,
            inner = local +:+ "@" +:+ domain
            /\ local <> EmptyString /\ domain <> EmptyString
            /\ noByte "@" local = true /\ noByte "@" domain = true)
  /\ (parseEnvelopeAddress ("<" +:+ inner +:+ ">") = (inner, None)
      \/ exists err,
           parseEnvelopeAddress ("<" +:+ inner +:+ ">") = (EmptyString, Some err)).
Proof.
  intros Hinner Hcolon. rewrite (parseEnvelopeAddress_inner inner Hinner).
  rewrite Contains_byte, Hcolon. cbn [negb].
  destruct (String.eqb_spec inner "MAILER-DAEMON") as [Hmd|Hmd].
  { split; [|now left]. split; [now left|reflexivity]. }
  destruct (Z.eqb_spec (GoStrings.CountByte inner "@") 1) as [Hone|Hone];
    cbn [negb].
  - destruct (CountByte_one _ _ Hone) as (a & b & -> & Ha & Hb).
    rewrite (SplitN2_byte _ _ _ Ha).
    destruct (String.eqb_spec a EmptyString) as [->|Hane]; cbn [orb].
    + split; [|right; eauto]. split; [discriminate|].
      intros [H|(local & domain & Heq & Hl & _ & Hnl & _)]; [contradiction|].
      exfalso. apply Hl.
      change (local +:+ "@" +:+ domain) with (local +:+ String "@" domain) in Heq.
      now destruct (cut_unique _ _ _ _ _ Ha Hnl Heq) as [<- _].
    + destruct (String.eqb_spec b EmptyString) as [->|Hbne].
      * split; [|right; eauto]. split; [discriminate|].
        intros [H|(local & domain & Heq & _ & Hd & Hnl & Hnd)]; [contradiction|].
        exfalso. apply Hd.
        change (local +:+ "@" +:+ domain) with (local +:+ String "@" domain) in Heq.
        now destruct (cut_unique _ _ _ _ _ Ha Hnl Heq) as [_ <-].
      * split; [|now left]. split; [|reflexivity].
        intros _. right. exists a, b. now repeat split.
  - assert (Herr : exists err,
              (if GoStrings.CountByte inner "@" =? 0
               then (EmptyString, Some ErrEnvelopeMissingAtSign)
               else (EmptyString, Some ErrEnvelopeMultipleAtSigns))
              = (EmptyString, Some err))
      by (destruct (_ =? 0); eauto).
    destruct Herr as [err Herr]. rewrite Herr.
    split; [|right; eauto]. split; [discriminate|].
    intros [H|(local & domain & -> & _ & _ & Hnl & Hnd)]; [contradiction|].
    exfalso. apply Hone.
    change (local +:+ "@" +:+ domain) with (local +:+ (String "@" domain)).
    rewrite CountByte_append. cbn [GoStrings.CountByte]. rewrite Ascii.eqb_refl.
    apply CountByte_zero in Hnl, Hnd. lia.
Qed.

(** X19.  Behind a source route the address is not looked at: for a route
    of one well-formed host, [parseEnvelopeAddress] answers whatever stands
    between the first colon and the closing bracket, be it an address or
    not. *)
Theorem parseEnvelopeAddress_source_route (name rest : string) :
  validHostName name = true ->
  strings_TrimSpace ("@" +:+ name) = "@" +:+ name ->
  parseEnvelopeAddress ("<" +:+ ("@" +:+ name +:+ ":" +:+ rest) +:+ ">")
  = (rest, None).
Proof.
  unfold validHostName. rewrite !andb_true_iff, !negb_true_iff.
  intros [[[[[[Hne Hat] Hcomma] Hcolon] Hdots] Hdot1] Hdot2] Htrim.
  rewrite parseEnvelopeAddress_inner by discriminate.
  assert (Hroute : noByte ":" ("@" +:+ name) = true) by exact Hcolon.
  change ("@" +:+ name +:+ ":" +:+ rest)
    with (("@" +:+ name) +:+ String ":" rest).
  assert (Hcontains : GoString.Contains (("@" +:+ name) +:+ String ":" rest) ":"
                      = true).
  { rewrite Contains_byte, noByte_append. cbn [noByte].
    rewrite Ascii.eqb_refl. cbn [negb andb]. now rewrite andb_false_r. }
  rewrite Hcontains, (SplitN2_byte _ _ _ Hroute).
  rewrite (HasPrefix_append "@" name). cbn [negb].
  assert (Hc1 : GoStrings.CountByte ("@" +:+ name) "," = 0)
    by (apply CountByte_zero; exact Hcomma).
  assert (Hc2 : GoStrings.CountByte ("@" +:+ name) "@" = 1).
  { change ("@" +:+ name) with (String "@" name). cbn [GoStrings.CountByte].
    rewrite Ascii.eqb_refl. apply CountByte_zero in Hat. lia. }
  rewrite Hc1, Hc2. cbn [Z.add Z.ltb Z.compare Pos.compare Pos.compare_cont].
  rewrite (SplitByte_absent ("@" +:+ name) ","  Hcomma).
  cbn [validateHosts]. rewrite Htrim.
  rewrite (HasPrefix_append "@" name).
  assert (Hlen : (GoString.len ("@" +:+ name) <? 2) = false).
  { apply Z.ltb_ge. rewrite len_append. change (GoString.len "@") with 1.
    destruct name as [|c name]; [discriminate|].
    unfold GoString.len. cbn [String.length]. lia. }
  rewrite Hlen, Hc2. cbn [negb orb Z.eqb Pos.eqb].
  change 1 with (GoString.len "@") at 1. rewrite slice_from_append.
  now rewrite Hne, Hdots, Hdot1, Hdot2.
Qed.

(** *** The envelope test and the address test *)

(** X20.  An envelope test never matches an address that does not parse:
    when every field it names is the sender or the recipient of the
    envelope, there and invalid, the test fails, or counts nothing under
    [:count], whatever its matcher, and leaves the runtime data alone. *)
Theorem envelope_invalid_never_matches (m : matcherTest) (part : AddressPart)
    (fields : list string) (d : RuntimeData) :
  forallb (envelopeInvalid d) fields = true ->
  EnvelopeTest_Check m part fields d
  = (if isCount m then countMatches m d 0 else false, None, d).
Proof.
  unfold EnvelopeTest_Check. generalize 0.
  induction fields as [|field fields IH]; intros n H.
  - cbn [EnvelopeTest_fields]. now destruct (isCount m).
  - cbn [forallb] in H. apply andb_true_iff in H as [Hf Hrest].
    cbn [EnvelopeTest_fields]. unfold envelopeInvalid in Hf.
    destruct (envelopeValue d (strings_ToLower (expandVars d field)))
      as [value|]; [|discriminate].
    rewrite Hf. now apply IH.
Qed.

(** X21.  An address test reads the headers on its list of address headers
    only: when none of the headers it names, lowered and expanded, is on
    the list, the test fails, or counts nothing under [:count], without a
    look at the message, whatever the message holds under those names. *)
Theorem address_test_skips_other_headers
    (commentRegex_remove : string -> string)
    (mail_ParseAddressList : string -> option (list string))
    (m : matcherTest) (part : AddressPart) (hdrs : list string)
    (d : RuntimeData) :
  forallb (fun hdr => negb (isAddressHeader d hdr)) hdrs = true ->
  AddressTest_Check commentRegex_remove mail_ParseAddressList m part hdrs d
  = (if isCount m then countMatches m d 0 else false, None, d).
Proof.
  unfold AddressTest_Check. generalize 0.
  induction hdrs as [|hdr hdrs IH]; intros n H.
  - cbn [AddressTest_headers]. now destruct (isCount m).
  - cbn [forallb] in H. apply andb_true_iff in H as [Hh Hrest].
    cbn [AddressTest_headers]. unfold isAddressHeader in Hh. rewrite Hh.
    now apply IH.
Qed.

(** *** Loading *)

Lemma fold_bindSizeArg_flags (l : list SizeArg) (size : Z) (over under : bool) :
  snd (fst (fold_left bindSizeArg l (size, over, under)))
  = over || existsb (fun a => match a with ArgOver => true | _ => false end) l
  /\ snd (fold_left bindSizeArg l (size, over, under))
     = under || existsb (fun a => match a with ArgUnder => true | _ => false end) l.
Proof.
  revert size over under. induction l as [|a l IH]; intros size over under.
  - cbn [fold_left existsb fst snd]. now rewrite !orb_false_r.
  - cbn [fold_left existsb]. destruct a; cbn [bindSizeArg orb].
    + destruct (IH size over true) as [-> ->]. now rewrite orb_true_r.
    + destruct (IH size true under) as [-> ->]. now rewrite orb_true_r.
    + apply IH.
Qed.

(** X22.  A [size] test that loads has exactly one of [:over] and [:under]:
    with both tags or with neither [loadSizeTest] fails, whatever the binder
    said.  Checking a loaded test is therefore one strict comparison of the
    size of the message with the number. *)
Theorem loadSizeTest_one_comparison (args : list SizeArg) (err : option Err)
    (t : Test) (e : option LoadSizeErr) (d : RuntimeData) :
  loadSizeTest args err = (Some t, e) ->
  exists size over,
    t = SizeTest size over (negb over)
    /\ existsb (fun a => match a with ArgOver => true | _ => false end) args = over
    /\ existsb (fun a => match a with ArgUnder => true | _ => false end) args
       = negb over
    /\ Check t d
       = (if over then size <? Host.MessageSize (Msg d)
          else Host.MessageSize (Msg d) <? size, None, d).
Proof.
  unfold loadSizeTest.
  pose proof (fold_bindSizeArg_flags args 0 false false) as Hfold.
  cbn [orb] in Hfold.
  destruct (fold_left bindSizeArg args (0, false, false)) as [[size over] under].
  cbn [fst snd] in Hfold. destruct Hfold as [Hover Hunder].
  destruct (Bool.eqb under over) eqn:Heq; [discriminate|].
  intros H. injection H as <- _.
  exists size, over.
  assert (Hu : under = negb over) by (destruct under, over; easy).
  split; [now rewrite Hu|]. split; [now rewrite <- Hover|].
  split; [now rewrite <- Hunder|]. rewrite Hu.
  cbn [Check]. unfold SizeTest_Check.
  destruct over; cbn [negb andb]; destruct (_ <? _); reflexivity.
Qed.

(** *** Vacation responses *)

(** X23.  The responses of [vacation] are kept by sender: of two [vacation]
    commands that answer, the second replaces the response of the first and
    leaves the responses to other senders as they were. *)
Theorem vacation_last_response_wins (c1 c2 : CmdVacation) (d : RuntimeData) :
  Host.EnvelopeFrom (Envelope d) <> EmptyString ->
  existsb (fun addr => String.eqb addr (Host.EnvelopeFrom (Envelope d)))
    (expandVarsList d (vacAddresses c1)) = false ->
  existsb (fun addr => String.eqb addr (Host.EnvelopeFrom (Envelope d)))
    (expandVarsList (snd (CmdVacation_Execute c1 d)) (vacAddresses c2)) = false ->
  responsesOf (snd (CmdVacation_Execute c2 (snd (CmdVacation_Execute c1 d))))
  = <[ Host.EnvelopeFrom (Envelope d) :=
         vacationResponse c2 (snd (CmdVacation_Execute c1 d)) ]> (responsesOf d).
Proof.
  intros Hsender H1 H2.
  assert (Hne : String.eqb (Host.EnvelopeFrom (Envelope d)) EmptyString = false)
    by now apply String.eqb_neq.
  assert (Hrun1 : CmdVacation_Execute c1 d
                  = (None,
                     set_ImplicitKeep false
                       (set_VacationResponses
                          (Some (<[ Host.EnvelopeFrom (Envelope d) :=
                                      vacationResponse c1 d ]> (responsesOf d)))
                          d))).
  { unfold CmdVacation_Execute. rewrite Hne, H1. reflexivity. }
  rewrite Hrun1 in H2 |- *. cbn [snd] in H2 |- *.
  set (d1 := set_ImplicitKeep false _) in *.
  unfold CmdVacation_Execute.
  change (Host.EnvelopeFrom (Envelope d1)) with (Host.EnvelopeFrom (Envelope d)).
  rewrite Hne, H2. cbn [snd]. unfold responsesOf at 1.
  cbn [VacationResponses set_ImplicitKeep set_VacationResponses d1].
  apply insert_insert_eq.
Qed.

(** *** The date test *)

Lemma countValidDates_filter (L : TimeLibrary) (values : list string) (n : Z) :
  countValidDates L values n
  = n + Z.of_nat (length (List.filter (isValidDate L) values)).
Proof.
  revert n. induction values as [|v values IH]; intros n.
  - cbn. lia.
  - cbn [countValidDates List.filter]. rewrite IH. unfold isValidDate at 2.
    destruct (parseDateHeader L v) as [t|]; cbn [length]; lia.
Qed.

(** X24.  A date test with [:count] counts the values of its header that
    parse as dates and hands the number to [countMatches]; it looks at
    neither [:index] nor the zone nor the date-part, so that even a
    date-part that does not exist raises no error. *)
Theorem date_count_counts_valid_dates (L : TimeLibrary) (c : DateTest)
    (d : RuntimeData) (values : list string) :
  isCount (dateMatcher c) = true ->
  Host.HeaderGet (Msg d) (HeaderEdits d) (expandVars d (dateHeader c))
    = (values, None) ->
  DateTest_Check L c d
  = (countMatches (dateMatcher c) d
       (Z.of_nat (length (List.filter (isValidDate L) values))),
     None, d).
Proof.
  intros Hc Hget. unfold DateTest_Check. rewrite Hget, Hc.
  now rewrite countValidDates_filter.
Qed.

(** X25.  Without [:count] a date test fails, with no error and no change,
    when there is no date to look at: the header has no value, [:index]
    points outside the values, or the value it selects does not parse as a
    date. *)
Theorem date_test_without_date (L : TimeLibrary) (c : DateTest)
    (d : RuntimeData) (values : list string) :
  isCount (dateMatcher c) = false ->
  Host.HeaderGet (Msg d) (HeaderEdits d) (expandVars d (dateHeader c))
    = (values, None) ->
  match selectedDateValue c values with
  | None => True
  | Some value => isValidDate L value = false
  end ->
  DateTest_Check L c d = (false, None, d).
Proof.
  intros Hc Hget Hsel. unfold DateTest_Check. rewrite Hget, Hc.
  destruct (Z.eqb_spec (Z.of_nat (length values)) 0) as [|Hlen]; [reflexivity|].
  unfold selectedDateValue, selectedIndex in Hsel.
  destruct (0 <? dateIndex c) eqn:Hidx.
  - set (idx := if dateLast c then _ else _) in *.
    destruct (Z.ltb_spec idx 0) as [|Hlo]; [reflexivity|]. cbn [orb].
    destruct (Z.leb_spec (Z.of_nat (length values)) idx) as [|Hhi]; [reflexivity|].
    rewrite (nth_error_nth' values EmptyString) in Hsel by lia.
    unfold isValidDate in Hsel.
    now destruct (parseDateHeader L (nth (Z.to_nat idx) values EmptyString)).
  - destruct values as [|v values]; [cbn [length] in Hlen; lia|].
    cbn [nth_error nth] in *. unfold isValidDate in Hsel.
    now destruct (parseDateHeader L v).
Qed.

(** X26.  [extractDatePart] knows the date-parts of [ValidDateParts] and no
    others: it answers without error exactly for the names in that set. *)
Theorem extractDatePart_valid_parts (L : TimeLibrary) (t : Time L)
    (part : string) :
  snd (extractDatePart L t part) = None <-> part ∈ ValidDateParts.
Proof.
  unfold extractDatePart, ValidDateParts.
  rewrite !elem_of_union, !elem_of_singleton.
  repeat match goal with
         | |- context [String.eqb part ?s] =>
           destruct (String.eqb_spec part s) as [->|?];
             [split; [intros _; tauto | reflexivity]|]
         end.
  cbn [snd]. split; [discriminate|]. intros H.
  repeat (destruct H as [H|H]; [|contradiction]). contradiction.
Qed.

(** *** Nested [allof] and [anyof] *)

Lemma AllOfTest_Check_app (tests1 tests2 : list Test) (d : RuntimeData) :
  AllOfTest_Check Check (tests1 ++ tests2) d
  = match AllOfTest_Check Check tests1 d with
    | (true, None, d') => AllOfTest_Check Check tests2 d'
    | r => r
    end.
Proof.
  revert d. induction tests1 as [|t tests1 IH]; intros d; [reflexivity|].
  cbn [app AllOfTest_Check].
  destruct (Check t d) as [[[|] [err|]] d1]; try reflexivity. apply IH.
Qed.

Lemma AnyOfTest_Check_app (tests1 tests2 : list Test) (d : RuntimeData) :
  AnyOfTest_Check Check (tests1 ++ tests2) d
  = match AnyOfTest_Check Check tests1 d with
    | (false, None, d') => AnyOfTest_Check Check tests2 d'
    | r => r
    end.
Proof.
  revert d. induction tests1 as [|t tests1 IH]; intros d; [reflexivity|].
  cbn [app AnyOfTest_Check].
  destruct (Check t d) as [[[|] [err|]] d1]; try reflexivity. apply IH.
Qed.

(** X27.  Nesting changes nothing: an [allof] of two [allof] tests is the
    [allof] of their tests in one list, and likewise for [anyof], with the
    same answer, the same error and the same runtime data, so the same
    tests evaluated in the same order. *)
Theorem allof_anyof_flatten (tests1 tests2 : list Test) (d : RuntimeData) :
  Check (AllOfTest [AllOfTest tests1; AllOfTest tests2]) d
    = Check (AllOfTest (tests1 ++ tests2)) d
  /\ Check (AnyOfTest [AnyOfTest tests1; AnyOfTest tests2]) d
     = Check (AnyOfTest (tests1 ++ tests2)) d.
Proof.
  split.
  - cbn [Check AllOfTest_Check]. rewrite AllOfTest_Check_app.
    destruct (AllOfTest_Check Check tests1 d) as [[ok1 [err1|]] d1] eqn:H1.
    + pose proof (Check_error_false (AllOfTest tests1) d ok1 err1 d1 H1) as ->.
      reflexivity.
    + destruct ok1; [|reflexivity].
      destruct (AllOfTest_Check Check tests2 d1) as [[ok2 [err2|]] d2] eqn:H2.
      * pose proof (Check_error_false (AllOfTest tests2) d1 ok2 err2 d2 H2) as ->.
        reflexivity.
      * now destruct ok2.
  - cbn [Check AnyOfTest_Check]. rewrite AnyOfTest_Check_app.
    destruct (AnyOfTest_Check Check tests1 d) as [[ok1 [err1|]] d1] eqn:H1.
    + pose proof (Check_error_false (AnyOfTest tests1) d ok1 err1 d1 H1) as ->.
      reflexivity.
    + destruct ok1; [reflexivity|].
      destruct (AnyOfTest_Check Check tests2 d1) as [[ok2 [err2|]] d2] eqn:H2.
      * pose proof (Check_error_false (AnyOfTest tests2) d1 ok2 err2 d2 H2) as ->.
        reflexivity.
      * now destruct ok2.
Qed.

End Interp.

(** ** Dates

    The functions of date.go that take no variable of the interpreter. *)

(** Where no operand is negative, the divisions of [modifiedJulianDay] are
    the divisions of [Z]. *)
Lemma modifiedJulianDay_div (year month day : Z) :
  -4800 < year -> 1 <= month <= 12 ->
  modifiedJulianDay year month day
  = day + (153 * (month + 12 * ((14 - month) / 12) - 3) + 2) / 5
    + 365 * (year + 4800 - (14 - month) / 12)
    + (year + 4800 - (14 - month) / 12) / 4
    - (year + 4800 - (14 - month) / 12) / 100
    + (year + 4800 - (14 - month) / 12) / 400 - 32045 - 2400001.
Proof.
  intros Hy Hm. unfold modifiedJulianDay. cbv zeta.
  rewrite (Z.quot_div_nonneg (14 - month) 12) by lia.
  assert (Ha : 0 <= (14 - month) / 12 <= 1) by (Z.div_mod_to_equations; lia).
  assert (Ham : month <= 2 -> (14 - month) / 12 = 1)
    by (intros; Z.div_mod_to_equations; lia).
  rewrite (Z.quot_div_nonneg (153 * _ + 2) 5) by lia.
  rewrite !(Z.quot_div_nonneg (year + 4800 - _)) by lia.
  reflexivity.
Qed.

(** X28.  [modifiedJulianDay] counts the days of the Gregorian calendar: it
    is 0 on 17 November 1858, and from every day to the next it grows by
    one, at the end of a month, of a year and of a February with or without
    leap day alike (for the years from -4799 on, where no division of the
    formula has a negative operand). *)
Theorem modifiedJulianDay_counts_days (year month day : Z) :
  -4800 < year -> 1 <= month <= 12 -> 1 <= day <= daysIn year month ->
  modifiedJulianDay 1858 11 17 = 0
  /\ (let '(year', month', day') := nextDay (year, month, day) in
      modifiedJulianDay year' month' day')
     = modifiedJulianDay year month day + 1.
Proof.
  intros Hy Hm Hd. split; [reflexivity|].
  unfold nextDay.
  assert (Hcases : month = 1 \/ month = 2 \/ month = 3 \/ month = 4 \/ month = 5
                   \/ month = 6 \/ month = 7 \/ month = 8 \/ month = 9
                   \/ month = 10 \/ month = 11 \/ month = 12) by lia.
  destruct (Z.ltb_spec day (daysIn year month)) as [Hlt|Hge].
  - rewrite !modifiedJulianDay_div by lia. lia.
  - assert (Hlast : day = daysIn year month) by lia. clear Hge Hd.
    destruct (Z.ltb_spec month 12) as [Hm12|Hm12].
    + rewrite !modifiedJulianDay_div by lia. subst day.
      unfold daysIn, isLeapYear.
      repeat (destruct Hcases as [->|Hcases]); try subst month; try lia;
        cbn [Z.eqb Pos.eqb orb].
      all: change (14 - 1) with 13; change (14 - 2) with 12.
      all: repeat match goal with
                  | |- context [(14 - (?k + 1)) / 12] =>
                    let v := eval vm_compute in ((14 - (k + 1)) / 12) in
                    change ((14 - (k + 1)) / 12) with v
                  | |- context [(14 - ?k) / 12] =>
                    let v := eval vm_compute in ((14 - k) / 12) in
                    change ((14 - k) / 12) with v
                  | |- context [13 / 12] => change (13 / 12) with 1
                  | |- context [12 / 12] => change (12 / 12) with 1
                  end.
      all: try (Z.div_mod_to_equations; lia).
      (* February *)
      destruct (year mod 4 =? 0) eqn:H4; destruct (year mod 100 =? 0) eqn:H100;
        destruct (year mod 400 =? 0) eqn:H400; cbn [negb andb orb];
        rewrite ?Z.eqb_eq, ?Z.eqb_neq in *; Z.div_mod_to_equations; lia.
    + assert (month = 12) by lia. subst month day.
      rewrite !modifiedJulianDay_div by lia.
      unfold daysIn. cbn [Z.eqb Pos.eqb orb].
      change ((14 - 1) / 12) with 1. change ((14 - 12) / 12) with 0.
      Z.div_mod_to_equations; lia.
Qed.

Lemma digit_byte (c : ascii) :
  (GoString.byte_val c - 0x30) mod 256 <= 9 <-> isDigitChar c = true.
Proof.
  unfold isDigitChar, Strconv.isDigitByte. pose proof (byte_val_range c) as Hc.
  rewrite andb_true_iff, !Z.leb_le. split.
  - intros H. Z.div_mod_to_equations. lia.
  - intros [H1 H2]. rewrite Z.mod_small; lia.
Qed.

Lemma digit_byte_value (c : ascii) :
  isDigitChar c = true -> (GoString.byte_val c - 0x30) mod 256 = digitValue c.
Proof.
  unfold isDigitChar, Strconv.isDigitByte, digitValue. intros H.
  apply andb_true_iff in H as [H1 H2]. apply Z.leb_le in H1, H2.
  apply Z.mod_small. lia.
Qed.

Lemma digit_not_sign (c : ascii) : isDigitChar c = true -> isSignChar c = false.
Proof.
  unfold isSignChar. intros H.
  destruct (Ascii.eqb_spec c "-") as [->|_]; [discriminate H|].
  destruct (Ascii.eqb_spec c "+") as [->|_]; [discriminate H|]. reflexivity.
Qed.

Lemma digitValue_range (c : ascii) :
  isDigitChar c = true -> 0 <= digitValue c <= 9.
Proof.
  unfold isDigitChar, Strconv.isDigitByte, digitValue. intros H.
  apply andb_true_iff in H as [H1 H2]. apply Z.leb_le in H1, H2. lia.
Qed.

(** [strconv.Atoi] on two bytes. *)
Lemma strconv_Atoi_two_digits (c1 c2 : ascii) :
  isDigitChar c1 = true -> isDigitChar c2 = true ->
  strconv_Atoi (String c1 (String c2 EmptyString))
  = (10 * digitValue c1 + digitValue c2, None).
Proof.
  intros H1 H2. unfold strconv_Atoi.
  change (GoString.len (String c1 (String c2 EmptyString))) with 2.
  cbn [Z.ltb Z.compare Pos.compare Pos.compare_cont andb].
  pose proof (digit_not_sign c1 H1) as Hs. unfold isSignChar in Hs. rewrite Hs.
  cbn [andb GoString.bytes strconv_Atoi_loop].
  rewrite (digit_byte_value c1 H1), (digit_byte_value c2 H2).
  pose proof (digitValue_range c1 H1). pose proof (digitValue_range c2 H2).
  destruct (Z.ltb_spec 9 (digitValue c1)); [lia|].
  destruct (Z.ltb_spec 9 (digitValue c2)); [lia|].
  apply orb_false_iff in Hs as [-> _]. f_equal. lia.
Qed.

Lemma strconv_Atoi_two_accepts (c1 c2 : ascii) :
  snd (strconv_Atoi (String c1 (String c2 EmptyString))) = None
  <-> zoneField c1 c2 = true.
Proof.
  unfold strconv_Atoi, zoneField.
  change (GoString.len (String c1 (String c2 EmptyString))) with 2.
  cbn [Z.ltb Z.compare Pos.compare Pos.compare_cont andb].
  fold (isSignChar c1).
  destruct (isSignChar c1) eqn:Hs.
  - change (GoString.len (String c2 EmptyString)) with 1.
    cbn [Z.ltb Z.compare Pos.compare Pos.compare_cont andb GoString.bytes
         strconv_Atoi_loop].
    rewrite orb_true_r, andb_true_l, <- digit_byte.
    destruct (Z.ltb_spec 9 ((GoString.byte_val c2 - 48) mod 256)); cbn [snd];
      split; intros H'; first [discriminate | lia | reflexivity].
  - cbn [andb GoString.bytes strconv_Atoi_loop].
    rewrite orb_false_r, andb_true_iff, <- !digit_byte.
    destruct (Z.ltb_spec 9 ((GoString.byte_val c1 - 48) mod 256)); cbn [snd].
    + split; [discriminate|lia].
    + destruct (Z.ltb_spec 9 ((GoString.byte_val c2 - 48) mod 256)); cbn [snd];
        split; intros H'; first [discriminate | lia | reflexivity].
Qed.

(** X29.  [parseZoneOffset] on a sign and four digits, [+HHMM] or [-HHMM],
    answers the offset in seconds, [HH] hours and [MM] minutes east or west;
    neither the hours nor the minutes are checked against a range, so the
    offset lies anywhere up to 99 hours and 99 minutes from zero. *)
Theorem parseZoneOffset_of_digits (sgn h1 h2 m1 m2 : ascii) :
  isSignChar sgn = true ->
  isDigitChar h1 = true -> isDigitChar h2 = true ->
  isDigitChar m1 = true -> isDigitChar m2 = true ->
  parseZoneOffset
    (String sgn (String h1 (String h2 (String m1 (String m2 EmptyString)))))
  = ((if Ascii.eqb sgn "-" then -1 else 1)
     * ((10 * digitValue h1 + digitValue h2) * 3600
        + (10 * digitValue m1 + digitValue m2) * 60), None)
  /\ Z.abs (fst (parseZoneOffset
                   (String sgn (String h1 (String h2 (String m1
                      (String m2 EmptyString)))))))
     <= 99 * 3600 + 99 * 60.
Proof.
  intros Hs H1 H2 H3 H4.
  assert (Hval : parseZoneOffset
            (String sgn (String h1 (String h2 (String m1 (String m2 EmptyString)))))
          = ((if Ascii.eqb sgn "-" then -1 else 1)
             * ((10 * digitValue h1 + digitValue h2) * 3600
                + (10 * digitValue m1 + digitValue m2) * 60), None)).
  { unfold parseZoneOffset.
    change (GoString.len
              (String sgn (String h1 (String h2 (String m1 (String m2 EmptyString))))))
      with 5.
    cbn [Z.eqb Pos.eqb negb].
    change (String.substring 1 2
              (String sgn (String h1 (String h2 (String m1 (String m2 EmptyString))))))
      with (String h1 (String h2 EmptyString)).
    change (String.substring 3 2
              (String sgn (String h1 (String h2 (String m1 (String m2 EmptyString))))))
      with (String m1 (String m2 EmptyString)).
    rewrite (strconv_Atoi_two_digits h1 h2 H1 H2),
      (strconv_Atoi_two_digits m1 m2 H3 H4).
    unfold isSignChar in Hs.
    destruct (Ascii.eqb sgn "-"); [reflexivity|].
    cbn [orb] in Hs. now rewrite Hs. }
  split; [exact Hval|]. rewrite Hval. cbn [fst].
  pose proof (digitValue_range h1 H1). pose proof (digitValue_range h2 H2).
  pose proof (digitValue_range m1 H3). pose proof (digitValue_range m2 H4).
  destruct (Ascii.eqb sgn "-"); lia.
Qed.

(** X30.  [parseZoneOffset] accepts exactly the strings of five bytes that
    begin with a sign and go on with two fields that [strconv.Atoi]
    accepts: each field is two digits, or a sign and one digit, so that
    ["+-5+3"] is a zone as well. *)
Theorem parseZoneOffset_accepts (zone : string) :
  snd (parseZoneOffset zone) = None
  <-> exists sgn h1 h2 m1 m2,
        zone = String sgn (String h1 (String h2 (String m1
                 (String m2 EmptyString))))
        /\ isSignChar sgn = true
        /\ zoneField h1 h2 = true /\ zoneField m1 m2 = true.
Proof.
  split.
  - unfold parseZoneOffset.
    destruct (Z.eqb_spec (GoString.len zone) 5) as [Hlen|]; [|discriminate].
    cbn [negb].
    destruct zone as [|sgn [|h1 [|h2 [|m1 [|m2 [|x rest]]]]]];
      try (unfold GoString.len in Hlen; cbn [String.length] in Hlen; lia).
    change (String.substring 1 2
              (String sgn (String h1 (String h2 (String m1 (String m2 EmptyString))))))
      with (String h1 (String h2 EmptyString)).
    change (String.substring 3 2
              (String sgn (String h1 (String h2 (String m1 (String m2 EmptyString))))))
      with (String m1 (String m2 EmptyString)).
    destruct (negb (Ascii.eqb sgn "-") && negb (Ascii.eqb sgn "+")) eqn:Hsgn;
      [discriminate|].
    pose proof (strconv_Atoi_two_accepts h1 h2) as Hh.
    pose proof (strconv_Atoi_two_accepts m1 m2) as Hm.
    destruct (strconv_Atoi (String h1 (String h2 EmptyString))) as [hours [e|]];
      [discriminate|].
    destruct (strconv_Atoi (String m1 (String m2 EmptyString))) as [minutes [e|]];
      [discriminate|].
    intros _. exists sgn, h1, h2, m1, m2. repeat split.
    + unfold isSignChar. destruct (Ascii.eqb sgn "-"), (Ascii.eqb sgn "+");
        try reflexivity; discriminate.
    + now apply Hh.
    + now apply Hm.
  - intros (sgn & h1 & h2 & m1 & m2 & -> & Hs & Hh & Hm).
    unfold parseZoneOffset.
    change (GoString.len
              (String sgn (String h1 (String h2 (String m1 (String m2 EmptyString))))))
      with 5.
    cbn [Z.eqb Pos.eqb negb].
    change (String.substring 1 2
              (String sgn (String h1 (String h2 (String m1 (String m2 EmptyString))))))
      with (String h1 (String h2 EmptyString)).
    change (String.substring 3 2
              (String sgn (String h1 (String h2 (String m1 (String m2 EmptyString))))))
      with (String m1 (String m2 EmptyString)).
    unfold isSignChar in Hs.
    replace (negb (Ascii.eqb sgn "-") && negb (Ascii.eqb sgn "+")) with false
      by (destruct (Ascii.eqb sgn "-"), (Ascii.eqb sgn "+");
          try reflexivity; discriminate).
    apply strconv_Atoi_two_accepts in Hh, Hm.
    destruct (strconv_Atoi (String h1 (String h2 EmptyString))) as [hours [e|]];
      [discriminate|].
    destruct (strconv_Atoi (String m1 (String m2 EmptyString))) as [minutes [e|]];
      [discriminate|].
    reflexivity.
Qed.

(** ** Closed instances

    The statements above hold for every choice of the variables of the
    section; the instances below run the interpreter on the sample data. *)

Abbreviation sample_check :=
  (Check Sample.noDigit Sample.lowerMap Sample.equalFold Sample.compareString
         Sample.compareNumericValue Sample.glob Sample.glob unit Sample.compile
         Sample.findStringSubmatch Sample.expand Sample.count).

Abbreviation sample_run :=
  (Script_Execute Sample.noDigit Sample.lowerMap Sample.equalFold
                  Sample.trimSpace Sample.compareString
                  Sample.compareNumericValue Sample.glob Sample.glob unit
                  Sample.compile Sample.findStringSubmatch Sample.expand
                  Sample.count).

Abbreviation sample_log :=
  (executedScript Sample.noDigit Sample.lowerMap Sample.equalFold
                  Sample.trimSpace Sample.compareString
                  Sample.compareNumericValue Sample.glob Sample.glob unit
                  Sample.compile Sample.findStringSubmatch Sample.expand
                  Sample.count).

(** C1, counterexample.  The script [vacation :addresses [...] "Away.";] run
    for the sender [sender@example.com], one of the addresses, completes
    without error: a vacation command was executed, and [ImplicitKeep] is
    still true at the end. *)
Lemma vacation_own_address_keeps_implicit_keep :
  sample_run [Vacation Sample.vacationOwn] (Sample.fresh "sender@example.com")
    = (None, Sample.fresh "sender@example.com")
  /\ ImplicitKeep (Sample.fresh "sender@example.com") = true
  /\ existsb isNonCopyDelivery
       (sample_log [Vacation Sample.vacationOwn]
                   (Sample.fresh "sender@example.com")) = true.
Proof. repeat split. Qed.

(** C1, witness: the first scenario of the specification on the sample
    message, [if header :contains "Subject" "present" { fileinto :copy
    "Reports"; } keep;]. *)
Lemma implicit_keep_invariant_witness :
  sample_run [If (HeaderTest Sample.containsPresent ["Subject"])
                 [FileInto "Reports" true] [];
              KeepCmd]
             (Sample.fresh "from@test.com")
    = (None,
       set_Keep true
         (set_Mailboxes ["Reports"] (Sample.fresh "from@test.com")))
  /\ (ImplicitKeep
        (set_Keep true
           (set_Mailboxes ["Reports"] (Sample.fresh "from@test.com"))) = true
      <-> ImplicitKeep (Sample.fresh "from@test.com") = true
          /\ forall e,
               In e (sample_log [If (HeaderTest Sample.containsPresent ["Subject"])
                                    [FileInto "Reports" true] [];
                                 KeepCmd]
                                (Sample.fresh "from@test.com")) ->
               clearsImplicitKeep Sample.expand e = false).
Proof.
  split; [reflexivity|].
  apply (implicit_keep_invariant
           Sample.noDigit Sample.lowerMap Sample.equalFold Sample.trimSpace
           Sample.compareString Sample.compareNumericValue Sample.glob
           Sample.glob unit Sample.compile Sample.findStringSubmatch
           Sample.expand Sample.count
           [If (HeaderTest Sample.containsPresent ["Subject"])
               [FileInto "Reports" true] [];
            KeepCmd]
           (Sample.fresh "from@test.com")).
  reflexivity.
Defined.

(** C2, witness: [vacation "I'm on vacation."] for the sender
    [sender@example.com] records the response with the default subject and
    days, and clears [ImplicitKeep]. *)
Lemma vacation_records_response_witness :
  Host.EnvelopeFrom (Envelope (Sample.fresh "sender@example.com")) <> EmptyString
  /\ ImplicitKeep
       (snd (CmdVacation_Execute Sample.expand Sample.vacationPlain
               (Sample.fresh "sender@example.com"))) = false
  /\ responsesOf
       (snd (CmdVacation_Execute Sample.expand Sample.vacationPlain
               (Sample.fresh "sender@example.com")))
       !! "sender@example.com"
     = Some {| From := EmptyString; Subject := "Automated reply";
               Body := "I'm on vacation."; IsMime := false;
               Handle := EmptyString; Days := 7 |}.
Proof.
  assert (Hsender : Host.EnvelopeFrom (Envelope (Sample.fresh "sender@example.com"))
                    <> EmptyString) by discriminate.
  split; [exact Hsender|].
  destruct (vacation_records_response Sample.expand Sample.vacationPlain
              (Sample.fresh "sender@example.com") Hsender) as [_ [Hrec _]].
  destruct Hrec as [_ [Hkeep [Hresp _]]].
  - intros [].
  - split; [exact Hkeep|exact Hresp].
Defined.

(** C10, witness: [vacation] for a message with no envelope sender. *)
Lemma vacation_without_sender_witness :
  Host.EnvelopeFrom (Envelope (Sample.fresh EmptyString)) = EmptyString
  /\ CmdVacation_Execute Sample.expand Sample.vacationPlain (Sample.fresh EmptyString)
     = (Some ErrVacationNoSender, Sample.fresh EmptyString).
Proof.
  split; [reflexivity|].
  apply (vacation_without_sender Sample.expand Sample.vacationPlain
           (Sample.fresh EmptyString)).
  reflexivity.
Defined.


(** C4, counterexample.  [allof] on the empty list of tests holds. *)
Lemma allof_empty_is_true :
  fst (fst (sample_check (AllOfTest []) (Sample.fresh "from@test.com"))) = true
  /\ snd (fst (sample_check (AllOfTest []) (Sample.fresh "from@test.com"))) = None.
Proof. split; reflexivity. Qed.

(** C7, witness: the sender of the message of the tests and the sender and
    the recipient of its envelope have no detail; [envelope :detail :is] and
    [address :detail :is] fail on them. *)
Lemma detail_without_separator_witness :
  lacksDetail Sample.equalFold "+" "coyote@desert.example.org" = true
  /\ testAddress Sample.noDigit Sample.lowerMap Sample.equalFold
       Sample.compareString Sample.compareNumericValue Sample.glob Sample.glob
       unit Sample.compile Sample.findStringSubmatch Sample.expand "+"
       (Sample.fresh "from@test.com") Sample.isSomeone
       Detail "coyote@desert.example.org"
     = (false, None, Sample.fresh "from@test.com")
  /\ EnvelopeTest_Check Sample.noDigit Sample.lowerMap Sample.equalFold
       Sample.trimSpace Sample.compareString Sample.compareNumericValue
       Sample.glob Sample.glob unit Sample.compile Sample.findStringSubmatch
       Sample.expand Sample.count "+" Sample.isSomeone Detail ["from"; "to"]
       (Sample.fresh "from@test.com")
     = (false, None, Sample.fresh "from@test.com")
  /\ AddressTest_Check Sample.noDigit Sample.lowerMap Sample.equalFold
       Sample.trimSpace Sample.compareString Sample.compareNumericValue
       Sample.glob Sample.glob unit Sample.compile Sample.findStringSubmatch
       Sample.expand Sample.count "+" Sample.removeComments
       Sample.parseAddressList Sample.isSomeone Detail ["From"]
       (Sample.fresh "from@test.com")
     = (false, None, Sample.fresh "from@test.com").
Proof.
  destruct (detail_without_separator
              Sample.noDigit Sample.lowerMap Sample.equalFold Sample.trimSpace
              Sample.compareString Sample.compareNumericValue Sample.glob
              Sample.glob unit Sample.compile Sample.findStringSubmatch
              Sample.expand Sample.count "+" Sample.removeComments
              Sample.parseAddressList (Sample.fresh "from@test.com")
              Sample.isSomeone "coyote@desert.example.org" "coyote"
              "desert.example.org" ["from"; "to"] ["From"])
    as (Haddress & Henvelope & Hheader).
  destruct Haddress as [Hlacks Htest];
    [discriminate|discriminate|reflexivity|reflexivity|].
  split; [exact Hlacks|]. split; [exact Htest|].
  split; [apply Henvelope|apply Hheader]; vm_compute; reflexivity.
Defined.

(** C7, counterexample.  [envelope :detail :count "ge" "from" "1"] and
    [address :detail :count "ge" "From" "1"] on the message of the tests.
    The sender of the envelope and the sender of the message have no detail,
    and yet the test does not fail on them: under [:count] it counts the
    address, and answers what [countMatches] says of the count 1, whatever
    that function is.  With a function that holds of a count of at least 1,
    the test holds. *)
Lemma detail_count_counts_the_address :
  lacksDetail Sample.equalFold "+" "from@test.com" = true
  /\ lacksDetail Sample.equalFold "+" "coyote@desert.example.org" = true
  /\ (forall countMatches : matcherTest -> RuntimeData -> Z -> bool,
        EnvelopeTest_Check Sample.noDigit Sample.lowerMap Sample.equalFold
          Sample.trimSpace Sample.compareString Sample.compareNumericValue
          Sample.glob Sample.glob unit Sample.compile
          Sample.findStringSubmatch Sample.expand countMatches "+"
          Sample.countOne Detail ["from"] (Sample.fresh "from@test.com")
        = (countMatches Sample.countOne (Sample.fresh "from@test.com") 1, None,
           Sample.fresh "from@test.com")
        /\ AddressTest_Check Sample.noDigit Sample.lowerMap Sample.equalFold
             Sample.trimSpace Sample.compareString Sample.compareNumericValue
             Sample.glob Sample.glob unit Sample.compile
             Sample.findStringSubmatch Sample.expand countMatches "+"
             Sample.removeComments Sample.parseAddressList
             Sample.countOne Detail ["From"] (Sample.fresh "from@test.com")
           = (countMatches Sample.countOne (Sample.fresh "from@test.com") 1,
              None, Sample.fresh "from@test.com"))
  /\ EnvelopeTest_Check Sample.noDigit Sample.lowerMap Sample.equalFold
       Sample.trimSpace Sample.compareString Sample.compareNumericValue
       Sample.glob Sample.glob unit Sample.compile Sample.findStringSubmatch
       Sample.expand (fun _ _ n => 1 <=? n) "+"
       Sample.countOne Detail ["from"] (Sample.fresh "from@test.com")
     = (true, None, Sample.fresh "from@test.com")
  /\ AddressTest_Check Sample.noDigit Sample.lowerMap Sample.equalFold
       Sample.trimSpace Sample.compareString Sample.compareNumericValue
       Sample.glob Sample.glob unit Sample.compile Sample.findStringSubmatch
       Sample.expand (fun _ _ n => 1 <=? n) "+" Sample.removeComments
       Sample.parseAddressList Sample.countOne Detail ["From"]
       (Sample.fresh "from@test.com")
     = (true, None, Sample.fresh "from@test.com").
Proof.
  split; [reflexivity|]. split; [reflexivity|].
  split; [intros countMatches; split; reflexivity|].
  split; reflexivity.
Qed.


(** C8, witness: [deleteheader "Received"] and [addheader "X Test" "hello"]
    change nothing. *)
Lemma editheader_silently_ignored_witness :
  toLowerASCII (Sample.expand (Sample.fresh "from@test.com") "Received")
    = "received"
  /\ isValidHeaderName (Sample.expand (Sample.fresh "from@test.com") "X Test")
     = false
  /\ CmdDeleteHeader_Execute Sample.noDigit Sample.lowerMap Sample.equalFold
       Sample.trimSpace Sample.compareString Sample.compareNumericValue
       Sample.glob Sample.glob unit Sample.compile Sample.findStringSubmatch
       Sample.expand Sample.deleteReceived (Sample.fresh "from@test.com")
     = (None, Sample.fresh "from@test.com")
  /\ CmdAddHeader_Execute Sample.expand Sample.addBadName
       (Sample.fresh "from@test.com")
     = (None, Sample.fresh "from@test.com").
Proof.
  split; [reflexivity|]. split; [reflexivity|].
  destruct (editheader_silently_ignored
              Sample.noDigit Sample.lowerMap Sample.equalFold Sample.trimSpace
              Sample.compareString Sample.compareNumericValue Sample.glob
              Sample.glob unit Sample.compile Sample.findStringSubmatch
              Sample.expand Sample.deleteReceived Sample.addBadName
              (Sample.fresh "from@test.com")) as [_ [Hdel Hadd]].
  split; [apply Hdel; left; reflexivity|apply Hadd; reflexivity].
Defined.

(** C9, counterexample.  The string ["18446744073709551616"] begins with a
    decimal digit, indeed consists of twenty of them, and has no numeric
    value: the number is 2^64. *)
Lemma numeric_value_overflow :
  numericValue Sample.noDigit "18446744073709551616" = None
  /\ leadingDigits Sample.noDigit "18446744073709551616"
     = GoString.bytes "18446744073709551616"
  /\ Strconv.decimal (GoString.bytes "18446744073709551616") = 2 ^ 64.
Proof. repeat split; vm_compute; reflexivity. Qed.

(** C9, witness: ["10"] against ["9 lives"] and against ["many"], with the
    comparison of the specification. *)
Lemma ascii_numeric_value_witness :
  numericValue Sample.noDigit "10" = Some 10
  /\ numericValue Sample.noDigit "9 lives" = Some 9
  /\ numericValue Sample.noDigit "many" = None
  /\ testString Sample.noDigit Sample.lowerMap Sample.equalFold
       Sample.compareString SpecModel.CompareNumericValue Sample.glob
       Sample.glob unit Sample.compile Sample.findStringSubmatch
       ComparatorASCIINumeric MatchValue RelGreaterThan "10" "9 lives"
     = (true, [], None)
  /\ testString Sample.noDigit Sample.lowerMap Sample.equalFold
       Sample.compareString SpecModel.CompareNumericValue Sample.glob
       Sample.glob unit Sample.compile Sample.findStringSubmatch
       ComparatorASCIINumeric MatchValue RelLessThan "10" "many"
     = (true, [], None)
  /\ testString Sample.noDigit Sample.lowerMap Sample.equalFold
       Sample.compareString SpecModel.CompareNumericValue Sample.glob
       Sample.glob unit Sample.compile Sample.findStringSubmatch
       ComparatorASCIINumeric MatchIs RelUnset "10" "many"
     = (false, [], None).
Proof.
  pose proof (fun value k rel =>
                proj2 (proj2 (proj2 (proj2
                  (ascii_numeric_value
                     Sample.noDigit Sample.lowerMap Sample.equalFold
                     Sample.trimSpace Sample.compareString
                     SpecModel.CompareNumericValue Sample.glob Sample.glob
                     unit Sample.compile Sample.findStringSubmatch
                     Sample.expand "+" value value k rel))))
                  (fun _ _ _ => eq_refl)) as H.
  split; [reflexivity|]. split; [reflexivity|]. split; [reflexivity|].
  split; [|split].
  - exact (proj1 (proj2 (H "10" "9 lives" RelGreaterThan)) 10 9 eq_refl eq_refl).
  - exact (proj1 (proj1 (proj2 (proj2 (H "10" "many" RelLessThan)))
                    10 eq_refl eq_refl)).
  - exact (proj1 (H "10" "many" RelUnset)).
Defined.

(** X1, witness: [header :comparator "i;ascii-numeric" :contains "Subject"
    "1"], a combination that [testString] does not support. *)
Lemma test_error_answers_false_witness :
  sample_check (HeaderTest Sample.numericContains ["Subject"])
               (Sample.fresh "from@test.com")
    = (false, Some ErrComparatorMatchUnsupported, Sample.fresh "from@test.com")
  /\ false = false.
Proof.
  assert (H : sample_check (HeaderTest Sample.numericContains ["Subject"])
                (Sample.fresh "from@test.com")
              = (false, Some ErrComparatorMatchUnsupported,
                 Sample.fresh "from@test.com")) by (vm_compute; reflexivity).
  split; [exact H|].
  exact (test_error_answers_false
           Sample.noDigit Sample.lowerMap Sample.equalFold Sample.compareString
           Sample.compareNumericValue Sample.glob Sample.glob unit Sample.compile
           Sample.findStringSubmatch Sample.expand Sample.count
           _ _ _ _ _ H).
Defined.

(** X4, witness: [header :count "ge" ["Subject", "From"] "2"] on the sample
    message hands the count 2 to [countMatches]. *)
Lemma header_count_counts_values_witness :
  isCount Sample.countGe = true
  /\ headerValueCount Sample.expand (Sample.fresh "from@test.com")
       ["Subject"; "From"] = 2
  /\ sample_check (HeaderTest Sample.countGe ["Subject"; "From"])
                  (Sample.fresh "from@test.com")
     = (Sample.count Sample.countGe (Sample.fresh "from@test.com")
          (headerValueCount Sample.expand (Sample.fresh "from@test.com")
             ["Subject"; "From"]),
        None, Sample.fresh "from@test.com").
Proof.
  split; [reflexivity|]. split; [reflexivity|].
  apply (header_count_counts_values
           Sample.noDigit Sample.lowerMap Sample.equalFold Sample.compareString
           Sample.compareNumericValue Sample.glob Sample.glob unit Sample.compile
           Sample.findStringSubmatch Sample.expand Sample.count
           Sample.countGe ["Subject"; "From"] (Sample.fresh "from@test.com")).
  - reflexivity.
  - repeat constructor.
Defined.

(** X5, witness: [mailboxexists ["INBOX", "Drafts"]] under a policy that
    knows no mailbox [Drafts], and under a policy without a checker. *)
Lemma mailboxexists_optimistic_witness :
  MailboxExistsTest_Check Sample.expand None ["INBOX"; "Drafts"]
    (Sample.fresh "from@test.com") = (true, None)
  /\ MailboxExistsTest_Check Sample.expand (Some Sample.mailboxExists)
       ["INBOX"; "Drafts"] (Sample.fresh "from@test.com") = (false, None).
Proof.
  apply (mailboxexists_optimistic Sample.expand Sample.mailboxExists
           ["INBOX"; "Drafts"] (Sample.fresh "from@test.com")).
  intros mailbox _. reflexivity.
Defined.

(** X6, witness: [deleteheader :is "Subject" "I have a present for you"]
    returns [nil]; [deleteheader :count "ge" "Subject" "1"] panics. *)
Lemma editheader_never_fails_witness :
  fst (CmdDeleteHeader_Execute Sample.noDigit Sample.lowerMap Sample.equalFold
         Sample.trimSpace Sample.compareString Sample.compareNumericValue
         Sample.glob Sample.glob unit Sample.compile Sample.findStringSubmatch
         Sample.expand Sample.deleteSubjectIs (Sample.fresh "from@test.com"))
  = None
  /\ fst (CmdDeleteHeader_Execute Sample.noDigit Sample.lowerMap
            Sample.equalFold Sample.trimSpace Sample.compareString
            Sample.compareNumericValue Sample.glob Sample.glob unit
            Sample.compile Sample.findStringSubmatch Sample.expand
            Sample.deleteSubjectCount (Sample.fresh "from@test.com"))
     = Some (ErrPanic "testString should not be used with MatchCount").
Proof.
  split; [|reflexivity].
  apply (editheader_never_fails
           Sample.noDigit Sample.lowerMap Sample.equalFold Sample.trimSpace
           Sample.compareString Sample.compareNumericValue Sample.glob
           Sample.glob unit Sample.compile Sample.findStringSubmatch
           Sample.expand Sample.addXTest Sample.deleteSubjectIs
           (Sample.fresh "from@test.com")).
  - discriminate.
  - intros key value fold msg. split; discriminate.
Defined.

(** X7, witness: [addheader "X-Test" "hello"] on the sample message, read
    under the name [x-test]. *)
Lemma addheader_is_visible_witness :
  isValidHeaderName (Sample.expand (Sample.fresh "from@test.com") "X-Test") = true
  /\ applyHeaderEditsToValues Sample.equalFold
       (snd (CmdAddHeader_Execute Sample.expand Sample.addXTest
               (Sample.fresh "from@test.com")))
       "x-test" []
     = ["hello"].
Proof.
  split; [reflexivity|].
  apply (addheader_is_visible Sample.equalFold Sample.expand Sample.addXTest
           (Sample.fresh "from@test.com") "x-test" []).
  reflexivity.
Defined.

(** X8, witness: [deleteheader "Subject"] on the sample message behind the
    view that replays the journal; afterwards [exists "subject"] is false. *)
Lemma deleteheader_hides_header_witness :
  fst (fst (sample_check (ExistsTest ["subject"])
              (snd (CmdDeleteHeader_Execute Sample.noDigit Sample.lowerMap
                      Sample.equalFold Sample.trimSpace Sample.compareString
                      Sample.compareNumericValue Sample.glob Sample.glob unit
                      Sample.compile Sample.findStringSubmatch Sample.expand
                      Sample.deleteSubject
                      (NewRuntimeData 5 (Sample.envelope "from@test.com")
                         (EditableMessage Sample.equalFold Sample.message))))))
  = false.
Proof.
  apply (deleteheader_hides_header
           Sample.noDigit Sample.lowerMap Sample.equalFold Sample.trimSpace
           Sample.compareString Sample.compareNumericValue Sample.glob
           Sample.glob unit Sample.compile Sample.findStringSubmatch
           Sample.expand Sample.count Sample.message Sample.deleteSubject
           (NewRuntimeData 5 (Sample.envelope "from@test.com")
              (EditableMessage Sample.equalFold Sample.message))
           "subject");
    solve [reflexivity | vm_compute; discriminate].
Defined.

(** X9, witness: the values [a; b; c; b] of [X-Test] lose their first [b]. *)
Lemma delete_by_value_removes_first_witness :
  applyHeaderEdit Sample.equalFold "X-Test" ["a"; "b"; "c"; "b"]
    Sample.deleteValueB = ["a"; "c"; "b"]
  /\ applyHeaderEdit Sample.equalFold "X-Test" ["a"; "c"] Sample.deleteValueB
     = ["a"; "c"].
Proof.
  apply (delete_by_value_removes_first Sample.equalFold "X-Test"
           Sample.deleteValueB ["a"] ["c"; "b"] ["a"; "c"]);
    first [reflexivity | discriminate | cbn; lia
          | intros H; repeat (destruct H as [H|H]; [discriminate H|]); exact H].
Defined.

(** X10, witness: [:index 2 :last] on the values [a; b; c] removes [b], and
    removes nothing from the single value [a]. *)
Lemma delete_by_index_removes_one_witness :
  applyHeaderEdit Sample.equalFold "X-Test" ["a"; "b"; "c"]
    Sample.deleteSecondLast = ["a"; "c"]
  /\ applyHeaderEdit Sample.equalFold "X-Test" ["a"] Sample.deleteSecondLast
     = ["a"].
Proof.
  destruct (delete_by_index_removes_one Sample.equalFold "X-Test"
              Sample.deleteSecondLast ["a"] ["c"] "b") as [Hone Hnone];
    [reflexivity|reflexivity|reflexivity|].
  split; [apply Hone; reflexivity|apply Hnone; reflexivity].
Defined.

(** X11, witness: with an added [X-Test] in the journal, the subject of the
    sample message is read as it is. *)
Lemma editable_message_unrelated_journal_witness :
  Host.HeaderGet (EditableMessage Sample.equalFold Sample.message)
    [{| Action := "add"; FieldName := "X-Test"; Value := "hello";
        Last := false; Index := 0 |}]
    "Subject"
  = (["I have a present for you"], None).
Proof.
  apply (editable_message_unrelated_journal Sample.equalFold Sample.message
           [{| Action := "add"; FieldName := "X-Test"; Value := "hello";
               Last := false; Index := 0 |}] "Subject").
  repeat constructor.
Defined.

(** X12, witness: [deleteheader :is "X-Missing" "foo"] on the sample
    message, which has no such header. *)
Lemma deleteheader_nothing_to_delete_witness :
  CmdDeleteHeader_Execute Sample.noDigit Sample.lowerMap Sample.equalFold
    Sample.trimSpace Sample.compareString Sample.compareNumericValue
    Sample.glob Sample.glob unit Sample.compile Sample.findStringSubmatch
    Sample.expand Sample.deleteMissing (Sample.fresh "from@test.com")
  = (None, Sample.fresh "from@test.com").
Proof.
  apply (deleteheader_nothing_to_delete
           Sample.noDigit Sample.lowerMap Sample.equalFold Sample.trimSpace
           Sample.compareString Sample.compareNumericValue Sample.glob
           Sample.glob unit Sample.compile Sample.findStringSubmatch
           Sample.expand Sample.deleteMissing (Sample.fresh "from@test.com")).
  - discriminate.
  - right. left. reflexivity.
Defined.

(** X13, witness: an address with two at-signs is cut at the last one. *)
Lemma split_at_last_at_sign_witness :
  Sample.equalFold "a@b@example.org" "postmaster" = false
  /\ split Sample.equalFold "a@b@example.org" = ("a@b", "example.org", None).
Proof.
  split; [reflexivity|].
  apply (proj2 (split_at_last_at_sign Sample.equalFold "a@b@example.org"
                  "a@b" "example.org" eq_refl)).
  repeat split; discriminate.
Defined.

(** X16, witness: [:is] under [i;ascii-casemap] on ["Hello"] and
    ["HELLO"]. *)
Lemma casemap_ignores_ascii_case_witness :
  testString Sample.noDigit Sample.lowerMap Sample.equalFold
    Sample.compareString Sample.compareNumericValue Sample.glob Sample.glob
    unit Sample.compile Sample.findStringSubmatch
    ComparatorASCIICaseMap MatchIs RelUnset "hello" "hello"
  = testString Sample.noDigit Sample.lowerMap Sample.equalFold
      Sample.compareString Sample.compareNumericValue Sample.glob Sample.glob
      unit Sample.compile Sample.findStringSubmatch
      ComparatorASCIICaseMap MatchIs RelUnset "Hello" "HELLO".
Proof.
  apply (casemap_ignores_ascii_case
           Sample.noDigit Sample.lowerMap Sample.equalFold
           Sample.compareString Sample.compareNumericValue Sample.glob
           Sample.glob unit Sample.compile Sample.findStringSubmatch
           MatchIs RelUnset "Hello" "HELLO").
  left. reflexivity.
Defined.

(** X28, witness: the leap day of the year 2000, 29 February, is followed by
    1 March. *)
Lemma modifiedJulianDay_counts_days_witness :
  modifiedJulianDay 2000 2 29 = 51603
  /\ modifiedJulianDay 2000 3 1 = modifiedJulianDay 2000 2 29 + 1.
Proof.
  split; [reflexivity|].
  refine (proj2 (modifiedJulianDay_counts_days 2000 2 29 _ _ _));
    [lia | lia | vm_compute; split; discriminate].
Defined.

(** X29, witness: the zone [+0530] is 19800 seconds east. *)
Lemma parseZoneOffset_of_digits_witness :
  parseZoneOffset "+0530" = (19800, None).
Proof.
  refine (proj1 (parseZoneOffset_of_digits "+" "0" "5" "3" "0" _ _ _ _ _));
    reflexivity.
Defined.

(** X18, witness: [<user@example.org>] is accepted without its brackets. *)
Lemma parseEnvelopeAddress_bracketed_witness :
  parseEnvelopeAddress Sample.trimSpace "<user@example.org>"
  = ("user@example.org", None).
Proof.
  apply (proj2 (proj1 (parseEnvelopeAddress_bracketed Sample.trimSpace
                         "user@example.org" ltac:(discriminate) eq_refl))).
  right. exists "user", "example.org". repeat split; discriminate.
Defined.

(** X19, witness: behind the route [@relay.example.com] anything goes. *)
Lemma parseEnvelopeAddress_source_route_witness :
  parseEnvelopeAddress Sample.trimSpace "<@relay.example.com:not an address>"
  = ("not an address", None).
Proof.
  apply (parseEnvelopeAddress_source_route Sample.trimSpace
           "relay.example.com" "not an address"); reflexivity.
Defined.

(** X20, witness: the envelope sender [invalid-address] has no at-sign; the
    test [envelope :is "from" "someone@example.org"] fails on it. *)
Lemma envelope_invalid_never_matches_witness :
  snd (parseEnvelopeAddress Sample.trimSpace "invalid-address")
    = Some (ErrEnvelopeSyntax "invalid-address")
  /\ EnvelopeTest_Check Sample.noDigit Sample.lowerMap Sample.equalFold
       Sample.trimSpace Sample.compareString Sample.compareNumericValue
       Sample.glob Sample.glob unit Sample.compile Sample.findStringSubmatch
       Sample.expand Sample.count "+" Sample.isSomeone All ["from"]
       (Sample.fresh "invalid-address")
     = (false, None, Sample.fresh "invalid-address").
Proof.
  split; [reflexivity|].
  apply (envelope_invalid_never_matches
           Sample.noDigit Sample.lowerMap Sample.equalFold Sample.trimSpace
           Sample.compareString Sample.compareNumericValue Sample.glob
           Sample.glob unit Sample.compile Sample.findStringSubmatch
           Sample.expand Sample.count "+" Sample.isSomeone All ["from"]
           (Sample.fresh "invalid-address")).
  reflexivity.
Defined.

(** X21, witness: [address :is ["Subject", "X-Sender"] "someone@example.org"]
    on the sample message. *)
Lemma address_test_skips_other_headers_witness :
  AddressTest_Check Sample.noDigit Sample.lowerMap Sample.equalFold
    Sample.trimSpace Sample.compareString Sample.compareNumericValue
    Sample.glob Sample.glob unit Sample.compile Sample.findStringSubmatch
    Sample.expand Sample.count "+" Sample.removeComments
    Sample.parseAddressList Sample.isSomeone All ["Subject"; "X-Sender"]
    (Sample.fresh "from@test.com")
  = (false, None, Sample.fresh "from@test.com").
Proof.
  apply (address_test_skips_other_headers
           Sample.noDigit Sample.lowerMap Sample.equalFold Sample.trimSpace
           Sample.compareString Sample.compareNumericValue Sample.glob
           Sample.glob unit Sample.compile Sample.findStringSubmatch
           Sample.expand Sample.count "+" Sample.removeComments
           Sample.parseAddressList Sample.isSomeone All
           ["Subject"; "X-Sender"] (Sample.fresh "from@test.com")).
  vm_compute. reflexivity.
Defined.

(** X22, witness: [size :over 100] loads, and holds of the sample message
    of 606 bytes. *)
Lemma loadSizeTest_one_comparison_witness :
  loadSizeTest [ArgOver; ArgNum 100] None = (Some (SizeTest 100 true false), None)
  /\ exists size over,
       SizeTest 100 true false = SizeTest size over (negb over)
       /\ existsb (fun a => match a with ArgOver => true | _ => false end)
            [ArgOver; ArgNum 100] = over
       /\ existsb (fun a => match a with ArgUnder => true | _ => false end)
            [ArgOver; ArgNum 100] = negb over
       /\ sample_check (SizeTest 100 true false) (Sample.fresh "from@test.com")
          = (if over
             then size <? Host.MessageSize (Msg (Sample.fresh "from@test.com"))
             else Host.MessageSize (Msg (Sample.fresh "from@test.com")) <? size,
             None, Sample.fresh "from@test.com").
Proof.
  split; [reflexivity|].
  apply (loadSizeTest_one_comparison
           Sample.noDigit Sample.lowerMap Sample.equalFold Sample.compareString
           Sample.compareNumericValue Sample.glob Sample.glob unit Sample.compile
           Sample.findStringSubmatch Sample.expand Sample.count
           [ArgOver; ArgNum 100] None (SizeTest 100 true false) None
           (Sample.fresh "from@test.com")).
  reflexivity.
Defined.

(** X23, witness: two [vacation] commands for the sender
    [someone@example.org]; the response that stays is the one of the
    second, with the reason ["Away."]. *)
Lemma vacation_last_response_wins_witness :
  responsesOf
    (snd (CmdVacation_Execute Sample.expand Sample.vacationOwn
            (snd (CmdVacation_Execute Sample.expand Sample.vacationPlain
                    (Sample.fresh "someone@example.org")))))
  = <[ "someone@example.org" :=
         {| From := EmptyString; Subject := "Automated reply"; Body := "Away.";
            IsMime := false; Handle := EmptyString; Days := 7 |} ]>
      (responsesOf (Sample.fresh "someone@example.org")).
Proof.
  apply (vacation_last_response_wins Sample.expand Sample.vacationPlain
           Sample.vacationOwn (Sample.fresh "someone@example.org"));
    [discriminate|reflexivity|reflexivity].
Defined.

(** X24, witness: of the two [Date] headers of the dated message one is a
    date. *)
Lemma date_count_counts_valid_dates_witness :
  DateTest_Check Sample.noDigit Sample.lowerMap Sample.equalFold
    Sample.trimSpace Sample.compareString Sample.compareNumericValue
    Sample.glob Sample.glob unit Sample.compile Sample.findStringSubmatch
    Sample.expand Sample.count Sample.timeLibrary Sample.dateCount Sample.dated
  = (Sample.count Sample.countGe Sample.dated 1, None, Sample.dated).
Proof.
  apply (date_count_counts_valid_dates
           Sample.noDigit Sample.lowerMap Sample.equalFold Sample.trimSpace
           Sample.compareString Sample.compareNumericValue Sample.glob
           Sample.glob unit Sample.compile Sample.findStringSubmatch
           Sample.expand Sample.count Sample.timeLibrary Sample.dateCount
           Sample.dated ["Tue, 1 Apr 1997 09:06:31 -0800"; "yesterday"]);
    reflexivity.
Defined.

(** X25, witness: the second [Date] header of the dated message is no
    date. *)
Lemma date_test_without_date_witness :
  DateTest_Check Sample.noDigit Sample.lowerMap Sample.equalFold
    Sample.trimSpace Sample.compareString Sample.compareNumericValue
    Sample.glob Sample.glob unit Sample.compile Sample.findStringSubmatch
    Sample.expand Sample.count Sample.timeLibrary Sample.dateSecond Sample.dated
  = (false, None, Sample.dated).
Proof.
  apply (date_test_without_date
           Sample.noDigit Sample.lowerMap Sample.equalFold Sample.trimSpace
           Sample.compareString Sample.compareNumericValue Sample.glob
           Sample.glob unit Sample.compile Sample.findStringSubmatch
           Sample.expand Sample.count Sample.timeLibrary Sample.dateSecond
           Sample.dated ["Tue, 1 Apr 1997 09:06:31 -0800"; "yesterday"]);
    reflexivity.
Defined.
